(** * VA-API hardware decoding interop (video/out/hwdec/hwdec_vaapi.c)

    A shallow embedding of mpv's VA-API interop layer: native display
    acquisition, device initialisation with interop backend selection,
    format probing, and the per-frame surface mapper with its teardown.

    The C code is a sequence of calls into libva, libavutil, the renderer
    and the interop backend, threaded through two mutable structs
    ([struct priv_owner], [struct priv]).  It is embedded as state-passing
    code in a small monad that also records every external call, in order.
    What an external call answers is taken from an environment, over which
    the theorems quantify.

    The embedding is of the build with [VA_CHECK_VERSION(1, 1, 0)], the one
    in which [struct priv] has the export descriptor and its flags. *)

From Stdlib Require Import String ZArith List Sorted Bool Lia.
Import ListNotations.
Local Open Scope string_scope.
Local Open Scope list_scope.
Local Open Scope Z_scope.

(** ** Constants of <va/va.h> and of mpv's headers *)

Abbreviation VAStatus := Z (only parsing).
Definition VA_STATUS_SUCCESS : VAStatus := 0.
Definition VA_STATUS_ERROR_UNIMPLEMENTED : VAStatus := 0x14.
Definition VA_INVALID_ID : Z := 0xffffffff.
Definition AV_PIX_FMT_NONE : Z := -1.

(** [MKTAG(a, b, c, d)] and [VA_FOURCC(a, b, c, d)]: the four characters
    packed little-endian into 32 bits. *)
Definition MKTAG (a b c d : Z) : Z :=
  Z.lor a (Z.lor (Z.shiftl b 8) (Z.lor (Z.shiftl c 16) (Z.shiftl d 24))).

Definition VA_FOURCC_YV12 : Z := MKTAG 0x59 0x56 0x31 0x32. (* 'Y' 'V' '1' '2' *)

Inductive msg_level := MSGL_FATAL | MSGL_ERR | MSGL_WARN | MSGL_V.

(** ** Data *)

(** A pointer to an opaque object is [option]: [None] is [NULL]. *)
Abbreviation ra_tex := (option Z) (only parsing).
Abbreviation VADisplay := (option Z) (only parsing).

(** [struct ra_tex *tex[4]] of [struct ra_hwdec_mapper]. *)
Record tex_array := mk_tex {
  tex0 : ra_tex; tex1 : ra_tex; tex2 : ra_tex; tex3 : ra_tex
}.

Definition tex_at (t : tex_array) (n : nat) : ra_tex :=
  match n with
  | 0%nat => tex0 t | 1%nat => tex1 t | 2%nat => tex2 t | _ => tex3 t
  end.

Definition tex_set (t : tex_array) (n : nat) (v : ra_tex) : tex_array :=
  match n with
  | 0%nat => mk_tex v (tex1 t) (tex2 t) (tex3 t)
  | 1%nat => mk_tex (tex0 t) v (tex2 t) (tex3 t)
  | 2%nat => mk_tex (tex0 t) (tex1 t) v (tex3 t)
  | _ => mk_tex (tex0 t) (tex1 t) (tex2 t) v
  end.

(** [MPSWAP(struct ra_tex*, tex[a], tex[b])]:
    [tmp = tex[b]; tex[b] = tex[a]; tex[a] = tmp]. *)
Definition MPSWAP (a b : nat) (t : tex_array) : tex_array :=
  let tmp := tex_at t b in
  let t := tex_set t b (tex_at t a) in
  tex_set t a tmp.

(** [VAImage]: the fields the mapper reads. *)
Record VAImage := mk_image {
  image_id : Z;
  buf : Z;
  format_fourcc : Z
}.

(** [VADRMPRIMESurfaceDescriptor]: [objects] holds the file descriptor of
    each exported object. *)
Record VADRMPRIMESurfaceDescriptor := mk_desc {
  fourcc : Z;
  num_objects : Z;
  objects : list Z
}.

Record mp_image_params := mk_params {
  imgfmt : Z;
  hw_subfmt : Z;
  w : Z;
  h : Z
}.

Record ra_imgfmt_desc := mk_imgfmt_desc { desc_num_planes : Z }.

(** [struct priv]: the per-mapper state. *)
Record priv := mk_priv {
  num_planes : Z;
  layout : mp_image_params;
  desc : VADRMPRIMESurfaceDescriptor;
  surface_acquired : bool;
  current_image : VAImage;
  buffer_acquired : bool;
  esh_not_implemented : bool
}.

(** [struct mp_hwdec_ctx] and [struct mp_vaapi_ctx], as far as [init]
    touches them. *)
Record mp_hwdec_ctx := mk_hwctx {
  supported_formats : option (list Z);
  driver_name : option string
}.

Record mp_vaapi_ctx := mk_vaapi_ctx {
  av_device_ref : option Z;
  hwctx : mp_hwdec_ctx
}.

(** [struct priv_owner].  A function pointer is modelled by whether it is
    installed; what a call through it answers comes from the environment.
    [formats] is the zero-terminated array, terminator included. *)
Record priv_owner := mk_owner {
  ctx : option mp_vaapi_ctx;
  display : VADisplay;
  formats : option (list Z);
  probing_formats : bool;
  interop_init : bool;
  interop_uninit : bool;
  interop_map : bool;
  interop_map_legacy : bool;
  interop_unmap : bool
}.

(** [struct ra_hwdec_mapper]: [m_owner] is [mapper->owner->priv], [m_priv]
    is [mapper->priv], [m_src] the surface id of [mapper->src]. *)
Record ra_hwdec_mapper := mk_mapper {
  m_owner : priv_owner;
  m_priv : priv;
  m_tex : tex_array;
  m_src : Z;
  src_params : mp_image_params;
  dst_params : mp_image_params
}.

(** ** External calls *)

Inductive interop_backend := vaapi_gl | vaapi_vk.

Inductive event :=
| Msg (lvl : msg_level) (text : string)
| Msg_imgfmt (lvl : msg_level) (text : string) (fmt : Z)
| Call_create_display (name : string)
| Call_interop_backend_init (b : interop_backend)
| Call_va_initialize
| Call_vaTerminate
| Call_va_guess_if_emulated
| Call_hwdec_devices_add (c : mp_hwdec_ctx)
| Call_ra_get_imgfmt_desc (fmt : Z)
| Call_interop_init
| Call_interop_uninit
| Call_check_fmt (fmt : Z)
| Call_ra_hwdec_mapper_create (owner : priv_owner) (params : mp_image_params)
| Call_vaExportSurfaceHandle (surface : Z)
| Call_vaSyncSurface (surface : Z)
| Call_interop_map
| Call_vaDeriveImage (surface : Z)
| Call_vaAcquireBufferHandle (b : Z)
| Call_interop_map_legacy (drm_fmts : list Z)
| Call_interop_unmap
| Call_close (fd : Z)
| Call_vaReleaseBufferHandle (b : Z)
| Call_vaDestroyImage (id : Z).

Abbreviation trace := (list event) (only parsing).

(** ** The monad: state passing plus the trace of external calls *)

Definition M (St A : Type) : Type := St -> A * St * trace.

Definition ret {St A} (a : A) : M St A := fun s => (a, s, []).

Definition bind {St A B} (c : M St A) (k : A -> M St B) : M St B :=
  fun s =>
    let '(a, s1, t1) := c s in
    let '(b, s2, t2) := k a s1 in
    (b, s2, t1 ++ t2).

Definition get {St} : M St St := fun s => (s, s, []).
Definition modify {St} (f : St -> St) : M St unit := fun s => (tt, f s, []).
Definition emit {St} (e : event) : M St unit := fun s => (tt, s, [e]).
Definition when {St} (b : bool) (c : M St unit) : M St unit :=
  if b then c else ret tt.

Declare Scope va_scope.
Delimit Scope va_scope with va.
Notation "x <- c ;; k" := (bind c (fun x => k))
  (at level 61, c at next level, right associativity) : va_scope.
Notation "c ;; k" := (bind c (fun _ => k))
  (at level 61, right associativity) : va_scope.
Local Open Scope va_scope.

Definition result {St A} (r : A * St * trace) : A := fst (fst r).
Definition state_of {St A} (r : A * St * trace) : St := snd (fst r).
Definition trace_of {St A} (r : A * St * trace) : trace := snd r.

(** [for (int n = 0; n < count; n++) body(n)]. *)
Fixpoint for_loop {St} (iters : nat) (n : Z) (body : Z -> M St unit) : M St unit :=
  match iters with
  | O => ret tt
  | S iters' => body n ;; for_loop iters' (n + 1) body
  end.

Definition for_n {St} (count : Z) (body : Z -> M St unit) : M St unit :=
  for_loop (Z.to_nat count) 0 body.

(** [CHECK_VA_STATUS_LEVEL(ctx, msg, level)] (video/vaapi.h): true when
    [status] is [VA_STATUS_SUCCESS], else logs and is false. *)
Definition CHECK_VA_STATUS_LEVEL {St} (status : VAStatus) (msg : string)
    (level : msg_level) : M St bool :=
  if status =? VA_STATUS_SUCCESS then ret true
  else emit (Msg level msg) ;; ret false.

Definition CHECK_VA_STATUS {St} (status : VAStatus) (msg : string) : M St bool :=
  CHECK_VA_STATUS_LEVEL status msg MSGL_ERR.

(** ** Field updates *)

Definition set_surface_acquired (b : bool) (p : priv) : priv :=
  mk_priv (num_planes p) (layout p) (desc p) b (current_image p)
          (buffer_acquired p) (esh_not_implemented p).
Definition set_buffer_acquired (b : bool) (p : priv) : priv :=
  mk_priv (num_planes p) (layout p) (desc p) (surface_acquired p)
          (current_image p) b (esh_not_implemented p).
Definition set_esh_not_implemented (b : bool) (p : priv) : priv :=
  mk_priv (num_planes p) (layout p) (desc p) (surface_acquired p)
          (current_image p) (buffer_acquired p) b.
Definition set_desc (d : VADRMPRIMESurfaceDescriptor) (p : priv) : priv :=
  mk_priv (num_planes p) (layout p) d (surface_acquired p)
          (current_image p) (buffer_acquired p) (esh_not_implemented p).
Definition set_current_image (i : VAImage) (p : priv) : priv :=
  mk_priv (num_planes p) (layout p) (desc p) (surface_acquired p)
          i (buffer_acquired p) (esh_not_implemented p).
Definition set_num_planes (n : Z) (p : priv) : priv :=
  mk_priv n (layout p) (desc p) (surface_acquired p)
          (current_image p) (buffer_acquired p) (esh_not_implemented p).
Definition set_layout (l : mp_image_params) (p : priv) : priv :=
  mk_priv (num_planes p) l (desc p) (surface_acquired p)
          (current_image p) (buffer_acquired p) (esh_not_implemented p).
Definition set_image_id (id : Z) (i : VAImage) : VAImage :=
  mk_image id (buf i) (format_fourcc i).
Definition set_buf (b : Z) (i : VAImage) : VAImage :=
  mk_image (image_id i) b (format_fourcc i).

Definition with_priv (f : priv -> priv) (m : ra_hwdec_mapper) : ra_hwdec_mapper :=
  mk_mapper (m_owner m) (f (m_priv m)) (m_tex m) (m_src m)
            (src_params m) (dst_params m).
Definition with_tex (f : tex_array -> tex_array) (m : ra_hwdec_mapper)
    : ra_hwdec_mapper :=
  mk_mapper (m_owner m) (m_priv m) (f (m_tex m)) (m_src m)
            (src_params m) (dst_params m).
Definition with_dst_params (d : mp_image_params) (m : ra_hwdec_mapper)
    : ra_hwdec_mapper :=
  mk_mapper (m_owner m) (m_priv m) (m_tex m) (m_src m) (src_params m) d.
Definition with_owner (o : priv_owner) (m : ra_hwdec_mapper) : ra_hwdec_mapper :=
  mk_mapper o (m_priv m) (m_tex m) (m_src m) (src_params m) (dst_params m).

(** ** What the external calls of one mapper call answer

    libva writes its out-parameter ([p->desc], [p->current_image]) and
    returns a status; an interop function returns a bool and leaves
    textures in [mapper->tex]. *)
Record mapper_env := mk_env {
  e_ra_get_imgfmt_desc : Z -> option ra_imgfmt_desc;
  e_interop_init : bool * tex_array;
  e_vaExportSurfaceHandle : VAStatus * VADRMPRIMESurfaceDescriptor;
  e_vaSyncSurface : VAStatus;
  e_interop_map : bool * tex_array;
  e_vaDeriveImage : VAStatus * VAImage;
  e_vaAcquireBufferHandle : VAStatus;
  e_interop_map_legacy : bool * tex_array;
  e_interop_unmap : tex_array -> tex_array;
  e_vaReleaseBufferHandle : VAStatus;
  e_vaDestroyImage : VAStatus
}.

(** The same answers, but for the status of [vaSyncSurface]. *)
Definition with_sync_status (status : VAStatus) (env : mapper_env) : mapper_env :=
  mk_env (e_ra_get_imgfmt_desc env) (e_interop_init env) (e_vaExportSurfaceHandle env)
         status (e_interop_map env) (e_vaDeriveImage env) (e_vaAcquireBufferHandle env)
         (e_interop_map_legacy env) (e_interop_unmap env) (e_vaReleaseBufferHandle env)
         (e_vaDestroyImage env).

(** ** mapper_unmap *)

(** [objects[n].fd]. *)
Definition object_fd (d : VADRMPRIMESurfaceDescriptor) (n : Z) : Z :=
  nth (Z.to_nat n) (objects d) (-1).

(** [for (n = 0; n < p->desc.num_objects; n++) close(p->desc.objects[n].fd);] *)
Definition close_objects (d : VADRMPRIMESurfaceDescriptor) : M ra_hwdec_mapper unit :=
  for_n (num_objects d) (fun n => emit (Call_close (object_fd d n))).

(** [n; n + 1; ...], [k] indices: the values the loop counter takes. *)
Fixpoint counter_values (k : nat) (n : Z) : list Z :=
  match k with
  | O => []
  | S k' => n :: counter_values k' (n + 1)
  end.

(** The descriptors of the first [num_objects] objects, in index order. *)
Definition exported_fds (d : VADRMPRIMESurfaceDescriptor) : list Z :=
  map (object_fd d) (counter_values (Z.to_nat (num_objects d)) 0).

(** What [CHECK_VA_STATUS] logs. *)
Definition status_log (status : VAStatus) (msg : string) : trace :=
  if status =? VA_STATUS_SUCCESS then [] else [Msg MSGL_ERR msg].

Definition mapper_unmap (env : mapper_env) : M ra_hwdec_mapper unit :=
  emit Call_interop_unmap ;;
  modify (with_tex (e_interop_unmap env)) ;;
  m <- get ;;
  when (surface_acquired (m_priv m))
       (close_objects (desc (m_priv m)) ;;
        modify (with_priv (set_surface_acquired false))) ;;
  m <- get ;;
  when (buffer_acquired (m_priv m))
       (emit (Call_vaReleaseBufferHandle (buf (current_image (m_priv m)))) ;;
        _ <- CHECK_VA_STATUS (e_vaReleaseBufferHandle env) "vaReleaseBufferHandle()" ;;
        modify (with_priv (set_buffer_acquired false))) ;;
  m <- get ;;
  when (negb (image_id (current_image (m_priv m)) =? VA_INVALID_ID))
       (emit (Call_vaDestroyImage (image_id (current_image (m_priv m)))) ;;
        _ <- CHECK_VA_STATUS (e_vaDestroyImage env) "vaDestroyImage()" ;;
        modify (with_priv (fun p =>
          set_current_image (set_image_id VA_INVALID_ID (current_image p)) p))).

(** ** mapper_uninit, check_fmt, mapper_init *)

Definition mapper_uninit : M ra_hwdec_mapper unit :=
  m <- get ;;
  when (interop_uninit (m_owner m)) (emit Call_interop_uninit).

(** [for (n = 0; formats && formats[n]; n++) if (formats[n] == fmt) return true;] *)
Fixpoint check_fmt_loop (fs : list Z) (fmt : Z) : bool :=
  match fs with
  | [] => false
  | f :: rest =>
      if f =? 0 then false
      else if f =? fmt then true
      else check_fmt_loop rest fmt
  end.

Definition check_fmt (m : ra_hwdec_mapper) (fmt : Z) : bool :=
  match formats (m_owner m) with
  | None => false
  | Some fs => check_fmt_loop fs fmt
  end.

Definition mapper_init (env : mapper_env) : M ra_hwdec_mapper Z :=
  modify (with_priv (fun p =>
    set_current_image
      (set_buf VA_INVALID_ID (set_image_id VA_INVALID_ID (current_image p))) p)) ;;
  m <- get ;;
  modify (with_dst_params
    (mk_params (hw_subfmt (src_params m)) 0 (w (src_params m)) (h (src_params m)))) ;;
  m <- get ;;
  emit (Call_ra_get_imgfmt_desc (imgfmt (dst_params m))) ;;
  match e_ra_get_imgfmt_desc env (imgfmt (dst_params m)) with
  | None => ret (-1)
  | Some d =>
      modify (with_priv (set_num_planes (desc_num_planes d))) ;;
      modify (with_priv (set_layout (dst_params m))) ;;
      init_ok <-
        (if interop_init (m_owner m) then
           emit Call_interop_init ;;
           modify (with_tex (fun _ => snd (e_interop_init env))) ;;
           ret (fst (e_interop_init env))
         else ret true) ;;
      if negb init_ok then ret (-1)
      else
        (* [!p_owner->probing_formats && !check_fmt(...)]: [&&] evaluates
           its right operand only when the left one holds *)
        unsupported <-
          (if negb (probing_formats (m_owner m)) then
             emit (Call_check_fmt (imgfmt (dst_params m))) ;;
             ret (negb (check_fmt m (imgfmt (dst_params m))))
           else ret false) ;;
        if unsupported then
          emit (Msg_imgfmt MSGL_FATAL "unsupported VA image format %s"
                           (imgfmt (dst_params m))) ;;
          ret (-1)
        else ret 0
  end.

(** ** mapper_map *)

(** The table handed to the legacy mapper: DRM format tags indexed by
    bytes per component and component count. *)
Definition drm_fmts : list Z :=
  [ MKTAG 0x52 0x38 0x20 0x20;   (* 'R' '8' ' ' ' '  DRM_FORMAT_R8 *)
    MKTAG 0x47 0x52 0x38 0x38;   (* 'G' 'R' '8' '8'  DRM_FORMAT_GR88 *)
    0;
    0;
    MKTAG 0x52 0x31 0x36 0x20;   (* 'R' '1' '6' ' ' *)
    MKTAG 0x47 0x52 0x33 0x32;   (* 'G' 'R' '3' '2' *)
    0;
    0 ].

(** Label [err]. *)
Definition mapper_map_err : M ra_hwdec_mapper Z :=
  m <- get ;;
  when (negb (probing_formats (m_owner m)))
       (emit (Msg MSGL_FATAL "mapping VAAPI EGL image failed")) ;;
  ret (-1).

(** The code after [#endif]: the legacy derive/acquire strategy. *)
Definition mapper_map_legacy (env : mapper_env) : M ra_hwdec_mapper Z :=
  m <- get ;;
  if interop_map_legacy (m_owner m) then
    emit (Call_vaDeriveImage (m_src m)) ;;
    modify (with_priv (set_current_image (snd (e_vaDeriveImage env)))) ;;
    ok <- CHECK_VA_STATUS (fst (e_vaDeriveImage env)) "vaDeriveImage()" ;;
    if negb ok then mapper_map_err
    else
      m <- get ;;
      emit (Call_vaAcquireBufferHandle (buf (current_image (m_priv m)))) ;;
      ok <- CHECK_VA_STATUS (e_vaAcquireBufferHandle env) "vaAcquireBufferHandle()" ;;
      if negb ok then mapper_map_err
      else
        modify (with_priv (set_buffer_acquired true)) ;;
        emit (Call_interop_map_legacy drm_fmts) ;;
        modify (with_tex (fun _ => snd (e_interop_map_legacy env))) ;;
        if negb (fst (e_interop_map_legacy env)) then mapper_map_err
        else
          m <- get ;;
          when (format_fourcc (current_image (m_priv m)) =? VA_FOURCC_YV12)
               (modify (with_tex (MPSWAP 1 2))) ;;
          ret 0
  else
    mapper_unmap env ;;
    mapper_map_err.

(** Label [esh_failed]. *)
Definition mapper_map_esh_failed (env : mapper_env) : M ra_hwdec_mapper Z :=
  m <- get ;;
  when (surface_acquired (m_priv m))
       (close_objects (desc (m_priv m)) ;;
        modify (with_priv (set_surface_acquired false))) ;;
  mapper_map_legacy env.

Definition mapper_map (env : mapper_env) : M ra_hwdec_mapper Z :=
  m <- get ;;
  if esh_not_implemented (m_priv m) then mapper_map_esh_failed env
  else
    emit (Call_vaExportSurfaceHandle (m_src m)) ;;
    let status := fst (e_vaExportSurfaceHandle env) in
    modify (with_priv (set_desc (snd (e_vaExportSurfaceHandle env)))) ;;
    ok <- CHECK_VA_STATUS_LEVEL status "vaExportSurfaceHandle()"
            (if probing_formats (m_owner m) then MSGL_V else MSGL_ERR) ;;
    if negb ok then
      when (status =? VA_STATUS_ERROR_UNIMPLEMENTED)
           (modify (with_priv (set_esh_not_implemented true))) ;;
      mapper_map_esh_failed env
    else
      (* the result of vaSyncSurface is dropped: [status] still holds the
         export's, so the check that follows passes *)
      emit (Call_vaSyncSurface (m_src m)) ;;
      _ <- CHECK_VA_STATUS status "vaSyncSurface()" ;;
      modify (with_priv (set_surface_acquired true)) ;;
      emit Call_interop_map ;;
      modify (with_tex (fun _ => snd (e_interop_map env))) ;;
      if negb (fst (e_interop_map env)) then mapper_map_esh_failed env
      else
        m <- get ;;
        when (fourcc (desc (m_priv m)) =? VA_FOURCC_YV12)
             (modify (with_tex (MPSWAP 1 2))) ;;
        ret 0.

(** A session over several frames: the calls the renderer makes on one
    mapper, each with what the external world answers during it. *)
Inductive mapper_call :=
| Do_map (env : mapper_env) (surface : Z)
| Do_unmap (env : mapper_env).

Definition with_src (s : Z) (m : ra_hwdec_mapper) : ra_hwdec_mapper :=
  mk_mapper (m_owner m) (m_priv m) (m_tex m) s (src_params m) (dst_params m).

Definition run_call (c : mapper_call) : M ra_hwdec_mapper unit :=
  match c with
  | Do_map env surface => modify (with_src surface) ;; _ <- mapper_map env ;; ret tt
  | Do_unmap env => mapper_unmap env
  end.

Fixpoint run_calls (cs : list mapper_call) : M ra_hwdec_mapper unit :=
  match cs with
  | [] => ret tt
  | c :: rest => run_call c ;; run_calls rest
  end.

Definition is_export (e : event) : bool :=
  match e with Call_vaExportSurfaceHandle _ => true | _ => false end.

(** A native release: a closed descriptor, a released buffer handle, a
    destroyed image. *)
Definition is_native_release (e : event) : bool :=
  match e with
  | Call_close _ | Call_vaReleaseBufferHandle _ | Call_vaDestroyImage _ => true
  | _ => false
  end.

(** ** Native display acquisition *)

(** Build flags of config.h. *)
Record build_config := mk_config {
  HAVE_VAAPI_X11 : bool;
  HAVE_VAAPI_WAYLAND : bool;
  HAVE_VAAPI_DRM : bool;
  HAVE_GL : bool;
  HAVE_VULKAN : bool
}.

(** A native resource of the renderer: the pointer registered under a name
    and, for ["drm_params"], the [render_fd] field it points to. *)
Record native_resource := mk_native {
  res_ptr : Z;
  render_fd : Z
}.

(** The renderer's keyed lookup and libva's display constructors. *)
Record display_env := mk_display_env {
  ra_get_native_resource : string -> option native_resource;
  vaGetDisplay : Z -> VADisplay;
  vaGetDisplayWl : Z -> VADisplay;
  vaGetDisplayDRM : Z -> VADisplay
}.

Definition create_x11_va_display (ra : display_env) : VADisplay :=
  match ra_get_native_resource ra "x11" with
  | Some x11 => vaGetDisplay ra (res_ptr x11)
  | None => None
  end.

Definition create_wayland_va_display (ra : display_env) : VADisplay :=
  match ra_get_native_resource ra "wl" with
  | Some wl => vaGetDisplayWl ra (res_ptr wl)
  | None => None
  end.

Definition create_drm_va_display (ra : display_env) : VADisplay :=
  match ra_get_native_resource ra "drm_params" with
  | None => None
  | Some params =>
      if render_fd params <? 0 then None
      else vaGetDisplayDRM ra (render_fd params)
  end.

Record va_create_native := mk_create_native {
  name : string;
  create : display_env -> VADisplay
}.

Definition create_native_cbs (cfg : build_config) : list va_create_native :=
  (if HAVE_VAAPI_X11 cfg then [mk_create_native "x11" create_x11_va_display] else [])
  ++ (if HAVE_VAAPI_WAYLAND cfg
      then [mk_create_native "wayland" create_wayland_va_display] else [])
  ++ (if HAVE_VAAPI_DRM cfg then [mk_create_native "drm" create_drm_va_display] else []).

(** The loop of [create_native_va_display] over the rest of the table. *)
Fixpoint create_native_va_display_from {St} (cbs : list va_create_native)
    (ra : display_env) : M St VADisplay :=
  match cbs with
  | [] => ret None
  | disp :: rest =>
      emit (Msg MSGL_V ("Trying to open a " ++ name disp ++ " VA display...")%string) ;;
      emit (Call_create_display (name disp)) ;;
      match create disp ra with
      | Some d => ret (Some d)
      | None => create_native_va_display_from rest ra
      end
  end.

Definition create_native_va_display {St} (cfg : build_config) (ra : display_env)
    : M St VADisplay :=
  create_native_va_display_from (create_native_cbs cfg) ra.

(** ** Format probing *)

(** [struct ra_hwdec]: [hw_priv] is [hw->priv], [hw_devs] the renderer's
    device registry, [hw_probing] is [hw->probing]. *)
Record ra_hwdec := mk_hwdec {
  hw_priv : priv_owner;
  hw_probing : bool;
  hw_devs : list mp_hwdec_ctx
}.

Definition with_hw_priv (f : priv_owner -> priv_owner) (hw : ra_hwdec) : ra_hwdec :=
  mk_hwdec (f (hw_priv hw)) (hw_probing hw) (hw_devs hw).

Definition set_ctx (c : option mp_vaapi_ctx) (p : priv_owner) : priv_owner :=
  mk_owner c (display p) (formats p) (probing_formats p) (interop_init p)
           (interop_uninit p) (interop_map p) (interop_map_legacy p) (interop_unmap p).
Definition set_display (d : VADisplay) (p : priv_owner) : priv_owner :=
  mk_owner (ctx p) d (formats p) (probing_formats p) (interop_init p)
           (interop_uninit p) (interop_map p) (interop_map_legacy p) (interop_unmap p).
Definition set_formats (f : option (list Z)) (p : priv_owner) : priv_owner :=
  mk_owner (ctx p) (display p) f (probing_formats p) (interop_init p)
           (interop_uninit p) (interop_map p) (interop_map_legacy p) (interop_unmap p).
Definition set_probing_formats (b : bool) (p : priv_owner) : priv_owner :=
  mk_owner (ctx p) (display p) (formats p) b (interop_init p)
           (interop_uninit p) (interop_map p) (interop_map_legacy p) (interop_unmap p).

(** What libavutil and the mapper answer for one candidate format. *)
Record probe_outcome := mk_outcome {
  o_av_hwframe_ctx_alloc : bool;                      (* fref != NULL *)
  o_av_hwframe_ctx_init : Z;
  o_av_frame_alloc : bool;                            (* frame != NULL *)
  o_av_hwframe_get_buffer : Z;
  o_mp_image_from_av_frame : option mp_image_params;  (* s, with s->params *)
  o_mp_image_params_valid : bool;
  o_ra_hwdec_mapper_create : bool;                    (* mapper != NULL *)
  o_ra_hwdec_mapper_map : Z
}.

(** [p_constraints] is [fc], with [fc->valid_sw_formats] as reported;
    [p_outcome n f] is what candidate number [n], of format [f], meets. *)
Record probe_env := mk_probe_env {
  p_constraints : option (list Z);
  p_outcome : nat -> Z -> probe_outcome
}.

Definition try_format (o : probe_outcome) : bool :=
  let ok := false in
  if o_ra_hwdec_mapper_create o then o_ra_hwdec_mapper_map o >=? 0 else ok.

(** One turn of the loop body, as a function of what the calls answer: the
    identifier it appends, if any. *)
Definition probe_candidate (o : probe_outcome) : option Z :=
  if negb (o_av_hwframe_ctx_alloc o) then None
  else if o_av_hwframe_ctx_init o <? 0 then None
  else if negb (o_av_frame_alloc o) then None
  else if o_av_hwframe_get_buffer o <? 0 then None
  else match o_mp_image_from_av_frame o with
       | None => None
       | Some params =>
           if negb (o_mp_image_params_valid o) then None
           else if try_format o then Some (hw_subfmt params)
           else None
       end.

(** The loop body as it runs: every [goto err] yields nothing, and
    [try_format(hw, s)] hands [hw] to [ra_hwdec_mapper_create], which finds
    [hw->priv] as it is at that moment.  The value is [probe_candidate]'s. *)
Definition probe_trial (o : probe_outcome) : M ra_hwdec (option Z) :=
  if negb (o_av_hwframe_ctx_alloc o) then ret None
  else if o_av_hwframe_ctx_init o <? 0 then ret None
  else if negb (o_av_frame_alloc o) then ret None
  else if o_av_hwframe_get_buffer o <? 0 then ret None
  else match o_mp_image_from_av_frame o with
       | None => ret None
       | Some params =>
           if negb (o_mp_image_params_valid o) then ret None
           else
             hw <- get ;;
             emit (Call_ra_hwdec_mapper_create (hw_priv hw) params) ;;
             if try_format o then ret (Some (hw_subfmt params))
             else ret None
       end.

(** [for (n = 0; fc->valid_sw_formats[n] != AV_PIX_FMT_NONE; n++)], with
    [MP_TARRAY_APPEND] as appending to [fmts]. *)
Fixpoint probe_loop (env : probe_env) (sw_formats : list Z) (n : nat)
    (fmts : list Z) : M ra_hwdec (list Z) :=
  match sw_formats with
  | [] => ret fmts
  | f :: rest =>
      if f =? AV_PIX_FMT_NONE then ret fmts
      else
        r <- probe_trial (p_outcome env n f) ;;
        let fmts :=
          match r with
          | Some fmt => fmts ++ [fmt]
          | None => fmts
          end in
        probe_loop env rest (S n) fmts
  end.

(** [formats[n]] of a zero-terminated array. *)
Definition fmt_at (fs : list Z) (n : nat) : Z := nth n fs 0.

(** The entries before the terminator. *)
Fixpoint real_entries (fs : list Z) : list Z :=
  match fs with
  | [] => []
  | f :: rest => if f =? 0 then [] else f :: real_entries rest
  end.

(** [for (n = 0; formats[n]; n++) MP_VERBOSE(hw, " %s\n", ...);] *)
Fixpoint log_formats {St} (fs : list Z) : M St unit :=
  match fs with
  | [] => ret tt
  | f :: rest =>
      if f =? 0 then ret tt
      else emit (Msg_imgfmt MSGL_V " %s" f) ;; log_formats rest
  end.

Definition determine_working_formats (env : probe_env) : M ra_hwdec unit :=
  modify (with_hw_priv (set_probing_formats true)) ;;
  fmts <-
    match p_constraints env with
    | None =>
        emit (Msg MSGL_WARN "failed to retrieve libavutil frame constraints") ;;
        ret []
    | Some valid_sw_formats => probe_loop env valid_sw_formats 0 []
    end ;;
  (* done: *)
  let fmts := fmts ++ [0] in
  modify (with_hw_priv (set_formats (Some fmts))) ;;
  modify (with_hw_priv (set_probing_formats false)) ;;
  emit (Msg MSGL_V "Supported formats:") ;;
  log_formats fmts.

(** ** init *)

Definition interop_inits (cfg : build_config) : list (option interop_backend) :=
  (if HAVE_GL cfg then [Some vaapi_gl] else [])
  ++ (if HAVE_VULKAN cfg then [Some vaapi_vk] else [])
  ++ [None].

(** What the external world answers during [init]: [i_interop_init b p] is
    the result of the backend initialiser and the owner state it leaves. *)
Record init_env := mk_init_env {
  i_interop_init : interop_backend -> priv_owner -> bool * priv_owner;
  i_display : display_env;
  i_va_initialize : option mp_vaapi_ctx;
  i_va_guess_if_emulated : bool;
  i_probe : probe_env
}.

(** [for (i = 0; interop_inits[i]; i++) if (interop_inits[i](hw)) break;] *)
Fixpoint init_interop_loop (env : init_env) (inits : list (option interop_backend))
    : M ra_hwdec unit :=
  match inits with
  | Some b :: rest =>
      hw <- get ;;
      emit (Call_interop_backend_init b) ;;
      modify (with_hw_priv (fun _ => snd (i_interop_init env b (hw_priv hw)))) ;;
      if fst (i_interop_init env b (hw_priv hw)) then ret tt
      else init_interop_loop env rest
  | _ => ret tt
  end.

Definition driver_name_vaegl : string := "vaapi-egl".

Definition set_hwctx (fs : option (list Z)) (c : mp_vaapi_ctx) : mp_vaapi_ctx :=
  mk_vaapi_ctx (av_device_ref c) (mk_hwctx fs (Some driver_name_vaegl)).

Definition hwdec_devices_add (c : mp_hwdec_ctx) (hw : ra_hwdec) : ra_hwdec :=
  mk_hwdec (hw_priv hw) (hw_probing hw) (hw_devs hw ++ [c]).

Definition init (cfg : build_config) (env : init_env) : M ra_hwdec Z :=
  init_interop_loop env (interop_inits cfg) ;;
  hw <- get ;;
  if negb (interop_map (hw_priv hw)) || negb (interop_unmap (hw_priv hw)) then
    emit (Msg MSGL_V "VAAPI hwdec only works with OpenGL or Vulkan backends.") ;;
    ret (-1)
  else
    d <- create_native_va_display cfg (i_display env) ;;
    modify (with_hw_priv (set_display d)) ;;
    match d with
    | None => emit (Msg MSGL_V "Could not create a VA display.") ;; ret (-1)
    | Some _ =>
        emit Call_va_initialize ;;
        modify (with_hw_priv (set_ctx (i_va_initialize env))) ;;
        match i_va_initialize env with
        | None => emit Call_vaTerminate ;; ret (-1)
        | Some c =>
            match av_device_ref c with
            | None =>
                emit (Msg MSGL_V "libavutil vaapi code rejected the driver?") ;;
                ret (-1)
            | Some _ =>
                emulated <-
                  (if hw_probing hw then
                     emit Call_va_guess_if_emulated ;;
                     ret (i_va_guess_if_emulated env)
                   else ret false) ;;
                if emulated then ret (-1)
                else
                  determine_working_formats (i_probe env) ;;
                  hw <- get ;;
                  match formats (hw_priv hw) with
                  | None => ret (-1)
                  | Some fs =>
                      if fmt_at fs 0 =? 0 then ret (-1)
                      else
                        modify (with_hw_priv (set_ctx (Some (set_hwctx (Some fs) c)))) ;;
                        emit (Call_hwdec_devices_add (hwctx (set_hwctx (Some fs) c))) ;;
                        modify (hwdec_devices_add (hwctx (set_hwctx (Some fs) c))) ;;
                        ret 0
                  end
            end
        end
    end.

(** The export strategy's calls: export, sync, and the backend's import. *)
Definition is_export_path (e : event) : bool :=
  match e with
  | Call_vaExportSurfaceHandle _ | Call_vaSyncSurface _ | Call_interop_map => true
  | _ => false
  end.

(** An unmapped session: nothing acquired, no derived image. *)
Definition unmapped (p : priv) : bool :=
  negb (surface_acquired p) && negb (buffer_acquired p)
  && (image_id (current_image p) =? VA_INVALID_ID).

(** Whether a [mapper_map] call goes through the export strategy to the
    end: export attempted and successful, backend import successful. *)
Definition export_path_taken (env : mapper_env) (m : ra_hwdec_mapper) : bool :=
  negb (esh_not_implemented (m_priv m))
  && (fst (e_vaExportSurfaceHandle env) =? VA_STATUS_SUCCESS)
  && fst (e_interop_map env).

(** ** What probing collects, and who reads it *)

(** The identifiers of the candidates that pass, in the driver's order. *)
Fixpoint passed_from (env : probe_env) (sw_formats : list Z) (n : nat) : list Z :=
  match sw_formats with
  | [] => []
  | f :: rest =>
      if f =? AV_PIX_FMT_NONE then []
      else match probe_candidate (p_outcome env n f) with
           | Some fmt => fmt :: passed_from env rest (S n)
           | None => passed_from env rest (S n)
           end
  end.

Definition candidates_passed (env : probe_env) : list Z :=
  match p_constraints env with
  | None => []
  | Some valid_sw_formats => passed_from env valid_sw_formats 0
  end.

(** Candidate number [n] of the driver's list passes, with identifier
    [fmt]: it is listed before [AV_PIX_FMT_NONE], the frames context is
    allocated and initialised, a frame is allocated and given a buffer, the
    image built from it has valid parameters and carries [fmt], and the
    mapper is created and maps it. *)
Definition candidate_passes (env : probe_env) (n : nat) (fmt : Z) : Prop :=
  exists sw f params,
    p_constraints env = Some sw
    /\ nth_error sw n = Some f
    /\ Forall (fun g => g <> AV_PIX_FMT_NONE) (firstn (S n) sw)
    /\ o_av_hwframe_ctx_alloc (p_outcome env n f) = true
    /\ 0 <= o_av_hwframe_ctx_init (p_outcome env n f)
    /\ o_av_frame_alloc (p_outcome env n f) = true
    /\ 0 <= o_av_hwframe_get_buffer (p_outcome env n f)
    /\ o_mp_image_from_av_frame (p_outcome env n f) = Some params
    /\ hw_subfmt params = fmt
    /\ o_mp_image_params_valid (p_outcome env n f) = true
    /\ o_ra_hwdec_mapper_create (p_outcome env n f) = true
    /\ 0 <= o_ra_hwdec_mapper_map (p_outcome env n f).

(** The supported-format list as its readers see it: the entries of
    [p->formats] before the terminator. *)
Definition supported_list (p : priv_owner) : list Z :=
  match formats p with
  | None => []
  | Some fs => real_entries fs
  end.

Definition is_check_fmt (e : event) : bool :=
  match e with Call_check_fmt _ => true | _ => false end.

Definition is_devices_add (e : event) : bool :=
  match e with Call_hwdec_devices_add _ => true | _ => false end.

Definition is_create_display (e : event) : bool :=
  match e with Call_create_display _ => true | _ => false end.

(** Whether [mapper_init] gets as far as the format check: the renderer
    describes the format, and the backend's per-mapper init, if there is
    one, succeeds. *)
Definition reaches_format_check (env : mapper_env) (m : ra_hwdec_mapper) : bool :=
  match e_ra_get_imgfmt_desc env (hw_subfmt (src_params m)) with
  | None => false
  | Some _ => negb (interop_init (m_owner m)) || fst (e_interop_init env)
  end.

(** ** Sample sessions and environments *)

(** A 128x128 hardware surface whose software format has identifier 1003. *)
Definition sample_params : mp_image_params := mk_params 44 1003 128 128.
Definition no_image : VAImage := mk_image VA_INVALID_ID VA_INVALID_ID 0.
Definition no_tex : tex_array := mk_tex None None None None.

(** A [struct priv] as talloc hands it out (zeroed) and [mapper_init]
    leaves it. *)
Definition fresh_priv : priv :=
  mk_priv 0 (mk_params 0 0 0 0) (mk_desc 0 0 []) false no_image false false.

(** An owner after a successful [init], with or without a legacy mapper. *)
Definition ready_owner (legacy : bool) : priv_owner :=
  mk_owner (Some (mk_vaapi_ctx (Some 1) (mk_hwctx (Some [1003; 0]) (Some "vaapi-egl"))))
           (Some 1) (Some [1003; 0]) false true true true legacy true.

Definition fresh_mapper (legacy : bool) : ra_hwdec_mapper :=
  mk_mapper (ready_owner legacy) fresh_priv no_tex 7 sample_params sample_params.

Definition describes_planar (fmt : Z) : option ra_imgfmt_desc :=
  if fmt =? 1003 then Some (mk_imgfmt_desc 3) else None.

(** Everything succeeds; the surface is YV12, exported as two objects. *)
Definition env_all_ok : mapper_env :=
  mk_env describes_planar (true, no_tex)
         (VA_STATUS_SUCCESS, mk_desc VA_FOURCC_YV12 2 [10; 11]) VA_STATUS_SUCCESS
         (true, mk_tex (Some 1) (Some 2) (Some 3) None)
         (VA_STATUS_SUCCESS, mk_image 5 6 VA_FOURCC_YV12) VA_STATUS_SUCCESS
         (true, mk_tex (Some 4) (Some 5) (Some 6) None)
         (fun _ => no_tex) VA_STATUS_SUCCESS VA_STATUS_SUCCESS.

(** The driver does not implement export; the legacy strategy works. *)
Definition env_export_unimplemented : mapper_env :=
  mk_env describes_planar (true, no_tex)
         (VA_STATUS_ERROR_UNIMPLEMENTED, mk_desc 0 0 []) VA_STATUS_SUCCESS
         (true, mk_tex (Some 1) (Some 2) (Some 3) None)
         (VA_STATUS_SUCCESS, mk_image 5 6 VA_FOURCC_YV12) VA_STATUS_SUCCESS
         (true, mk_tex (Some 4) (Some 5) (Some 6) None)
         (fun _ => no_tex) VA_STATUS_SUCCESS VA_STATUS_SUCCESS.

(** Export is not implemented, the image is derived and its buffer handle
    acquired, and then the backend's legacy import fails. *)
Definition env_legacy_import_fails : mapper_env :=
  mk_env describes_planar (true, no_tex)
         (VA_STATUS_ERROR_UNIMPLEMENTED, mk_desc 0 0 []) VA_STATUS_SUCCESS
         (true, mk_tex (Some 1) (Some 2) (Some 3) None)
         (VA_STATUS_SUCCESS, mk_image 5 6 VA_FOURCC_YV12) VA_STATUS_SUCCESS
         (false, no_tex)
         (fun _ => no_tex) VA_STATUS_SUCCESS VA_STATUS_SUCCESS.

(** The backend's per-mapper init fails. *)
Definition env_interop_init_fails : mapper_env :=
  mk_env describes_planar (false, no_tex)
         (VA_STATUS_SUCCESS, mk_desc VA_FOURCC_YV12 2 [10; 11]) VA_STATUS_SUCCESS
         (true, mk_tex (Some 1) (Some 2) (Some 3) None)
         (VA_STATUS_SUCCESS, mk_image 5 6 VA_FOURCC_YV12) VA_STATUS_SUCCESS
         (true, mk_tex (Some 4) (Some 5) (Some 6) None)
         (fun _ => no_tex) VA_STATUS_SUCCESS VA_STATUS_SUCCESS.

(** A session whose export flag is already set. *)
Definition downgraded_mapper : ra_hwdec_mapper :=
  with_priv (set_esh_not_implemented true) (fresh_mapper true).

(** A mapper created while the owner is probing. *)
Definition probing_mapper : ra_hwdec_mapper :=
  with_owner (set_probing_formats true (ready_owner true)) (fresh_mapper true).

(** A candidate that allocates, maps, and is reported as format [1003]. *)
Definition outcome_pass : probe_outcome :=
  mk_outcome true 0 true 0 (Some sample_params) true true 0.

(** A candidate whose trial mapping fails. *)
Definition outcome_map_fails : probe_outcome :=
  mk_outcome true 0 true 0 (Some sample_params) true true (-1).

(** The driver lists the same pixel format twice (as for two fourccs of one
    layout); both trials pass. *)
Definition probe_env_twice : probe_env :=
  mk_probe_env (Some [0; 0; AV_PIX_FMT_NONE]) (fun _ _ => outcome_pass).

(** The driver lists one pixel format, which passes. *)
Definition probe_env_one : probe_env :=
  mk_probe_env (Some [0; AV_PIX_FMT_NONE]) (fun _ _ => outcome_pass).

(** The driver lists two pixel formats; neither maps. *)
Definition probe_env_none : probe_env :=
  mk_probe_env (Some [0; 23; AV_PIX_FMT_NONE]) (fun _ _ => outcome_map_fails).

Definition blank_owner : priv_owner :=
  mk_owner None None None false false false false false false.

Definition blank_hwdec : ra_hwdec := mk_hwdec blank_owner false [].

(** A build with every backend, and a renderer that has only a Wayland
    display to offer. *)
Definition config_all : build_config := mk_config true true true true true.

Definition ra_wayland_only : display_env :=
  mk_display_env (fun key => if String.eqb key "wl" then Some (mk_native 100 (-1)) else None)
                 (fun _ => Some 1) (fun _ => Some 2) (fun _ => Some 3).

(** The GL initialiser declines; the Vulkan one installs map and unmap. *)
Definition backend_vk_only (b : interop_backend) (p : priv_owner) : bool * priv_owner :=
  match b with
  | vaapi_gl => (false, p)
  | vaapi_vk =>
      (true, mk_owner (ctx p) (display p) (formats p) (probing_formats p)
                      false false true false true)
  end.

(** An initialiser that reports success but installs no unmap function. *)
Definition backend_without_unmap (b : interop_backend) (p : priv_owner)
    : bool * priv_owner :=
  (true, mk_owner (ctx p) (display p) (formats p) (probing_formats p)
                  false false true false false).

Definition sample_ctx : mp_vaapi_ctx := mk_vaapi_ctx (Some 1) (mk_hwctx None None).

Definition init_env_no_formats : init_env :=
  mk_init_env backend_vk_only ra_wayland_only (Some sample_ctx) false probe_env_none.

Definition init_env_one_format : init_env :=
  mk_init_env backend_vk_only ra_wayland_only (Some sample_ctx) false probe_env_one.

Definition init_env_without_unmap : init_env :=
  mk_init_env backend_without_unmap ra_wayland_only (Some sample_ctx) false probe_env_one.

(** The device as [init] has it when it calls [determine_working_formats]:
    map and unmap installed, the display open, the context created with its
    device reference, no format array yet. *)
Definition probing_hwdec : ra_hwdec :=
  mk_hwdec (mk_owner (Some sample_ctx) (Some 2) None false false false true false true)
           false [].

(** A candidate that allocates, maps, and is reported as format [1005]. *)
Definition outcome_pass_other : probe_outcome :=
  mk_outcome true 0 true 0 (Some (mk_params 44 1005 128 128)) true true 0.

(** The driver lists two pixel formats, reported as [1003] and [1005]; both
    pass. *)
Definition probe_env_two : probe_env :=
  mk_probe_env (Some [0; 23; AV_PIX_FMT_NONE])
               (fun _ f => if f =? 23 then outcome_pass_other else outcome_pass).

(** ** uninit *)

(** The calls [uninit] makes, in order.  The registry's removal compares
    pointers, so it is kept as a call on the context's [hwctx]. *)
Inductive teardown_call :=
| Call_hwdec_devices_remove (c : mp_hwdec_ctx)
| Call_va_destroy (c : option mp_vaapi_ctx).

Definition uninit (hw : ra_hwdec) : list teardown_call :=
  let p := hw_priv hw in
  (match ctx p with
   | Some c => [Call_hwdec_devices_remove (hwctx c)]
   | None => []
   end)
  ++ [Call_va_destroy (ctx p)].

(** ** Frames: what one map/unmap pair acquires and releases *)

Definition is_fatal (e : event) : bool :=
  match e with
  | Msg MSGL_FATAL _ | Msg_imgfmt MSGL_FATAL _ _ => true
  | _ => false
  end.

Definition is_terminate (e : event) : bool :=
  match e with Call_vaTerminate => true | _ => false end.

Definition is_guess_if_emulated (e : event) : bool :=
  match e with Call_va_guess_if_emulated => true | _ => false end.

Definition is_va_initialize (e : event) : bool :=
  match e with Call_va_initialize => true | _ => false end.

(** Whether a [mapper_map] call exports the surface: the export is
    attempted and the driver answers success. *)
Definition surface_exported (env : mapper_env) (m : ra_hwdec_mapper) : bool :=
  negb (esh_not_implemented (m_priv m))
  && (fst (e_vaExportSurfaceHandle env) =? VA_STATUS_SUCCESS).

(** Whether a [mapper_map] call runs the legacy derive/acquire code. *)
Definition legacy_attempted (env : mapper_env) (m : ra_hwdec_mapper) : bool :=
  negb (export_path_taken env m) && interop_map_legacy (m_owner m).

(** Whether it gets the buffer handle. *)
Definition buffer_handle_acquired (env : mapper_env) (m : ra_hwdec_mapper) : bool :=
  legacy_attempted env m
  && (fst (e_vaDeriveImage env) =? VA_STATUS_SUCCESS)
  && (e_vaAcquireBufferHandle env =? VA_STATUS_SUCCESS).

(** One decoded frame: what the world answers during the map, the surface,
    and what it answers during the unmap. *)
Record frame := mk_frame {
  fr_map : mapper_env;
  fr_surface : Z;
  fr_unmap : mapper_env
}.

Definition frame_calls (f : frame) : list mapper_call :=
  [Do_map (fr_map f) (fr_surface f); Do_unmap (fr_unmap f)].

(** The native resources one frame takes from the driver, as the releases
    that give them back: the exported descriptors, the buffer handle, the
    derived image. *)
Definition frame_releases (f : frame) (m : ra_hwdec_mapper) : list event :=
  let env := fr_map f in
  let img := snd (e_vaDeriveImage env) in
  (if surface_exported env m
   then map Call_close (exported_fds (snd (e_vaExportSurfaceHandle env))) else [])
  ++ (if buffer_handle_acquired env m then [Call_vaReleaseBufferHandle (buf img)] else [])
  ++ (if legacy_attempted env m && negb (image_id img =? VA_INVALID_ID)
      then [Call_vaDestroyImage (image_id img)] else []).

(** The releases due over a run of frames, the session evolving. *)
Fixpoint frames_releases (fs : list frame) (m : ra_hwdec_mapper) : list event :=
  match fs with
  | [] => []
  | f :: rest =>
      frame_releases f (with_src (fr_surface f) m)
      ++ frames_releases rest (state_of (run_calls (frame_calls f) m))
  end.

(** Two frames: one that the export strategy delivers, one whose export is
    not implemented and whose legacy import fails. *)
Definition sample_frames : list frame :=
  [mk_frame env_all_ok 7 env_all_ok; mk_frame env_legacy_import_fails 8 env_all_ok].

(** ** The outcome of init *)

(** The calls of [init] on the device itself. *)
Definition is_init_core (e : event) : bool :=
  match e with
  | Call_va_initialize | Call_vaTerminate | Call_va_guess_if_emulated
  | Call_hwdec_devices_add _ => true
  | _ => false
  end.

(** The display the providers yield (it does not depend on the state). *)
Definition selected_display (cfg : build_config) (env : init_env) : VADisplay :=
  result (create_native_va_display cfg (i_display env) tt).

(** The owner as the backend selection leaves it. *)
Definition selected_owner (cfg : build_config) (env : init_env) (hw : ra_hwdec)
    : priv_owner :=
  hw_priv (state_of (init_interop_loop env (interop_inits cfg) hw)).

Definition backend_ready (p : priv_owner) : bool :=
  interop_map p && interop_unmap p.

(** The usable device context, if [va_initialize] yields one. *)
Definition usable_ctx (env : init_env) : option mp_vaapi_ctx :=
  match i_va_initialize env with
  | Some c => match av_device_ref c with Some _ => Some c | None => None end
  | None => None
  end.

(** Every condition [init] tests, in the order it tests them. *)
Definition init_succeeds (cfg : build_config) (env : init_env) (hw : ra_hwdec) : bool :=
  backend_ready (selected_owner cfg env hw)
  && match selected_display cfg env with Some _ => true | None => false end
  && match usable_ctx env with Some _ => true | None => false end
  && negb (hw_probing hw && i_va_guess_if_emulated env)
  && negb (fmt_at (candidates_passed (i_probe env) ++ [0]) 0 =? 0).

(** A renderer with no native resource at all, and one whose DRM render
    node is not open. *)
Definition ra_no_resources : display_env :=
  mk_display_env (fun _ => None) (fun _ => Some 1) (fun _ => Some 2) (fun _ => Some 3).

Definition ra_drm_closed : display_env :=
  mk_display_env (fun key => if String.eqb key "drm_params"
                             then Some (mk_native 200 (-1)) else None)
                 (fun _ => Some 1) (fun _ => Some 2) (fun _ => Some 3).

Definition init_env_no_display : init_env :=
  mk_init_env backend_vk_only ra_drm_closed (Some sample_ctx) false probe_env_one.

(** [va_initialize] yields a context that libavutil rejected. *)
Definition init_env_rejected : init_env :=
  mk_init_env backend_vk_only ra_wayland_only
              (Some (mk_vaapi_ctx None (mk_hwctx None None))) false probe_env_one.

(** The driver gives no frame constraints. *)
Definition probe_env_no_constraints : probe_env :=
  mk_probe_env None (fun _ _ => outcome_pass).

Definition init_env_no_constraints : init_env :=
  mk_init_env backend_vk_only ra_wayland_only (Some sample_ctx) false
              probe_env_no_constraints.

(** A build with no renderer backend. *)
Definition config_no_backend : build_config := mk_config true true true false false.

(** ** The calls of one mapper_map, in order *)

(** What label [err] logs. *)
Definition err_log (o : priv_owner) : list event :=
  if probing_formats o then [] else [Msg MSGL_FATAL "mapping VAAPI EGL image failed"].

(** Whether the legacy strategy, when it runs, succeeds. *)
Definition legacy_succeeds (env : mapper_env) (o : priv_owner) : bool :=
  interop_map_legacy o
  && (fst (e_vaDeriveImage env) =? VA_STATUS_SUCCESS)
  && (e_vaAcquireBufferHandle env =? VA_STATUS_SUCCESS)
  && fst (e_interop_map_legacy env).

(** The calls and messages of the legacy strategy on an unmapped session. *)
Definition legacy_trace (env : mapper_env) (o : priv_owner) (surface : Z) : list event :=
  if interop_map_legacy o then
    Call_vaDeriveImage surface
    :: status_log (fst (e_vaDeriveImage env)) "vaDeriveImage()"
    ++ (if fst (e_vaDeriveImage env) =? VA_STATUS_SUCCESS then
          Call_vaAcquireBufferHandle (buf (snd (e_vaDeriveImage env)))
          :: status_log (e_vaAcquireBufferHandle env) "vaAcquireBufferHandle()"
          ++ (if e_vaAcquireBufferHandle env =? VA_STATUS_SUCCESS then
                Call_interop_map_legacy drm_fmts
                :: (if fst (e_interop_map_legacy env) then [] else err_log o)
              else err_log o)
        else err_log o)
  else Call_interop_unmap :: err_log o.

(** The calls and messages of [mapper_map] on an unmapped session. *)
Definition map_trace (env : mapper_env) (m : ra_hwdec_mapper) : list event :=
  let o := m_owner m in
  let surface := m_src m in
  if esh_not_implemented (m_priv m) then legacy_trace env o surface
  else
    Call_vaExportSurfaceHandle surface
    :: (if fst (e_vaExportSurfaceHandle env) =? VA_STATUS_SUCCESS then
          Call_vaSyncSurface surface :: Call_interop_map
          :: (if fst (e_interop_map env) then []
              else map Call_close (exported_fds (snd (e_vaExportSurfaceHandle env)))
                   ++ legacy_trace env o surface)
        else
          Msg (if probing_formats o then MSGL_V else MSGL_ERR) "vaExportSurfaceHandle()"
          :: legacy_trace env o surface).

(** * Proofs *)

(** ** Running the monad *)

Lemma bind_emit {St B} (e : event) (k : M St B) (s : St) :
  (emit e ;; k) s = let '(b, s2, t2) := k s in (b, s2, e :: t2).
Proof. reflexivity. Qed.

Lemma for_loop_emit {St} (g : Z -> event) (k : nat) (n : Z) (s : St) :
  for_loop k n (fun i => emit (g i)) s = (tt, s, map g (counter_values k n)).
Proof.
  revert n. induction k as [|k IH]; intros n; [reflexivity|].
  cbn [for_loop counter_values map]. unfold bind. cbv beta.
  change (emit (g n) s) with (tt, s, [g n]). cbv beta iota zeta.
  rewrite IH. reflexivity.
Qed.

Lemma close_objects_run (d : VADRMPRIMESurfaceDescriptor) (m : ra_hwdec_mapper) :
  close_objects d m = (tt, m, map Call_close (exported_fds d)).
Proof.
  unfold close_objects, for_n, exported_fds.
  rewrite (for_loop_emit (fun n => Call_close (object_fd d n))).
  now rewrite map_map.
Qed.

Lemma counter_values_nth (l : list Z) (k : nat) :
  map (fun n => nth (Z.to_nat n) l (-1)) (counter_values (length (skipn k l)) (Z.of_nat k))
  = skipn k l.
Proof.
  remember (length (skipn k l)) as len eqn:Hlen.
  revert k Hlen. induction len as [|len IH]; intros k Hlen.
  - symmetry in Hlen. apply length_zero_iff_nil in Hlen. now rewrite Hlen.
  - cbn [counter_values map]. rewrite Nat2Z.id.
    destruct (skipn k l) as [|x rest] eqn:Hs; [discriminate|].
    assert (Hx : nth k l (-1) = x).
    { rewrite <- (firstn_skipn k l) at 1.
      assert (Hk : (k < length l)%nat).
      { destruct (Nat.lt_ge_cases k (length l)) as [H|H]; [exact H|].
        rewrite skipn_all2 in Hs by exact H. discriminate. }
      rewrite app_nth2; rewrite length_firstn, Nat.min_l by lia; [|lia].
      rewrite Nat.sub_diag, Hs. reflexivity. }
    assert (Hrest : skipn (S k) l = rest).
    { change (S k) with (1 + k)%nat. rewrite <- skipn_skipn, Hs. reflexivity. }
    rewrite Hx. f_equal.
    replace (Z.of_nat k + 1) with (Z.of_nat (S k)) by lia.
    rewrite <- Hrest. apply IH. rewrite Hrest. cbn in Hlen. congruence.
Qed.

(** When [num_objects] counts the objects, the loop closes each object's
    descriptor once, in order. *)
Lemma exported_fds_all (d : VADRMPRIMESurfaceDescriptor) :
  num_objects d = Z.of_nat (length (objects d)) -> exported_fds d = objects d.
Proof.
  intros H. unfold exported_fds, object_fd. rewrite H, Nat2Z.id.
  exact (counter_values_nth (objects d) 0).
Qed.

(** ** mapper_unmap *)

Ltac simp_run :=
  cbn -[Z.eqb VA_STATUS_SUCCESS VA_STATUS_ERROR_UNIMPLEMENTED VA_INVALID_ID
        VA_FOURCC_YV12 MPSWAP close_objects mapper_unmap mapper_map_legacy
        mapper_map_esh_failed].

Ltac run_monad :=
  unfold CHECK_VA_STATUS, CHECK_VA_STATUS_LEVEL;
  unfold bind, when, get, modify, emit, ret, result, state_of, trace_of.

(** C4. [mapper_unmap] calls, in this order: the interop backend's unmap;
    if [surface_acquired], [close] on each exported object's descriptor, and
    clears the flag; if [buffer_acquired], [vaReleaseBufferHandle] on the
    image's buffer, and clears the flag; if the image id is valid,
    [vaDestroyImage] on it, and invalidates the id.  Each step depends on its
    own flag only. *)
Theorem mapper_unmap_release_order (env : mapper_env) (m : ra_hwdec_mapper) :
  let p := m_priv m in
  let m' := state_of (mapper_unmap env m) in
  trace_of (mapper_unmap env m) =
    [Call_interop_unmap]
    ++ (if surface_acquired p then map Call_close (exported_fds (desc p)) else [])
    ++ (if buffer_acquired p
        then Call_vaReleaseBufferHandle (buf (current_image p))
             :: status_log (e_vaReleaseBufferHandle env) "vaReleaseBufferHandle()"
        else [])
    ++ (if image_id (current_image p) =? VA_INVALID_ID then []
        else Call_vaDestroyImage (image_id (current_image p))
             :: status_log (e_vaDestroyImage env) "vaDestroyImage()")
  /\ surface_acquired (m_priv m') = false
  /\ buffer_acquired (m_priv m') = false
  /\ image_id (current_image (m_priv m')) = VA_INVALID_ID.
Proof.
  destruct m as [o [np ly d sa ci ba esh] t src sp dp].
  unfold mapper_unmap, status_log. run_monad.
  destruct (e_vaReleaseBufferHandle env =? VA_STATUS_SUCCESS) eqn:Hr;
    destruct (e_vaDestroyImage env =? VA_STATUS_SUCCESS) eqn:Hd;
    destruct (image_id ci =? VA_INVALID_ID) eqn:Hid;
    destruct sa, ba;
    repeat (cbn -[close_objects Z.eqb];
            rewrite ?close_objects_run, ?Hr, ?Hd, ?Hid);
    rewrite ?app_nil_r; repeat split; try reflexivity;
    apply Z.eqb_eq; exact Hid.
Qed.

Lemma no_export_in_closes (fds : list Z) :
  existsb is_export_path (map Call_close fds) = false.
Proof. induction fds; [reflexivity | exact IHfds]. Qed.

(** What [mapper_unmap] leaves, whatever the session held. *)
Lemma mapper_unmap_facts (env : mapper_env) (m : ra_hwdec_mapper) :
  let m' := state_of (mapper_unmap env m) in
  unmapped (m_priv m') = true
  /\ esh_not_implemented (m_priv m') = esh_not_implemented (m_priv m)
  /\ m_owner m' = m_owner m
  /\ m_tex m' = e_interop_unmap env (m_tex m)
  /\ existsb is_export_path (trace_of (mapper_unmap env m)) = false.
Proof.
  destruct m as [o [np ly d sa ci ba esh] t src sp dp].
  unfold mapper_unmap, unmapped. run_monad.
  destruct (e_vaReleaseBufferHandle env =? VA_STATUS_SUCCESS) eqn:Hr;
    destruct (e_vaDestroyImage env =? VA_STATUS_SUCCESS) eqn:Hd;
    destruct (image_id ci =? VA_INVALID_ID) eqn:Hid;
    destruct sa, ba;
    repeat (cbn -[close_objects Z.eqb];
            rewrite ?close_objects_run, ?Hr, ?Hd, ?Hid);
    rewrite ?existsb_app, ?no_export_in_closes;
    repeat split; reflexivity.
Qed.

Lemma mapper_unmap_on_unmapped (env : mapper_env) (m : ra_hwdec_mapper) :
  unmapped (m_priv m) = true ->
  trace_of (mapper_unmap env m) = [Call_interop_unmap]
  /\ state_of (mapper_unmap env m) = with_tex (e_interop_unmap env) m.
Proof.
  destruct m as [o [np ly d sa ci ba esh] t src sp dp].
  unfold unmapped. cbn -[Z.eqb]. intros H.
  apply andb_prop in H as [H Hid]. apply andb_prop in H as [Hsa Hba].
  apply negb_true_iff in Hsa, Hba. subst sa ba.
  unfold mapper_unmap. run_monad.
  cbn -[Z.eqb]. rewrite Hid. cbn -[Z.eqb]. rewrite ?Hid.
  split; reflexivity.
Qed.

(** C8. On a session that is already unmapped, [mapper_unmap] makes one
    call, the interop backend's unmap: it closes no descriptor, releases no
    buffer handle and destroys no image.  The session is as before, but for
    the textures the backend's unmap leaves, and is still unmapped.  So a
    second [mapper_unmap] in a row, on any session, releases nothing and
    leaves [struct priv] as the first one left it. *)
Theorem mapper_unmap_unmapped_noop :
  (forall env m,
     unmapped (m_priv m) = true ->
     trace_of (mapper_unmap env m) = [Call_interop_unmap]
     /\ filter is_native_release (trace_of (mapper_unmap env m)) = []
     /\ state_of (mapper_unmap env m) = with_tex (e_interop_unmap env) m
     /\ m_priv (state_of (mapper_unmap env m)) = m_priv m
     /\ unmapped (m_priv (state_of (mapper_unmap env m))) = true)
  /\ (forall env1 env2 m,
        let m1 := state_of (mapper_unmap env1 m) in
        filter is_native_release (trace_of (mapper_unmap env2 m1)) = []
        /\ m_priv (state_of (mapper_unmap env2 m1)) = m_priv m1).
Proof.
  split.
  - intros env m H. destruct (mapper_unmap_on_unmapped env m H) as [Ht Hs].
    rewrite Ht, Hs. repeat split. exact H.
  - intros env1 env2 m. cbv zeta.
    pose proof (mapper_unmap_facts env1 m) as (Hun & _). cbv zeta in Hun.
    destruct (mapper_unmap_on_unmapped env2 _ Hun) as [Ht Hs].
    rewrite Ht, Hs. split; reflexivity.
Qed.

(** A second unmap, after a frame was mapped and unmapped, does nothing
    more than call the backend's unmap. *)
Lemma mapper_unmap_unmapped_noop_witness :
  trace_of (mapper_unmap env_all_ok
              (state_of (mapper_unmap env_all_ok
                 (state_of (mapper_map env_all_ok (fresh_mapper true))))))
  = [Call_interop_unmap].
Proof.
  exact (proj1 (proj1 mapper_unmap_unmapped_noop env_all_ok
                  (state_of (mapper_unmap env_all_ok
                     (state_of (mapper_map env_all_ok (fresh_mapper true)))))
                  eq_refl)).
Defined.

(** The first unmap of that frame did release: two descriptors closed. *)
Example mapper_unmap_after_export :
  trace_of (mapper_unmap env_all_ok (state_of (mapper_map env_all_ok (fresh_mapper true))))
  = [Call_interop_unmap; Call_close 10; Call_close 11].
Proof. vm_compute. reflexivity. Qed.

(** [mapper_init] invalidates the image handles: on a zeroed [struct priv]
    it leaves an unmapped session, whether it succeeds or not. *)
Lemma mapper_init_unmapped (env : mapper_env) (m : ra_hwdec_mapper) :
  surface_acquired (m_priv m) = false ->
  buffer_acquired (m_priv m) = false ->
  unmapped (m_priv (state_of (mapper_init env m))) = true.
Proof.
  destruct m as [o [np ly d sa ci ba esh] t src [sf ssub sw sh] dp].
  cbn [m_priv surface_acquired buffer_acquired]. intros -> ->.
  unfold mapper_init, check_fmt. run_monad. cbn [m_owner src_params hw_subfmt].
  destruct (e_ra_get_imgfmt_desc env ssub) as [dsc|] eqn:Hd;
    destruct (interop_init o) eqn:Hii;
    destruct (fst (e_interop_init env)) eqn:Hok;
    destruct (probing_formats o) eqn:Hp;
    destruct (match formats o with Some fs => check_fmt_loop fs ssub | None => false end)
      eqn:Hc;
    repeat (cbn -[Z.eqb]; rewrite ?Hd, ?Hii, ?Hok, ?Hp, ?Hc);
    reflexivity.
Qed.

(** ** mapper_map, path by path *)

Lemma mapper_map_err_run (m : ra_hwdec_mapper) :
  mapper_map_err m =
  (-1, m, if probing_formats (m_owner m) then []
          else [Msg MSGL_FATAL "mapping VAAPI EGL image failed"]).
Proof.
  unfold mapper_map_err. run_monad. destruct (probing_formats (m_owner m)); reflexivity.
Qed.

Lemma no_export_in_err (b : bool) :
  existsb is_export_path
    (if b then [] else [Msg MSGL_FATAL "mapping VAAPI EGL image failed"]) = false.
Proof. destruct b; reflexivity. Qed.

(** Without a legacy mapper: unmap, then fail. *)
Lemma mapper_map_legacy_absent (env : mapper_env) (m : ra_hwdec_mapper) :
  interop_map_legacy (m_owner m) = false ->
  mapper_map_legacy env m =
  let '(_, m2, t2) := mapper_unmap env m in
  (-1, m2, t2 ++ (if probing_formats (m_owner m2) then []
                  else [Msg MSGL_FATAL "mapping VAAPI EGL image failed"])).
Proof.
  intros Hleg. unfold mapper_map_legacy.
  cbv beta iota zeta delta [bind get]. rewrite Hleg.
  destruct (mapper_unmap env m) as [[u m2] t2].
  now rewrite mapper_map_err_run.
Qed.

(** The legacy strategy, from any session state. *)
Lemma mapper_map_legacy_facts (env : mapper_env) (m : ra_hwdec_mapper) :
  let r := mapper_map_legacy env m in
  let m' := state_of r in
  esh_not_implemented (m_priv m') = esh_not_implemented (m_priv m)
  /\ m_owner m' = m_owner m
  /\ existsb is_export_path (trace_of r) = false
  /\ (surface_acquired (m_priv m) = false -> surface_acquired (m_priv m') = false)
  /\ (result r = 0 \/ result r = -1)
  /\ (result r = 0 ->
      fst (e_interop_map_legacy env) = true
      /\ m_tex m' =
         if format_fourcc (snd (e_vaDeriveImage env)) =? VA_FOURCC_YV12
         then MPSWAP 1 2 (snd (e_interop_map_legacy env))
         else snd (e_interop_map_legacy env))
  /\ (result r = -1 ->
      buffer_acquired (m_priv m') =
      interop_map_legacy (m_owner m)
      && (buffer_acquired (m_priv m)
          || ((fst (e_vaDeriveImage env) =? VA_STATUS_SUCCESS)
              && (e_vaAcquireBufferHandle env =? VA_STATUS_SUCCESS)))).
Proof.
  cbv zeta.
  destruct (interop_map_legacy (m_owner m)) eqn:Hleg.
  - unfold mapper_map_legacy.
    destruct m as [o [np ly d sa ci ba esh] t src sp dp].
    destruct env as [gd ii ex sy im [ds di] aq [lr lt] iu rs dsy].
    cbn [m_owner] in Hleg. run_monad. unfold mapper_map_err. run_monad.
    destruct (ds =? VA_STATUS_SUCCESS) eqn:Hds;
      destruct (aq =? VA_STATUS_SUCCESS) eqn:Haq;
      destruct lr;
      destruct (format_fourcc di =? VA_FOURCC_YV12) eqn:Hfc;
      destruct (probing_formats o) eqn:Hp;
      repeat (cbn -[Z.eqb VA_FOURCC_YV12 MPSWAP];
              rewrite ?Hleg, ?Hds, ?Haq, ?Hfc, ?Hp);
      repeat split; try reflexivity; try (intros; congruence);
      try (now left); try (now right); try (intros; discriminate);
      try (destruct ba; reflexivity).
  - rewrite (mapper_map_legacy_absent env m Hleg).
    pose proof (mapper_unmap_facts env m) as U. cbv zeta in U.
    unfold state_of, trace_of in U.
    destruct (mapper_unmap env m) as [[u m2] t2]. cbn [fst snd] in U.
    destruct U as (Hun & Hesh & Hown & _ & Hex).
    unfold result, state_of, trace_of. cbn [fst snd].
    unfold unmapped in Hun. apply andb_prop in Hun as [Hun _].
    apply andb_prop in Hun as [Hsa Hba]. apply negb_true_iff in Hsa, Hba.
    rewrite existsb_app, Hex, no_export_in_err.
    repeat split; auto; try (intros; discriminate).
Qed.

(** Label [esh_failed]: close what the export acquired, then go legacy. *)
Lemma mapper_map_esh_failed_run (env : mapper_env) (m : ra_hwdec_mapper) :
  mapper_map_esh_failed env m =
  let '(r, m', t) := mapper_map_legacy env (with_priv (set_surface_acquired false) m) in
  (r, m', (if surface_acquired (m_priv m)
           then map Call_close (exported_fds (desc (m_priv m))) else []) ++ t).
Proof.
  destruct m as [o [np ly d sa ci ba esh] t src sp dp].
  unfold mapper_map_esh_failed. run_monad.
  destruct sa; cbn -[mapper_map_legacy close_objects];
    rewrite ?close_objects_run; cbn -[mapper_map_legacy];
    destruct (mapper_map_legacy env _) as [[r m'] t']; rewrite ?app_nil_r; reflexivity.
Qed.

Lemma mapper_map_esh_failed_facts (env : mapper_env) (m : ra_hwdec_mapper) :
  let r := mapper_map_esh_failed env m in
  let m' := state_of r in
  esh_not_implemented (m_priv m') = esh_not_implemented (m_priv m)
  /\ m_owner m' = m_owner m
  /\ existsb is_export_path (trace_of r) = false
  /\ surface_acquired (m_priv m') = false
  /\ (result r = 0 \/ result r = -1)
  /\ (result r = 0 ->
      fst (e_interop_map_legacy env) = true
      /\ m_tex m' =
         if format_fourcc (snd (e_vaDeriveImage env)) =? VA_FOURCC_YV12
         then MPSWAP 1 2 (snd (e_interop_map_legacy env))
         else snd (e_interop_map_legacy env))
  /\ (result r = -1 ->
      buffer_acquired (m_priv m') =
      interop_map_legacy (m_owner m)
      && (buffer_acquired (m_priv m)
          || ((fst (e_vaDeriveImage env) =? VA_STATUS_SUCCESS)
              && (e_vaAcquireBufferHandle env =? VA_STATUS_SUCCESS)))).
Proof.
  cbv zeta. rewrite mapper_map_esh_failed_run.
  pose proof (mapper_map_legacy_facts env (with_priv (set_surface_acquired false) m)) as L.
  cbv zeta in L. unfold result, state_of, trace_of in *.
  destruct (mapper_map_legacy env _) as [[r m'] t']. cbn [fst snd] in *.
  destruct L as (Hesh & Hown & Hex & Hsa & Hr & H0 & H1).
  rewrite existsb_app, Hex, orb_false_r.
  repeat split; auto.
  - destruct (surface_acquired (m_priv m)); [apply no_export_in_closes | reflexivity].
  - apply H0; assumption.
  - apply H0; assumption.
Qed.

(** The four ways through [mapper_map]. *)
Lemma mapper_map_skips_export (env : mapper_env) (m : ra_hwdec_mapper) :
  esh_not_implemented (m_priv m) = true ->
  mapper_map env m = mapper_map_esh_failed env m.
Proof.
  intros H. unfold mapper_map. cbv beta iota zeta delta [bind get].
  rewrite H. destruct (mapper_map_esh_failed env m) as [[r m'] t]. reflexivity.
Qed.

Lemma mapper_map_export_failed (env : mapper_env) (m : ra_hwdec_mapper) :
  esh_not_implemented (m_priv m) = false ->
  (fst (e_vaExportSurfaceHandle env) =? VA_STATUS_SUCCESS) = false ->
  mapper_map env m =
  let unimpl := fst (e_vaExportSurfaceHandle env) =? VA_STATUS_ERROR_UNIMPLEMENTED in
  let m1 := with_priv (set_desc (snd (e_vaExportSurfaceHandle env))) m in
  let m2 := if unimpl then with_priv (set_esh_not_implemented true) m1 else m1 in
  let '(r, m', t) := mapper_map_esh_failed env m2 in
  (r, m',
   Call_vaExportSurfaceHandle (m_src m)
   :: Msg (if probing_formats (m_owner m) then MSGL_V else MSGL_ERR)
          "vaExportSurfaceHandle()"
   :: t).
Proof.
  intros He Hs. destruct m as [o [np ly d sa ci ba esh] t src sp dp].
  cbn in He. subst esh. unfold mapper_map. run_monad.
  simp_run. rewrite Hs.
  destruct (fst (e_vaExportSurfaceHandle env) =? VA_STATUS_ERROR_UNIMPLEMENTED);
    simp_run;
    destruct (mapper_map_esh_failed env _) as [[r m'] t']; reflexivity.
Qed.

Lemma mapper_map_import_failed (env : mapper_env) (m : ra_hwdec_mapper) :
  esh_not_implemented (m_priv m) = false ->
  (fst (e_vaExportSurfaceHandle env) =? VA_STATUS_SUCCESS) = true ->
  fst (e_interop_map env) = false ->
  mapper_map env m =
  let m1 := with_priv (set_desc (snd (e_vaExportSurfaceHandle env))) m in
  let m2 := with_priv (set_surface_acquired true) m1 in
  let m3 := with_tex (fun _ => snd (e_interop_map env)) m2 in
  let '(r, m', t) := mapper_map_esh_failed env m3 in
  (r, m',
   Call_vaExportSurfaceHandle (m_src m) :: Call_vaSyncSurface (m_src m)
   :: Call_interop_map :: t).
Proof.
  intros He Hs Hi. destruct m as [o [np ly d sa ci ba esh] t src sp dp].
  cbn in He. subst esh. unfold mapper_map. run_monad.
  repeat (simp_run; rewrite ?Hs, ?Hi).
  destruct (mapper_map_esh_failed env _) as [[r m'] t']; reflexivity.
Qed.

Lemma mapper_map_exported (env : mapper_env) (m : ra_hwdec_mapper) :
  esh_not_implemented (m_priv m) = false ->
  (fst (e_vaExportSurfaceHandle env) =? VA_STATUS_SUCCESS) = true ->
  fst (e_interop_map env) = true ->
  mapper_map env m =
  let m1 := with_priv (set_desc (snd (e_vaExportSurfaceHandle env))) m in
  let m2 := with_priv (set_surface_acquired true) m1 in
  let raw := snd (e_interop_map env) in
  let m3 := with_tex (fun _ =>
              if fourcc (snd (e_vaExportSurfaceHandle env)) =? VA_FOURCC_YV12
              then MPSWAP 1 2 raw else raw) m2 in
  (0, m3,
   [Call_vaExportSurfaceHandle (m_src m); Call_vaSyncSurface (m_src m);
    Call_interop_map]).
Proof.
  intros He Hs Hi. destruct m as [o [np ly d sa ci ba esh] t src sp dp].
  cbn in He. subst esh. unfold mapper_map. run_monad.
  repeat (simp_run; rewrite ?Hs, ?Hi).
  destruct (fourcc (snd (e_vaExportSurfaceHandle env)) =? VA_FOURCC_YV12);
    reflexivity.
Qed.

(** [mapper_map] as a whole: the sticky flag, the owner, the trace when the
    export strategy is skipped, the textures on success, the acquisition
    flags on failure. *)
Lemma mapper_map_facts (env : mapper_env) (m : ra_hwdec_mapper) :
  let r := mapper_map env m in
  let m' := state_of r in
  esh_not_implemented (m_priv m') =
    esh_not_implemented (m_priv m)
    || (fst (e_vaExportSurfaceHandle env) =? VA_STATUS_ERROR_UNIMPLEMENTED)
  /\ m_owner m' = m_owner m
  /\ (esh_not_implemented (m_priv m) = true ->
      existsb is_export_path (trace_of r) = false)
  /\ (result r = 0 \/ result r = -1)
  /\ (export_path_taken env m = true -> result r = 0)
  /\ (result r = 0 ->
      m_tex m' =
      if export_path_taken env m then
        if fourcc (snd (e_vaExportSurfaceHandle env)) =? VA_FOURCC_YV12
        then MPSWAP 1 2 (snd (e_interop_map env))
        else snd (e_interop_map env)
      else
        if format_fourcc (snd (e_vaDeriveImage env)) =? VA_FOURCC_YV12
        then MPSWAP 1 2 (snd (e_interop_map_legacy env))
        else snd (e_interop_map_legacy env))
  /\ (result r = -1 ->
      surface_acquired (m_priv m') = false
      /\ buffer_acquired (m_priv m') =
         interop_map_legacy (m_owner m)
         && (buffer_acquired (m_priv m)
             || ((fst (e_vaDeriveImage env) =? VA_STATUS_SUCCESS)
                 && (e_vaAcquireBufferHandle env =? VA_STATUS_SUCCESS)))).
Proof.
  cbv zeta. unfold export_path_taken.
  destruct (esh_not_implemented (m_priv m)) eqn:He.
  - rewrite (mapper_map_skips_export env m He).
    pose proof (mapper_map_esh_failed_facts env m) as F. cbv zeta in F.
    destruct F as (Hesh & Hown & Hex & Hsa & Hr & H0 & H1).
    rewrite Hesh, He. cbn [orb negb andb].
    repeat split; auto; try discriminate; try (apply H0; assumption).
  - destruct (fst (e_vaExportSurfaceHandle env) =? VA_STATUS_SUCCESS) eqn:Hs.
    + assert (Hu : (fst (e_vaExportSurfaceHandle env)
                    =? VA_STATUS_ERROR_UNIMPLEMENTED) = false).
      { apply Z.eqb_eq in Hs. rewrite Hs. reflexivity. }
      rewrite Hu. cbn [orb negb andb].
      destruct (fst (e_interop_map env)) eqn:Hi.
      * rewrite (mapper_map_exported env m He Hs Hi). cbv zeta.
        unfold result, state_of, trace_of. cbn [fst snd m_priv m_owner m_tex with_tex
          with_priv esh_not_implemented set_surface_acquired set_desc].
        repeat split; auto; try discriminate.
      * rewrite (mapper_map_import_failed env m He Hs Hi). cbv zeta.
        match goal with
        | |- context [mapper_map_esh_failed env ?m3] =>
            pose proof (mapper_map_esh_failed_facts env m3) as F; cbv zeta in F;
            unfold result, state_of, trace_of in *;
            destruct (mapper_map_esh_failed env m3) as [[r m'] t']
        end.
        cbn [fst snd] in *. destruct F as (Hesh & Hown & Hex & Hsa & Hr & H0 & H1).
        repeat split; auto; try discriminate; try (apply H0; assumption).
        rewrite Hesh. cbn. exact He.
    + cbn [orb negb andb].
      rewrite (mapper_map_export_failed env m He Hs). cbv zeta.
      match goal with
      | |- context [mapper_map_esh_failed env ?m3] =>
          pose proof (mapper_map_esh_failed_facts env m3) as F; cbv zeta in F;
          unfold result, state_of, trace_of in *;
          destruct (mapper_map_esh_failed env m3) as [[r m'] t']
      end.
      cbn [fst snd] in *. destruct F as (Hesh & Hown & Hex & Hsa & Hr & H0 & H1).
      destruct (fst (e_vaExportSurfaceHandle env) =? VA_STATUS_ERROR_UNIMPLEMENTED);
        repeat split; auto; try discriminate; try (apply H0; assumption);
        rewrite Hesh; cbn; try reflexivity; exact He.
Qed.

(** X2. What a failed [mapper_map] leaves of the acquisition flags: the surface
    flag is always clear; the buffer flag is clear when there is no legacy
    mapper, else it is set if it was on entry or if the buffer handle was
    acquired in this call. *)
Lemma mapper_map_failure_flags (env : mapper_env) (m : ra_hwdec_mapper) :
  result (mapper_map env m) = -1 ->
  surface_acquired (m_priv (state_of (mapper_map env m))) = false
  /\ buffer_acquired (m_priv (state_of (mapper_map env m))) =
     interop_map_legacy (m_owner m)
     && (buffer_acquired (m_priv m)
         || ((fst (e_vaDeriveImage env) =? VA_STATUS_SUCCESS)
             && (e_vaAcquireBufferHandle env =? VA_STATUS_SUCCESS))).
Proof. intros H. now apply (mapper_map_facts env m). Qed.

Lemma mapper_map_failure_flags_witness :
  surface_acquired
    (m_priv (state_of (mapper_map env_legacy_import_fails (fresh_mapper false)))) = false
  /\ buffer_acquired
       (m_priv (state_of (mapper_map env_legacy_import_fails (fresh_mapper false)))) = false.
Proof.
  exact (mapper_map_failure_flags env_legacy_import_fails (fresh_mapper false) eq_refl).
Defined.

(** X1. The status of [vaSyncSurface] is not stored: [mapper_map] does the
    same whatever it is, and the check after the call tests the export's
    status, so a failed sync is not logged: when the export strategy
    delivers, the trace is the three calls and no message. *)
Theorem mapper_map_ignores_sync_status (env : mapper_env) (sync : Z)
    (m : ra_hwdec_mapper) :
  mapper_map (with_sync_status sync env) m = mapper_map env m
  /\ (export_path_taken env m = true ->
      trace_of (mapper_map env m)
      = [Call_vaExportSurfaceHandle (m_src m); Call_vaSyncSurface (m_src m);
         Call_interop_map]).
Proof.
  split.
  - destruct env. reflexivity.
  - unfold export_path_taken. intros H.
    apply andb_prop in H as [H Hi]. apply andb_prop in H as [He Hs].
    apply negb_true_iff in He.
    now rewrite (mapper_map_exported env m He Hs Hi).
Qed.

(** C1, at a failing call.  On a fresh session whose driver does not
    implement export, with the image derived and the buffer handle acquired,
    the backend's legacy import fails: [mapper_map] returns -1 without
    releasing the handle, and [buffer_acquired] is still set on return. *)
Theorem mapper_map_failure_keeps_buffer_acquired :
  result (mapper_map env_legacy_import_fails (fresh_mapper true)) = -1
  /\ surface_acquired
       (m_priv (state_of (mapper_map env_legacy_import_fails (fresh_mapper true))))
     = false
  /\ buffer_acquired
       (m_priv (state_of (mapper_map env_legacy_import_fails (fresh_mapper true))))
     = true
  /\ filter is_native_release
       (trace_of (mapper_map env_legacy_import_fails (fresh_mapper true))) = [].
Proof. vm_compute. repeat split; reflexivity. Qed.

Lemma run_calls_sticky (calls : list mapper_call) (m : ra_hwdec_mapper) :
  esh_not_implemented (m_priv m) = true ->
  existsb is_export_path (trace_of (run_calls calls m)) = false
  /\ esh_not_implemented (m_priv (state_of (run_calls calls m))) = true.
Proof.
  revert m. induction calls as [|c rest IH]; intros m He; [now split|].
  assert (Hc : existsb is_export_path (trace_of (run_call c m)) = false
               /\ esh_not_implemented (m_priv (state_of (run_call c m))) = true).
  { destruct c as [env surface | env]; cbn [run_call].
    - pose proof (mapper_map_facts env (with_src surface m)) as F. cbv zeta in F.
      destruct F as (Hesh & _ & Hex & _).
      cbv beta iota zeta delta [bind modify ret].
      unfold result, state_of, trace_of in *.
      destruct (mapper_map env (with_src surface m)) as [[r m'] t].
      cbn [fst snd] in *. rewrite app_nil_r. split.
      + apply Hex. exact He.
      + rewrite Hesh. cbn. rewrite He. reflexivity.
    - pose proof (mapper_unmap_facts env m) as (_ & Hesh & _ & _ & Hex).
      split; [exact Hex | now rewrite Hesh]. }
  destruct Hc as [Hex Hesh]. specialize (IH _ Hesh).
  cbn [run_calls]. unfold bind. unfold result, state_of, trace_of in *.
  destruct (run_call c m) as [[u m1] t1]. cbn [fst snd] in *.
  destruct (run_calls rest m1) as [[u' m2] t2]. cbn [fst snd] in *.
  rewrite existsb_app, Hex. exact IH.
Qed.

Lemma is_export_on_path (t : list event) :
  existsb is_export_path t = false -> filter is_export t = [].
Proof.
  induction t as [|e t IH]; [reflexivity|]. cbn [existsb filter]. intros H.
  apply orb_false_iff in H as [He Ht]. rewrite (IH Ht).
  destruct e; try reflexivity; discriminate.
Qed.

(** While the flag is clear, [mapper_map] calls the export entry point
    once, and sets the flag exactly on [VA_STATUS_ERROR_UNIMPLEMENTED]. *)
Lemma mapper_map_attempts_export (env : mapper_env) (m : ra_hwdec_mapper) :
  esh_not_implemented (m_priv m) = false ->
  (esh_not_implemented (m_priv (state_of (mapper_map env m))) = true
   <-> fst (e_vaExportSurfaceHandle env) = VA_STATUS_ERROR_UNIMPLEMENTED)
  /\ filter is_export (trace_of (mapper_map env m))
     = [Call_vaExportSurfaceHandle (m_src m)].
Proof.
  intros He. split.
  - pose proof (mapper_map_facts env m) as (Hesh & _). rewrite Hesh, He.
    cbn [orb]. apply Z.eqb_eq.
  - destruct (fst (e_vaExportSurfaceHandle env) =? VA_STATUS_SUCCESS) eqn:Hs.
    + destruct (fst (e_interop_map env)) eqn:Hi.
      * rewrite (mapper_map_exported env m He Hs Hi). reflexivity.
      * rewrite (mapper_map_import_failed env m He Hs Hi). cbv zeta.
        match goal with
        | |- context [mapper_map_esh_failed env ?m3] =>
            pose proof (mapper_map_esh_failed_facts env m3) as (_ & _ & Hex & _)
        end.
        apply is_export_on_path in Hex. unfold trace_of in *.
        destruct (mapper_map_esh_failed env _) as [[r m'] t'].
        cbn [snd filter is_export] in *. now rewrite Hex.
    + rewrite (mapper_map_export_failed env m He Hs). cbv zeta.
      match goal with
      | |- context [mapper_map_esh_failed env ?m3] =>
          pose proof (mapper_map_esh_failed_facts env m3) as (_ & _ & Hex & _)
      end.
      apply is_export_on_path in Hex. unfold trace_of in *.
      destruct (mapper_map_esh_failed env _) as [[r m'] t'].
      cbn [snd filter is_export] in *. now rewrite Hex.
Qed.

(** C3. [esh_not_implemented] is set by [mapper_map] exactly when the export
    call answers [VA_STATUS_ERROR_UNIMPLEMENTED].  Once it is set on a
    session, no later call on that session (any sequence of map and unmap
    calls, whatever the driver and the backend answer) makes a call of the
    export strategy, the flag stays set, and each [mapper_map] runs the
    code at [esh_failed], which on a session with no surface acquired is
    the legacy strategy alone. *)
Theorem esh_not_implemented_is_sticky :
  (forall env m,
     esh_not_implemented (m_priv m) = false ->
     (esh_not_implemented (m_priv (state_of (mapper_map env m))) = true
      <-> fst (e_vaExportSurfaceHandle env) = VA_STATUS_ERROR_UNIMPLEMENTED)
     /\ filter is_export (trace_of (mapper_map env m))
        = [Call_vaExportSurfaceHandle (m_src m)])
  /\ (forall m,
        esh_not_implemented (m_priv m) = true ->
        (forall calls,
           existsb is_export_path (trace_of (run_calls calls m)) = false
           /\ esh_not_implemented (m_priv (state_of (run_calls calls m))) = true)
        /\ (forall env, mapper_map env m = mapper_map_esh_failed env m)
        /\ (forall env, surface_acquired (m_priv m) = false ->
              mapper_map env m = mapper_map_legacy env m)).
Proof.
  split; [exact mapper_map_attempts_export|].
  intros m He. split; [|split].
  - intros calls. now apply run_calls_sticky.
  - intros env. now apply mapper_map_skips_export.
  - intros env Hsa. rewrite (mapper_map_skips_export env m He).
    rewrite mapper_map_esh_failed_run, Hsa.
    destruct m as [o [np ly d sa ci ba esh] t src sp dp]. cbn in Hsa. subst sa.
    unfold with_priv, set_surface_acquired. cbn [m_owner m_priv m_tex m_src src_params
      dst_params num_planes layout desc surface_acquired current_image
      buffer_acquired esh_not_implemented].
    destruct (mapper_map_legacy env _) as [[r m'] t']. reflexivity.
Qed.

(** A downgraded session, three calls, a driver whose export would now
    work: the export strategy is not tried. *)
Lemma esh_not_implemented_is_sticky_witness :
  existsb is_export_path
    (trace_of (run_calls [Do_map env_all_ok 7; Do_unmap env_all_ok; Do_map env_all_ok 8]
                         downgraded_mapper)) = false
  /\ esh_not_implemented
       (m_priv (state_of
          (run_calls [Do_map env_all_ok 7; Do_unmap env_all_ok; Do_map env_all_ok 8]
                     downgraded_mapper))) = true.
Proof.
  exact (proj1 (proj2 esh_not_implemented_is_sticky downgraded_mapper eq_refl)
               [Do_map env_all_ok 7; Do_unmap env_all_ok; Do_map env_all_ok 8]).
Defined.

(** Frame 1 meets an unimplemented export, falls back and succeeds; frame 2
    does not try the export again: one export call in all. *)
Example export_unimplemented_then_skipped :
  result (mapper_map env_export_unimplemented (fresh_mapper true)) = 0
  /\ filter is_export
       (trace_of (run_calls [Do_map env_export_unimplemented 7; Do_unmap env_all_ok;
                             Do_map env_all_ok 8] (fresh_mapper true)))
     = [Call_vaExportSurfaceHandle 7].
Proof. vm_compute. split; reflexivity. Qed.

(** C5. After a successful [mapper_map], with [tag] the format tag of the
    strategy that delivered (the exported descriptor's, or the derived
    image's) and [raw] the textures as its backend import left them: if
    [tag] is YV12, textures 1 and 2 are those of [raw] exchanged and
    textures 0 and 3 are as in [raw]; for any other tag the textures are
    [raw]. *)
Theorem mapper_map_yv12_swap (env : mapper_env) (m : ra_hwdec_mapper) :
  result (mapper_map env m) = 0 ->
  let tag := if export_path_taken env m
             then fourcc (snd (e_vaExportSurfaceHandle env))
             else format_fourcc (snd (e_vaDeriveImage env)) in
  let raw := if export_path_taken env m
             then snd (e_interop_map env)
             else snd (e_interop_map_legacy env) in
  let tex := m_tex (state_of (mapper_map env m)) in
  (tag = VA_FOURCC_YV12 ->
   tex_at tex 1 = tex_at raw 2 /\ tex_at tex 2 = tex_at raw 1
   /\ tex_at tex 0 = tex_at raw 0 /\ tex_at tex 3 = tex_at raw 3)
  /\ (tag <> VA_FOURCC_YV12 -> tex = raw).
Proof.
  intros H0. cbv zeta.
  pose proof (mapper_map_facts env m) as (_ & _ & _ & _ & _ & Htex & _).
  rewrite (Htex H0). clear Htex.
  destruct (export_path_taken env m); split; intros Htag.
  - apply Z.eqb_eq in Htag. rewrite Htag. repeat split; reflexivity.
  - apply Z.eqb_neq in Htag. now rewrite Htag.
  - apply Z.eqb_eq in Htag. rewrite Htag. repeat split; reflexivity.
  - apply Z.eqb_neq in Htag. now rewrite Htag.
Qed.

Lemma mapper_map_yv12_swap_witness :
  result (mapper_map env_all_ok (fresh_mapper true)) = 0
  /\ tex_at (m_tex (state_of (mapper_map env_all_ok (fresh_mapper true)))) 1 = Some 3
  /\ tex_at (m_tex (state_of (mapper_map env_all_ok (fresh_mapper true)))) 2 = Some 2.
Proof.
  split; [reflexivity|].
  destruct (proj1 (mapper_map_yv12_swap env_all_ok (fresh_mapper true) eq_refl) eq_refl)
    as (H1 & H2 & _).
  split; [exact H1 | exact H2].
Defined.

(** ** mapper_init and the supported-format list *)

Lemma mapper_init_run (env : mapper_env) (m : ra_hwdec_mapper) :
  let fmt := hw_subfmt (src_params m) in
  let checked := negb (probing_formats (m_owner m)) in
  let rejected := checked && negb (check_fmt m fmt) in
  result (mapper_init env m) =
    (if reaches_format_check env m && negb rejected then 0 else -1)
  /\ filter is_check_fmt (trace_of (mapper_init env m)) =
     (if reaches_format_check env m && checked then [Call_check_fmt fmt] else [])
  /\ (In (Msg_imgfmt MSGL_FATAL "unsupported VA image format %s" fmt)
         (trace_of (mapper_init env m))
      <-> reaches_format_check env m && rejected = true).
Proof.
  destruct m as [o [np ly d sa ci ba esh] t src [sf ssub sw sh] dp].
  cbv zeta. unfold mapper_init, reaches_format_check, check_fmt. run_monad.
  cbn [m_owner src_params hw_subfmt].
  destruct (e_ra_get_imgfmt_desc env ssub) as [dsc|] eqn:Hd;
    destruct (interop_init o) eqn:Hii;
    destruct (fst (e_interop_init env)) eqn:Hok;
    destruct (probing_formats o) eqn:Hp;
    destruct (match formats o with Some fs => check_fmt_loop fs ssub | None => false end)
      eqn:Hc;
    repeat (cbn -[Z.eqb]; rewrite ?Hd, ?Hii, ?Hok, ?Hp, ?Hc);
    (split; [reflexivity | split; [reflexivity|]]);
    split; intros H; try discriminate; auto;
    repeat (destruct H as [H|H]; try discriminate); try contradiction.
Qed.

Lemma check_fmt_loop_In (fs : list Z) (fmt : Z) :
  check_fmt_loop fs fmt = true <-> In fmt (real_entries fs).
Proof.
  induction fs as [|f rest IH]; cbn [check_fmt_loop real_entries].
  - split; [discriminate | contradiction].
  - destruct (f =? 0) eqn:Hz; [split; [discriminate | contradiction]|].
    destruct (f =? fmt) eqn:Hf.
    + apply Z.eqb_eq in Hf. split; [now left | reflexivity].
    + apply Z.eqb_neq in Hf. rewrite IH. split; [now right|].
      intros [H|H]; [contradiction | exact H].
Qed.

(** [check_fmt] decides membership in the supported-format list. *)
Lemma check_fmt_In (m : ra_hwdec_mapper) (fmt : Z) :
  check_fmt m fmt = true <-> In fmt (supported_list (m_owner m)).
Proof.
  unfold check_fmt, supported_list. destruct (formats (m_owner m)) as [fs|].
  - apply check_fmt_loop_In.
  - split; [discriminate | contradiction].
Qed.

(** C10, as the claim has it, fails: a probing owner, a format the renderer
    describes, and [mapper_init] still returns -1, because the backend's
    per-mapper init failed. *)
Lemma mapper_init_probing_can_fail :
  probing_formats (m_owner probing_mapper) = true
  /\ e_ra_get_imgfmt_desc env_interop_init_fails (hw_subfmt (src_params probing_mapper))
     = Some (mk_imgfmt_desc 3)
  /\ result (mapper_init env_interop_init_fails probing_mapper) = -1.
Proof. vm_compute. repeat split; reflexivity. Qed.

(** C10, amended.  With [probing_formats] set, [mapper_init] does not
    call [check_fmt]: it returns 0 for every destination format that the
    renderer describes and for which the backend's per-mapper init, if
    installed, succeeds, and -1 otherwise.  With [probing_formats] clear, it
    returns -1 for every destination format that is not in the
    supported-format list, and logs the fatal message exactly when the
    format check was reached. *)
Theorem mapper_init_format_gate (env : mapper_env) (m : ra_hwdec_mapper) :
  let fmt := hw_subfmt (src_params m) in
  let fatal := Msg_imgfmt MSGL_FATAL "unsupported VA image format %s" fmt in
  (probing_formats (m_owner m) = true ->
   result (mapper_init env m) = (if reaches_format_check env m then 0 else -1)
   /\ filter is_check_fmt (trace_of (mapper_init env m)) = []
   /\ ~ In fatal (trace_of (mapper_init env m)))
  /\ (probing_formats (m_owner m) = false ->
      ~ In fmt (supported_list (m_owner m)) ->
      result (mapper_init env m) = -1
      /\ (In fatal (trace_of (mapper_init env m))
          <-> reaches_format_check env m = true)).
Proof.
  cbv zeta. pose proof (mapper_init_run env m) as (Hr & Hc & Hf). split.
  - intros Hp. rewrite Hp in *. cbn [negb andb] in *.
    rewrite andb_false_r in *. rewrite andb_true_r in Hr.
    repeat split; try assumption.
    intros H. apply Hf in H. discriminate.
  - intros Hp Hin. rewrite Hp in *.
    assert (Hcf : check_fmt m (hw_subfmt (src_params m)) = false).
    { destruct (check_fmt m _) eqn:E; [|reflexivity].
      apply check_fmt_In in E. contradiction. }
    rewrite Hcf in *. cbn [negb andb] in *.
    rewrite andb_false_r in Hr. rewrite andb_true_r in Hf.
    split; assumption.
Qed.

Lemma mapper_init_format_gate_witness :
  result (mapper_init env_all_ok probing_mapper) = 0
  /\ result (mapper_init env_all_ok
               (with_owner (set_formats (Some [0]) (ready_owner true))
                           (fresh_mapper true))) = -1.
Proof.
  split.
  - exact (proj1 (proj1 (mapper_init_format_gate env_all_ok probing_mapper) eq_refl)).
  - refine (proj1 (proj2 (mapper_init_format_gate env_all_ok
              (with_owner (set_formats (Some [0]) (ready_owner true))
                          (fresh_mapper true))) eq_refl _)).
    cbn. intros H. exact H.
Defined.

(** ** Format probing *)

(** One candidate: the value is [probe_candidate]'s, the state is left
    alone, and the only call recorded is the mapper creation, made on the
    device as it is, whenever the candidate passes. *)
Lemma probe_trial_run (o : probe_outcome) (hw : ra_hwdec) :
  exists t,
    probe_trial o hw = (probe_candidate o, hw, t)
    /\ Forall (fun e => exists params,
                 e = Call_ra_hwdec_mapper_create (hw_priv hw) params) t
    /\ (forall fmt, probe_candidate o = Some fmt ->
          exists params,
            hw_subfmt params = fmt
            /\ In (Call_ra_hwdec_mapper_create (hw_priv hw) params) t).
Proof.
  unfold probe_trial, probe_candidate.
  destruct (o_av_hwframe_ctx_alloc o); cbn [negb];
    [|exists []; repeat split; [constructor | discriminate]].
  destruct (o_av_hwframe_ctx_init o <? 0);
    [exists []; repeat split; [constructor | discriminate]|].
  destruct (o_av_frame_alloc o); cbn [negb];
    [|exists []; repeat split; [constructor | discriminate]].
  destruct (o_av_hwframe_get_buffer o <? 0);
    [exists []; repeat split; [constructor | discriminate]|].
  destruct (o_mp_image_from_av_frame o) as [params|];
    [|exists []; repeat split; [constructor | discriminate]].
  destruct (o_mp_image_params_valid o); cbn [negb];
    [|exists []; repeat split; [constructor | discriminate]].
  exists [Call_ra_hwdec_mapper_create (hw_priv hw) params].
  cbv beta iota zeta delta [bind get emit ret].
  destruct (try_format o); cbn [app]; repeat split.
  - constructor; [now exists params | constructor].
  - intros fmt [= <-]. exists params. split; [reflexivity | now left].
  - constructor; [now exists params | constructor].
  - discriminate.
Qed.

Lemma probe_loop_run (env : probe_env) (sw_formats : list Z) (n : nat)
    (fmts : list Z) (hw : ra_hwdec) :
  exists t,
    probe_loop env sw_formats n fmts hw
    = (fmts ++ passed_from env sw_formats n, hw, t)
    /\ Forall (fun e => exists params,
                 e = Call_ra_hwdec_mapper_create (hw_priv hw) params) t
    /\ (forall fmt, In fmt (passed_from env sw_formats n) ->
          exists params,
            hw_subfmt params = fmt
            /\ In (Call_ra_hwdec_mapper_create (hw_priv hw) params) t).
Proof.
  revert n fmts. induction sw_formats as [|f rest IH]; intros n fmts;
    cbn [probe_loop passed_from].
  - exists []. rewrite app_nil_r. repeat split; [constructor | contradiction].
  - destruct (f =? AV_PIX_FMT_NONE).
    { exists []. rewrite app_nil_r. repeat split; [constructor | contradiction]. }
    destruct (probe_trial_run (p_outcome env n f) hw) as (t1 & E1 & F1 & I1).
    unfold bind at 1. rewrite E1. cbv beta iota zeta.
    destruct (probe_candidate (p_outcome env n f)) as [x|].
    + destruct (IH (S n) (fmts ++ [x])) as (t2 & E2 & F2 & I2). rewrite E2.
      exists (t1 ++ t2). rewrite <- app_assoc. split; [reflexivity|].
      split; [apply Forall_app; now split|].
      intros fmt [H|H].
      * destruct (I1 fmt (f_equal Some H)) as (params & Hp & Hin).
        exists params. split; [exact Hp | apply in_app_iff; now left].
      * destruct (I2 fmt H) as (params & Hp & Hin).
        exists params. split; [exact Hp | apply in_app_iff; now right].
    + destruct (IH (S n) fmts) as (t2 & E2 & F2 & I2). rewrite E2.
      exists (t1 ++ t2). split; [reflexivity|].
      split; [apply Forall_app; now split|].
      intros fmt H. destruct (I2 fmt H) as (params & Hp & Hin).
      exists params. split; [exact Hp | apply in_app_iff; now right].
Qed.

Lemma real_entries_terminated (fs : list Z) :
  real_entries (fs ++ [0]) = real_entries fs.
Proof.
  induction fs as [|f rest IH]; [reflexivity|].
  cbn [app real_entries]. destruct (f =? 0); [reflexivity | now rewrite IH].
Qed.

Lemma real_entries_incl (fs : list Z) (x : Z) :
  In x (real_entries fs) -> In x fs.
Proof.
  induction fs as [|f rest IH]; [contradiction|].
  cbn [real_entries]. destruct (f =? 0); [contradiction|].
  intros [H|H]; [now left | right; auto].
Qed.

Lemma real_entries_NoDup (fs : list Z) :
  NoDup fs -> NoDup (real_entries fs).
Proof.
  induction 1 as [|f rest Hnotin Hnd IH]; [constructor|].
  cbn [real_entries]. destruct (f =? 0); constructor; [|exact IH].
  intros H. apply Hnotin. now apply real_entries_incl.
Qed.

Lemma real_entries_prefix (pre post : list Z) :
  Forall (fun f => f <> 0) pre -> real_entries (pre ++ 0 :: post) = pre.
Proof.
  induction 1 as [|f rest Hf _ IH]; [reflexivity|].
  cbn [app real_entries]. apply Z.eqb_neq in Hf. now rewrite Hf, IH.
Qed.

Lemma real_entries_nonzero (fs : list Z) (x : Z) :
  In x (real_entries fs) -> x <> 0.
Proof.
  induction fs as [|f rest IH]; [contradiction|].
  cbn [real_entries]. destruct (f =? 0) eqn:Hz; [contradiction|].
  apply Z.eqb_neq in Hz. intros [H|H]; [now subst | auto].
Qed.

Lemma real_entries_all (fs : list Z) :
  Forall (fun f => f <> 0) fs -> real_entries fs = fs.
Proof.
  induction 1 as [|f rest Hf _ IH]; [reflexivity|].
  cbn [real_entries]. apply Z.eqb_neq in Hf. now rewrite Hf, IH.
Qed.

(** ** Which candidates pass *)

Lemma probe_candidate_Some (o : probe_outcome) (fmt : Z) :
  probe_candidate o = Some fmt <->
  o_av_hwframe_ctx_alloc o = true
  /\ 0 <= o_av_hwframe_ctx_init o
  /\ o_av_frame_alloc o = true
  /\ 0 <= o_av_hwframe_get_buffer o
  /\ (exists params, o_mp_image_from_av_frame o = Some params
                     /\ hw_subfmt params = fmt)
  /\ o_mp_image_params_valid o = true
  /\ o_ra_hwdec_mapper_create o = true
  /\ 0 <= o_ra_hwdec_mapper_map o.
Proof.
  unfold probe_candidate, try_format. split.
  - destruct (o_av_hwframe_ctx_alloc o); cbn [negb]; [|discriminate].
    destruct (o_av_hwframe_ctx_init o <? 0) eqn:H1; [discriminate|].
    destruct (o_av_frame_alloc o); cbn [negb]; [|discriminate].
    destruct (o_av_hwframe_get_buffer o <? 0) eqn:H2; [discriminate|].
    destruct (o_mp_image_from_av_frame o) as [params|]; [|discriminate].
    destruct (o_mp_image_params_valid o); cbn [negb]; [|discriminate].
    destruct (o_ra_hwdec_mapper_create o); [|discriminate].
    destruct (o_ra_hwdec_mapper_map o >=? 0) eqn:H3; [|discriminate].
    intros H. injection H as H.
    apply Z.ltb_ge in H1, H2. apply Z.geb_le in H3.
    repeat split; try assumption; try reflexivity; try lia.
    exists params. now split.
  - intros (H1 & H2 & H3 & H4 & (params & H5 & H6) & H7 & H8 & H9).
    rewrite H1, H3, H5, H7, H8. cbn [negb].
    apply Z.ltb_ge in H2, H4. rewrite H2, H4.
    apply Z.geb_le in H9. rewrite H9. now rewrite H6.
Qed.

(** The loop reaches candidate [i] exactly when no entry up to it is
    [AV_PIX_FMT_NONE]. *)
Lemma passed_from_In (env : probe_env) (sw : list Z) (k : nat) (fmt : Z) :
  In fmt (passed_from env sw k) <->
  exists i f,
    nth_error sw i = Some f
    /\ Forall (fun g => g <> AV_PIX_FMT_NONE) (firstn (S i) sw)
    /\ probe_candidate (p_outcome env (k + i) f) = Some fmt.
Proof.
  revert k. induction sw as [|f rest IH]; intros k.
  - split; [contradiction|]. intros (i & f & Hi & _). now destruct i.
  - cbn [passed_from]. destruct (f =? AV_PIX_FMT_NONE) eqn:Hn.
    + split; [contradiction|]. intros (i & f0 & _ & Hall & _).
      cbn [firstn] in Hall. inversion Hall as [|? ? Hf _]; subst.
      apply Z.eqb_eq in Hn. contradiction.
    + apply Z.eqb_neq in Hn.
      assert (Hrest : In fmt (passed_from env rest (S k)) <->
                      exists i f0,
                        nth_error (f :: rest) (S i) = Some f0
                        /\ Forall (fun g => g <> AV_PIX_FMT_NONE)
                                  (firstn (S (S i)) (f :: rest))
                        /\ probe_candidate (p_outcome env (k + S i) f0) = Some fmt).
      { rewrite IH. split; intros (i & f0 & Hi & Hall & Hp); exists i, f0.
        - rewrite Nat.add_succ_r. repeat split; [exact Hi | | exact Hp].
          cbn [firstn] in *. now constructor.
        - rewrite Nat.add_succ_r in Hp. repeat split; [exact Hi | | exact Hp].
          cbn [firstn] in *. now inversion Hall. }
      assert (Hhead : probe_candidate (p_outcome env k f) = Some fmt <->
                      exists f0,
                        nth_error (f :: rest) 0 = Some f0
                        /\ Forall (fun g => g <> AV_PIX_FMT_NONE)
                                  (firstn 1 (f :: rest))
                        /\ probe_candidate (p_outcome env (k + 0) f0) = Some fmt).
      { rewrite Nat.add_0_r. split.
        - intros Hp. exists f. repeat split; [|exact Hp].
          cbn [firstn]. now repeat constructor.
        - intros (f0 & [= <-] & _ & Hp). exact Hp. }
      split.
      * intros Hin.
        destruct (probe_candidate (p_outcome env k f)) as [x|] eqn:Hc.
        -- destruct Hin as [Hx|Hin].
           ++ subst x. destruct (proj1 Hhead eq_refl) as (f0 & H).
              now exists 0%nat, f0.
           ++ destruct (proj1 Hrest Hin) as (i & f0 & H). now exists (S i), f0.
        -- destruct (proj1 Hrest Hin) as (i & f0 & H). now exists (S i), f0.
      * intros ([|i] & f0 & H).
        -- rewrite (proj2 Hhead (ex_intro _ f0 H)). now left.
        -- assert (Hin : In fmt (passed_from env rest (S k)))
             by (apply Hrest; now exists i, f0).
           destruct (probe_candidate (p_outcome env k f)); [now right | exact Hin].
Qed.

(** The candidates whose identifiers [determine_working_formats] appends:
    those listed before [AV_PIX_FMT_NONE] for which every step succeeds. *)
Lemma candidates_passed_In (env : probe_env) (fmt : Z) :
  In fmt (candidates_passed env) <->
  exists sw n f params,
    p_constraints env = Some sw
    /\ nth_error sw n = Some f
    /\ Forall (fun g => g <> AV_PIX_FMT_NONE) (firstn (S n) sw)
    /\ o_av_hwframe_ctx_alloc (p_outcome env n f) = true
    /\ 0 <= o_av_hwframe_ctx_init (p_outcome env n f)
    /\ o_av_frame_alloc (p_outcome env n f) = true
    /\ 0 <= o_av_hwframe_get_buffer (p_outcome env n f)
    /\ o_mp_image_from_av_frame (p_outcome env n f) = Some params
    /\ hw_subfmt params = fmt
    /\ o_mp_image_params_valid (p_outcome env n f) = true
    /\ o_ra_hwdec_mapper_create (p_outcome env n f) = true
    /\ 0 <= o_ra_hwdec_mapper_map (p_outcome env n f).
Proof.
  unfold candidates_passed. split.
  - destruct (p_constraints env) as [sw|]; [|contradiction].
    intros Hin. apply passed_from_In in Hin.
    destruct Hin as (i & f & Hi & Hall & Hp). cbn [Nat.add] in Hp.
    apply probe_candidate_Some in Hp.
    destruct Hp as (H1 & H2 & H3 & H4 & (params & H5 & H6) & H7 & H8 & H9).
    exists sw, i, f, params. now repeat split.
  - intros (sw & n & f & params & Hc & Hn & Hall & H1 & H2 & H3 & H4 & H5 & H6
            & H7 & H8 & H9).
    rewrite Hc. apply passed_from_In. exists n, f.
    split; [exact Hn|]. split; [exact Hall|]. cbn [Nat.add].
    apply probe_candidate_Some. repeat split; try assumption.
    exists params. now split.
Qed.

(** One entry per passing candidate, in increasing position. *)
Lemma passed_from_positions (env : probe_env) (sw : list Z) (k : nat) :
  exists idx,
    StronglySorted lt idx
    /\ Forall (fun n => (k <= n)%nat) idx
    /\ (forall n,
          In n idx <->
          exists fmt i f,
            n = (k + i)%nat /\ nth_error sw i = Some f
            /\ Forall (fun g => g <> AV_PIX_FMT_NONE) (firstn (S i) sw)
            /\ probe_candidate (p_outcome env n f) = Some fmt)
    /\ Forall2 (fun n fmt =>
                  exists i f,
                    n = (k + i)%nat /\ nth_error sw i = Some f
                    /\ Forall (fun g => g <> AV_PIX_FMT_NONE) (firstn (S i) sw)
                    /\ probe_candidate (p_outcome env n f) = Some fmt)
               idx (passed_from env sw k).
Proof.
  revert k. induction sw as [|f rest IH]; intros k.
  - exists []. cbn [passed_from]. repeat split; try constructor.
    + contradiction.
    + intros (fmt & i & f & _ & Hi & _). now destruct i.
  - cbn [passed_from]. destruct (f =? AV_PIX_FMT_NONE) eqn:Hn.
    + exists []. repeat split; try constructor; [contradiction|].
      intros (fmt & i & f0 & _ & _ & Hall & _).
      cbn [firstn] in Hall. inversion Hall as [|? ? Hf _]; subst.
      apply Z.eqb_eq in Hn. contradiction.
    + apply Z.eqb_neq in Hn.
      destruct (IH (S k)) as (idx & Hs & Hge & Hin & Hf2).
      assert (Hshift : forall n fmt,
                 (exists i f0,
                    n = (S k + i)%nat /\ nth_error rest i = Some f0
                    /\ Forall (fun g => g <> AV_PIX_FMT_NONE) (firstn (S i) rest)
                    /\ probe_candidate (p_outcome env n f0) = Some fmt) ->
                 exists i f0,
                   n = (k + i)%nat /\ nth_error (f :: rest) i = Some f0
                   /\ Forall (fun g => g <> AV_PIX_FMT_NONE)
                             (firstn (S i) (f :: rest))
                   /\ probe_candidate (p_outcome env n f0) = Some fmt).
      { intros n fmt (i & f0 & Hni & Hi & Hall & Hp). exists (S i), f0.
        split; [lia|]. split; [exact Hi|]. split; [|exact Hp].
        cbn [firstn] in *. now constructor. }
      assert (Hunshift : forall n fmt,
                 (exists i f0,
                    n = (k + i)%nat /\ nth_error (f :: rest) i = Some f0
                    /\ Forall (fun g => g <> AV_PIX_FMT_NONE)
                              (firstn (S i) (f :: rest))
                    /\ probe_candidate (p_outcome env n f0) = Some fmt) ->
                 (n = k /\ probe_candidate (p_outcome env k f) = Some fmt)
                 \/ exists i f0,
                      n = (S k + i)%nat /\ nth_error rest i = Some f0
                      /\ Forall (fun g => g <> AV_PIX_FMT_NONE) (firstn (S i) rest)
                      /\ probe_candidate (p_outcome env n f0) = Some fmt).
      { intros n fmt ([|i] & f0 & Hni & Hi & Hall & Hp).
        - left. cbn [nth_error] in Hi. injection Hi as <-.
          rewrite Nat.add_0_r in Hni. subst n. now split.
        - right. exists i, f0. split; [lia|]. split; [exact Hi|].
          split; [|exact Hp]. cbn [firstn] in *. now inversion Hall. }
      assert (Hhead : forall fmt,
                 probe_candidate (p_outcome env k f) = Some fmt ->
                 exists i f0,
                   k = (k + i)%nat /\ nth_error (f :: rest) i = Some f0
                   /\ Forall (fun g => g <> AV_PIX_FMT_NONE)
                             (firstn (S i) (f :: rest))
                   /\ probe_candidate (p_outcome env k f0) = Some fmt).
      { intros fmt Hp. exists 0%nat, f. split; [lia|]. split; [reflexivity|].
        split; [|exact Hp]. cbn [firstn]. now repeat constructor. }
      assert (Hgt : Forall (fun n => (k < n)%nat) idx).
      { eapply Forall_impl; [|exact Hge]. intros a Ha. cbv beta in Ha. lia. }
      assert (Hge' : Forall (fun n => (k <= n)%nat) idx).
      { eapply Forall_impl; [|exact Hge]. intros a Ha. cbv beta in Ha. lia. }
      destruct (probe_candidate (p_outcome env k f)) as [x|] eqn:Hc.
      * exists (k :: idx). split; [|split; [|split]].
        -- constructor; assumption.
        -- constructor; [lia | exact Hge'].
        -- intros n. split.
           ++ intros [<-|H].
              ** exists x. apply Hhead. reflexivity.
              ** apply Hin in H. destruct H as (fmt & H). exists fmt. now apply Hshift.
           ++ intros (fmt & H). destruct (Hunshift _ _ H) as [[-> _]|H']; [now left|].
              right. apply Hin. now exists fmt.
        -- constructor; [apply Hhead; reflexivity|].
           eapply Forall2_impl; [|exact Hf2]. exact Hshift.
      * exists idx. split; [exact Hs|]. split; [exact Hge'|]. split.
        -- intros n. split.
           ++ intros H. apply Hin in H. destruct H as (fmt & H). exists fmt.
              now apply Hshift.
           ++ intros (fmt & H). destruct (Hunshift _ _ H) as [[_ Hk]|H'];
                [discriminate|]. apply Hin. now exists fmt.
        -- eapply Forall2_impl; [|exact Hf2]. exact Hshift.
Qed.

Lemma candidate_passes_iff (env : probe_env) (n : nat) (fmt : Z) :
  candidate_passes env n fmt <->
  exists sw f,
    p_constraints env = Some sw /\ nth_error sw n = Some f
    /\ Forall (fun g => g <> AV_PIX_FMT_NONE) (firstn (S n) sw)
    /\ probe_candidate (p_outcome env n f) = Some fmt.
Proof.
  unfold candidate_passes. split.
  - intros (sw & f & params & Hc & Hn & Hall & H1 & H2 & H3 & H4 & H5 & H6
            & H7 & H8 & H9).
    exists sw, f. repeat split; try assumption.
    apply probe_candidate_Some. repeat split; try assumption.
    exists params. now split.
  - intros (sw & f & Hc & Hn & Hall & Hp). apply probe_candidate_Some in Hp.
    destruct Hp as (H1 & H2 & H3 & H4 & (params & H5 & H6) & H7 & H8 & H9).
    exists sw, f, params. now repeat split.
Qed.

Lemma candidate_passes_functional (env : probe_env) (n : nat) (a b : Z) :
  candidate_passes env n a -> candidate_passes env n b -> a = b.
Proof.
  intros Ha Hb. apply candidate_passes_iff in Ha, Hb.
  destruct Ha as (sw & f & Hc & Hn & _ & Hp).
  destruct Hb as (sw' & f' & Hc' & Hn' & _ & Hp').
  rewrite Hc in Hc'. injection Hc' as <-.
  rewrite Hn in Hn'. injection Hn' as <-.
  rewrite Hp in Hp'. now injection Hp'.
Qed.

(** The array lists one identifier per passing candidate, by increasing
    position in the driver's list. *)
Lemma candidates_passed_positions (env : probe_env) :
  exists idx,
    StronglySorted lt idx
    /\ (forall n, In n idx <-> exists fmt, candidate_passes env n fmt)
    /\ Forall2 (candidate_passes env) idx (candidates_passed env).
Proof.
  unfold candidates_passed. destruct (p_constraints env) as [sw|] eqn:Hc.
  - destruct (passed_from_positions env sw 0) as (idx & Hs & _ & Hin & Hf2).
    exists idx. split; [exact Hs|]. split.
    + intros n. rewrite Hin. split.
      * intros (fmt & i & f & Hni & Hi & Hall & Hp). cbn [Nat.add] in Hni. subst i.
        exists fmt. apply candidate_passes_iff. now exists sw, f.
      * intros (fmt & H). apply candidate_passes_iff in H.
        destruct H as (sw' & f & Hc' & Hn & Hall & Hp).
        rewrite Hc in Hc'. injection Hc' as <-.
        exists fmt, n, f. now repeat split.
    + eapply Forall2_impl; [|exact Hf2].
      intros n fmt (i & f & Hni & Hi & Hall & Hp). cbn [Nat.add] in Hni. subst i.
      apply candidate_passes_iff. now exists sw, f.
  - exists []. split; [constructor|]. split; [|constructor].
    intros n. split; [contradiction|].
    intros (fmt & H). apply candidate_passes_iff in H.
    destruct H as (sw & f & Hc' & _). rewrite Hc in Hc'. discriminate.
Qed.

Lemma sorted_positions_NoDup (idx : list nat) :
  StronglySorted lt idx -> NoDup idx.
Proof.
  induction 1 as [|n idx Hs IH Hall]; constructor; [|exact IH].
  intros Hin. rewrite Forall_forall in Hall. specialize (Hall n Hin). lia.
Qed.

Lemma Forall2_In_r {A B} (R : A -> B -> Prop) (idx : list A) (l : list B) (a : B) :
  Forall2 R idx l -> In a l -> exists n, In n idx /\ R n a.
Proof.
  induction 1 as [|n0 a0 idx0 l0 HR HF IH]; [contradiction|].
  intros [<-|Hin].
  - exists n0. split; [now left | exact HR].
  - destruct (IH Hin) as (n & Hn & HRn). exists n. split; [now right | exact HRn].
Qed.

Lemma Forall2_In_l {A B} (R : A -> B -> Prop) (idx : list A) (l : list B) (n : A) :
  Forall2 R idx l -> In n idx -> exists a, In a l /\ R n a.
Proof.
  induction 1 as [|n0 a0 idx0 l0 HR HF IH]; [contradiction|].
  intros [<-|Hin].
  - exists a0. split; [now left | exact HR].
  - destruct (IH Hin) as (a & Ha & HRa). exists a. split; [now right | exact HRa].
Qed.

(** A list of values read off distinct positions repeats a value exactly
    when two positions carry it. *)
Lemma Forall2_NoDup_positions {A B} (R : A -> B -> Prop) (idx : list A) (l : list B) :
  (forall n a b, R n a -> R n b -> a = b) ->
  NoDup idx -> Forall2 R idx l ->
  (NoDup l <->
   forall n1 n2 a, In n1 idx -> In n2 idx -> R n1 a -> R n2 a -> n1 = n2).
Proof.
  intros Hfun Hnd HF. induction HF as [|n0 a0 idx0 l0 HR HF IH].
  - split; [intros _ n1 n2 a []|intros _; constructor].
  - inversion Hnd as [|? ? Hnotin Hnd0]; subst. specialize (IH Hnd0). split.
    + intros Hl. inversion Hl as [|? ? Hnotin' Hl0]; subst.
      assert (Hclash : forall n a, In n idx0 -> R n0 a -> R n a -> False).
      { intros n a Hn H0 Hna. apply Hnotin'.
        rewrite (Hfun _ _ _ HR H0).
        destruct (Forall2_In_l R idx0 l0 n HF Hn) as (a' & Ha' & HRa').
        now rewrite (Hfun _ _ _ Hna HRa'). }
      intros n1 n2 a [<-|H1] [<-|H2] R1 R2.
      * reflexivity.
      * exfalso. exact (Hclash n2 a H2 R1 R2).
      * exfalso. exact (Hclash n1 a H1 R2 R1).
      * exact (proj1 IH Hl0 n1 n2 a H1 H2 R1 R2).
    + intros Hinj. constructor.
      * intros Hin. destruct (Forall2_In_r R idx0 l0 a0 HF Hin) as (n & Hn & HRn).
        apply Hnotin.
        rewrite <- (Hinj n n0 a0 (or_intror Hn) (or_introl eq_refl) HRn HR).
        exact Hn.
      * apply IH. intros n1 n2 a H1 H2. apply Hinj; now right.
Qed.

(** Nothing is removed from the array: it is free of duplicates exactly
    when no two passing candidates carry the same identifier. *)
Lemma candidates_passed_NoDup (env : probe_env) :
  NoDup (candidates_passed env) <->
  forall n1 n2 fmt,
    candidate_passes env n1 fmt -> candidate_passes env n2 fmt -> n1 = n2.
Proof.
  destruct (candidates_passed_positions env) as (idx & Hs & Hin & Hf2).
  rewrite (Forall2_NoDup_positions _ _ _ (candidate_passes_functional env)
             (sorted_positions_NoDup _ Hs) Hf2).
  split.
  - intros H n1 n2 fmt H1 H2.
    apply (H n1 n2 fmt); try assumption; apply Hin; now exists fmt.
  - intros H n1 n2 fmt _ _. apply H.
Qed.

Lemma log_formats_run {St} (fs : list Z) (s : St) :
  log_formats fs s = (tt, s, map (Msg_imgfmt MSGL_V " %s") (real_entries fs)).
Proof.
  induction fs as [|f rest IH]; [reflexivity|].
  cbn [log_formats real_entries]. destruct (f =? 0); [reflexivity|].
  rewrite bind_emit, IH. reflexivity.
Qed.

(** What [determine_working_formats] leaves: the list of the candidates
    that passed, terminated, with the probing flag clear again; the rest of
    the device state is untouched. *)
Lemma determine_working_formats_unfold (env : probe_env) (hw : ra_hwdec) :
  exists t,
    determine_working_formats env hw
    = (tt,
       with_hw_priv
         (fun p => set_probing_formats false
                     (set_formats (Some (candidates_passed env ++ [0])) p)) hw,
       t ++ Msg MSGL_V "Supported formats:"
         :: map (Msg_imgfmt MSGL_V " %s")
                (real_entries (candidates_passed env ++ [0])))
    /\ Forall (fun e =>
                 e = Msg MSGL_WARN "failed to retrieve libavutil frame constraints"
                 \/ exists params,
                      e = Call_ra_hwdec_mapper_create
                            (set_probing_formats true (hw_priv hw)) params) t
    /\ (forall fmt, In fmt (candidates_passed env) ->
          exists params,
            hw_subfmt params = fmt
            /\ In (Call_ra_hwdec_mapper_create
                     (set_probing_formats true (hw_priv hw)) params) t).
Proof.
  unfold determine_working_formats, candidates_passed.
  destruct (p_constraints env) as [sw|].
  - destruct (probe_loop_run env sw 0 [] (with_hw_priv (set_probing_formats true) hw))
      as (t & E & F & I).
    exists t. cbn [app] in E.
    cbv beta iota zeta delta [bind modify emit].
    rewrite E. rewrite log_formats_run.
    split; [reflexivity|]. split; [|exact I].
    eapply Forall_impl; [|exact F]. intros e He. right. exact He.
  - exists [Msg MSGL_WARN "failed to retrieve libavutil frame constraints"].
    cbv beta iota zeta delta [bind modify ret emit].
    rewrite log_formats_run.
    split; [reflexivity|]. split; [|contradiction].
    constructor; [now left | constructor].
Qed.

Lemma determine_working_formats_state (env : probe_env) (hw : ra_hwdec) :
  state_of (determine_working_formats env hw)
  = with_hw_priv
      (fun p => set_probing_formats false
                  (set_formats (Some (candidates_passed env ++ [0])) p)) hw.
Proof.
  destruct (determine_working_formats_unfold env hw) as (t & E & _).
  now rewrite E.
Qed.

(** Probing makes no call of [init]'s own and registers nothing. *)
Lemma determine_working_formats_quiet (env : probe_env) (hw : ra_hwdec) :
  filter is_init_core (trace_of (determine_working_formats env hw)) = []
  /\ filter is_devices_add (trace_of (determine_working_formats env hw)) = [].
Proof.
  destruct (determine_working_formats_unfold env hw) as (t & E & F & _).
  rewrite E. cbn [trace_of snd]. rewrite !filter_app.
  assert (Ht : filter is_init_core t = [] /\ filter is_devices_add t = []).
  { clear E. induction F as [|e t He F IH]; [now split|].
    destruct IH as (IH1 & IH2).
    destruct He as [->|(params & ->)]; cbn [filter is_init_core is_devices_add];
      now split. }
  destruct Ht as (-> & ->). cbn [app filter is_init_core is_devices_add].
  clear E F.
  split; induction (real_entries _) as [|x l IH]; try reflexivity; exact IH.
Qed.

Lemma determine_working_formats_run (env : probe_env) (hw : ra_hwdec) :
  let hw' := state_of (determine_working_formats env hw) in
  formats (hw_priv hw') = Some (candidates_passed env ++ [0])
  /\ probing_formats (hw_priv hw') = false
  /\ hw_devs hw' = hw_devs hw
  /\ hw_probing hw' = hw_probing hw
  /\ ctx (hw_priv hw') = ctx (hw_priv hw)
  /\ filter is_devices_add (trace_of (determine_working_formats env hw)) = [].
Proof.
  cbv zeta. rewrite determine_working_formats_state.
  repeat split. apply determine_working_formats_quiet.
Qed.

(** C9, as the claim has it, fails.  The device is as [init] leaves it
    when it starts probing; the driver lists a pixel format twice, both
    trial mappings pass, and the list holds the identifier twice. *)
Lemma probing_keeps_duplicates :
  ~ NoDup (supported_list
             (hw_priv (state_of (determine_working_formats probe_env_twice
                                   probing_hwdec)))).
Proof.
  vm_compute. intros H. inversion H as [|x l Hnotin Hnd]; subst.
  apply Hnotin. now left.
Qed.

(** C9, amended.  On a device whose context is created, with its device
    reference, [determine_working_formats] stores the array of the
    identifiers of the candidates that pass, one entry per passing
    candidate, by increasing position in the driver's list, with the
    terminator 0 after them.  Nothing is removed: the array is free of
    duplicates exactly when no two passing candidates carry the same
    identifier.  The list read from the array is those identifiers up to the
    first 0: all of them when none is 0, and then free of duplicates under
    the same condition.  The list is not consulted before probing is over:
    every mapper creation of a trial finds the probing flag set and the
    array as it was on entry, and [mapper_init] on such a device makes no
    [check_fmt] call; there is such a creation for every identifier stored;
    the flag is clear on return, and while it is set the result of
    [mapper_init] does not depend on the array. *)
Theorem supported_list_from_probing (env : probe_env) (hw : ra_hwdec) :
  (exists c, ctx (hw_priv hw) = Some c /\ av_device_ref c <> None) ->
  let r := determine_working_formats env hw in
  let hw' := state_of r in
  let passed := candidates_passed env in
  let distinct :=
    forall n1 n2 fmt,
      candidate_passes env n1 fmt -> candidate_passes env n2 fmt -> n1 = n2 in
  formats (hw_priv hw') = Some (passed ++ [0])
  /\ (exists idx,
        StronglySorted lt idx
        /\ (forall n, In n idx <-> exists fmt, candidate_passes env n fmt)
        /\ Forall2 (candidate_passes env) idx passed)
  /\ (forall fmt, In fmt passed <-> exists n, candidate_passes env n fmt)
  /\ (NoDup passed <-> distinct)
  /\ supported_list (hw_priv hw') = real_entries passed
  /\ (NoDup passed -> NoDup (supported_list (hw_priv hw')))
  /\ (Forall (fun f => f <> 0) passed ->
      supported_list (hw_priv hw') = passed
      /\ (NoDup (supported_list (hw_priv hw')) <-> distinct))
  /\ probing_formats (hw_priv hw') = false
  /\ (forall o params,
        In (Call_ra_hwdec_mapper_create o params) (trace_of r) ->
        probing_formats o = true
        /\ formats o = formats (hw_priv hw)
        /\ forall menv m,
             m_owner m = o ->
             filter is_check_fmt (trace_of (mapper_init menv m)) = [])
  /\ (forall fmt,
        In fmt passed ->
        exists params,
          hw_subfmt params = fmt
          /\ In (Call_ra_hwdec_mapper_create
                   (set_probing_formats true (hw_priv hw)) params) (trace_of r))
  /\ (forall menv m,
        probing_formats (m_owner m) = true ->
        filter is_check_fmt (trace_of (mapper_init menv m)) = []
        /\ forall fs,
             result (mapper_init menv (with_owner (set_formats fs (m_owner m)) m))
             = result (mapper_init menv m)).
Proof.
  intros _. cbv zeta.
  pose proof (determine_working_formats_run env hw) as (Hf & Hp & _).
  destruct (determine_working_formats_unfold env hw) as (t & E & F & I).
  assert (Hl : supported_list (hw_priv (state_of (determine_working_formats env hw)))
               = real_entries (candidates_passed env)).
  { unfold supported_list. rewrite Hf. apply real_entries_terminated. }
  assert (Hquiet : forall menv m,
             probing_formats (m_owner m) = true ->
             filter is_check_fmt (trace_of (mapper_init menv m)) = []).
  { intros menv m Hpm. pose proof (mapper_init_run menv m) as (_ & Hc & _).
    rewrite Hc, Hpm. cbn [negb]. now rewrite andb_false_r. }
  split; [exact Hf|]. split; [exact (candidates_passed_positions env)|].
  split; [|split; [exact (candidates_passed_NoDup env)|]].
  { intros fmt. rewrite candidates_passed_In. unfold candidate_passes. split.
    - intros (sw & n & f & params & H). now exists n, sw, f, params.
    - intros (n & sw & f & params & H). now exists sw, n, f, params. }
  split; [exact Hl|]. split; [|split; [|split; [exact Hp|split; [|split]]]].
  - intros Hnd. rewrite Hl. now apply real_entries_NoDup.
  - intros Hnz. rewrite Hl, (real_entries_all _ Hnz).
    split; [reflexivity | exact (candidates_passed_NoDup env)].
  - intros o params Hin. rewrite E in Hin. cbn [trace_of snd] in Hin.
    apply in_app_iff in Hin. destruct Hin as [Hin|Hin].
    + rewrite Forall_forall in F. destruct (F _ Hin) as [H|(params' & H)];
        [discriminate|].
      injection H as -> _. cbn [probing_formats formats set_probing_formats].
      split; [reflexivity|]. split; [reflexivity|].
      intros menv m Hm. apply Hquiet. now rewrite Hm.
    + exfalso. destruct Hin as [H|Hin]; [discriminate|].
      apply in_map_iff in Hin. destruct Hin as (x & H & _). discriminate.
  - intros fmt Hin. destruct (I fmt Hin) as (params & Hs & Ht).
    exists params. split; [exact Hs|].
    rewrite E. cbn [trace_of snd]. apply in_app_iff. now left.
  - intros menv m Hpm. split; [now apply Hquiet|].
    intros fs.
    pose proof (mapper_init_run menv m) as (Hr & _).
    pose proof (mapper_init_run menv (with_owner (set_formats fs (m_owner m)) m))
      as (Hr' & _).
    rewrite Hr, Hr'. destruct m as [o p t' src sp dp]. cbn in Hpm.
    unfold reaches_format_check. cbn. rewrite Hpm. reflexivity.
Qed.

(** Two pixel formats with different identifiers, both passing: the list is
    the two identifiers, free of duplicates, and the second one was tried by
    a mapper created while the device was in probing mode. *)
Lemma supported_list_from_probing_witness :
  supported_list
    (hw_priv (state_of (determine_working_formats probe_env_two probing_hwdec)))
  = [1003; 1005]
  /\ NoDup (supported_list
              (hw_priv (state_of (determine_working_formats probe_env_two
                                    probing_hwdec))))
  /\ exists params,
       hw_subfmt params = 1005
       /\ In (Call_ra_hwdec_mapper_create
                (set_probing_formats true (hw_priv probing_hwdec)) params)
             (trace_of (determine_working_formats probe_env_two probing_hwdec)).
Proof.
  pose proof (supported_list_from_probing probe_env_two probing_hwdec
                (ex_intro _ sample_ctx (conj eq_refl
                   (fun H : Some 1 = None => eq_ind (Some 1)
                      (fun o => match o with Some _ => True | None => False end)
                      I None H))))
    as (_ & _ & _ & Hnd & Hl & Hkeep & _ & _ & _ & Htried & _).
  cbv zeta in Hnd, Hl, Hkeep, Htried.
  assert (Hpassed : NoDup (candidates_passed probe_env_two))
    by (repeat constructor; cbn; intuition discriminate).
  split; [exact Hl|]. split.
  - exact (Hkeep Hpassed).
  - apply Htried. right. now left.
Defined.

(** ** Native display acquisition *)

Lemma create_native_va_display_from_spec {St} (cbs : list va_create_native)
    (ra : display_env) (s : St) :
  let r := create_native_va_display_from cbs ra s in
  state_of r = s
  /\ filter is_devices_add (trace_of r) = []
  /\ match result r with
     | Some d =>
         exists pre cb post,
           cbs = pre ++ cb :: post
           /\ Forall (fun c => create c ra = None) pre
           /\ create cb ra = Some d
           /\ filter is_create_display (trace_of r)
              = map (fun c => Call_create_display (name c)) (pre ++ [cb])
     | None =>
         Forall (fun c => create c ra = None) cbs
         /\ filter is_create_display (trace_of r)
            = map (fun c => Call_create_display (name c)) cbs
     end.
Proof.
  cbv zeta. induction cbs as [|disp rest IH].
  - cbn. repeat split; constructor.
  - cbn [create_native_va_display_from]. rewrite !bind_emit.
    destruct (create disp ra) as [d|] eqn:Hc.
    + cbn. repeat split.
      exists [], disp, rest. cbn. repeat split; [constructor | exact Hc].
    + unfold result, state_of, trace_of in *.
      destruct (create_native_va_display_from rest ra s) as [[r s'] t].
      cbn [fst snd] in *. destruct IH as (Hs & Hd & IH).
      split; [exact Hs|]. split; [exact Hd|].
      cbn [filter is_create_display].
      destruct r as [d|].
      * destruct IH as (pre & cb & post & Hcbs & Hpre & Hcb & Ht).
        exists (disp :: pre), cb, post. rewrite Hcbs, Ht.
        repeat split; [constructor; assumption | exact Hcb].
      * destruct IH as (Hall & Ht). rewrite Ht.
        split; [constructor; assumption | reflexivity].
Qed.

(** The acquirer spelled out over the renderer's resources and libva's
    constructors: what it returns and which providers it asks. *)
Lemma create_native_va_display_explicit {St} (cfg : build_config)
    (ra : display_env) (s : St) :
  let r := create_native_va_display cfg ra s in
  let x11 :=
    if HAVE_VAAPI_X11 cfg
    then match ra_get_native_resource ra "x11" with
         | Some x => vaGetDisplay ra (res_ptr x)
         | None => None
         end
    else None in
  let wayland :=
    if HAVE_VAAPI_WAYLAND cfg
    then match ra_get_native_resource ra "wl" with
         | Some w => vaGetDisplayWl ra (res_ptr w)
         | None => None
         end
    else None in
  let drm :=
    if HAVE_VAAPI_DRM cfg
    then match ra_get_native_resource ra "drm_params" with
         | Some params =>
             if render_fd params <? 0 then None
             else vaGetDisplayDRM ra (render_fd params)
         | None => None
         end
    else None in
  result r
  = match x11 with
    | Some d => Some d
    | None => match wayland with
              | Some d => Some d
              | None => drm
              end
    end
  /\ filter is_create_display (trace_of r)
     = (if HAVE_VAAPI_X11 cfg then [Call_create_display "x11"] else [])
       ++ (if HAVE_VAAPI_WAYLAND cfg
           then match x11 with
                | None => [Call_create_display "wayland"]
                | Some _ => []
                end
           else [])
       ++ (if HAVE_VAAPI_DRM cfg
           then match x11, wayland with
                | None, None => [Call_create_display "drm"]
                | _, _ => []
                end
           else []).
Proof.
  cbv zeta.
  unfold create_native_va_display, create_native_cbs, create_x11_va_display,
    create_wayland_va_display, create_drm_va_display.
  destruct (HAVE_VAAPI_X11 cfg), (HAVE_VAAPI_WAYLAND cfg), (HAVE_VAAPI_DRM cfg);
    cbn [app create_native_va_display_from name create];
    cbv beta iota zeta delta [bind emit ret result trace_of fst snd];
    repeat match goal with
           | |- context [ra_get_native_resource ra ?k] =>
               destruct (ra_get_native_resource ra k) as [?res|]
           | |- context [vaGetDisplay ra ?x] => destruct (vaGetDisplay ra x)
           | |- context [vaGetDisplayWl ra ?x] => destruct (vaGetDisplayWl ra x)
           | |- context [vaGetDisplayDRM ra ?x] => destruct (vaGetDisplayDRM ra x)
           | |- context [render_fd ?x <? 0] => destruct (render_fd x <? 0)
           end;
    split; reflexivity.
Qed.

(** C7. The providers are tried in the order X11, Wayland, DRM, as far as
    compiled in: the X11 provider turns the renderer's ["x11"] resource into
    a display with [vaGetDisplay], the Wayland provider the ["wl"] resource
    with [vaGetDisplayWl], the DRM provider the [render_fd] of
    ["drm_params"], unless negative, with [vaGetDisplayDRM].  The result is
    the display of the first provider, in that order, that yields one, those
    before it having yielded NULL and those after it not being asked; it is
    NULL exactly when every compiled-in provider yields NULL.  No state
    changes and nothing is reported as an error. *)
Theorem create_native_va_display_first {St} (cfg : build_config)
    (ra : display_env) (s : St) :
  let r := create_native_va_display cfg ra s in
  let x11 :=
    if HAVE_VAAPI_X11 cfg
    then match ra_get_native_resource ra "x11" with
         | Some x => vaGetDisplay ra (res_ptr x)
         | None => None
         end
    else None in
  let wayland :=
    if HAVE_VAAPI_WAYLAND cfg
    then match ra_get_native_resource ra "wl" with
         | Some w => vaGetDisplayWl ra (res_ptr w)
         | None => None
         end
    else None in
  let drm :=
    if HAVE_VAAPI_DRM cfg
    then match ra_get_native_resource ra "drm_params" with
         | Some params =>
             if render_fd params <? 0 then None
             else vaGetDisplayDRM ra (render_fd params)
         | None => None
         end
    else None in
  map name (create_native_cbs cfg)
  = (if HAVE_VAAPI_X11 cfg then ["x11"] else [])
    ++ (if HAVE_VAAPI_WAYLAND cfg then ["wayland"] else [])
    ++ (if HAVE_VAAPI_DRM cfg then ["drm"] else [])
  /\ state_of r = s
  /\ match result r with
     | Some d =>
         exists pre cb post,
           create_native_cbs cfg = pre ++ cb :: post
           /\ Forall (fun c => create c ra = None) pre
           /\ create cb ra = Some d
           /\ filter is_create_display (trace_of r)
              = map (fun c => Call_create_display (name c)) (pre ++ [cb])
     | None =>
         Forall (fun c => create c ra = None) (create_native_cbs cfg)
         /\ filter is_create_display (trace_of r)
            = map (fun c => Call_create_display (name c)) (create_native_cbs cfg)
     end
  /\ Forall (fun e => match e with
                      | Msg MSGL_FATAL _ | Msg MSGL_ERR _ | Msg MSGL_WARN _ => False
                      | _ => True
                      end) (trace_of r)
  /\ result r
     = match x11 with
       | Some d => Some d
       | None => match wayland with
                 | Some d => Some d
                 | None => drm
                 end
       end
  /\ (result r = None <-> x11 = None /\ wayland = None /\ drm = None)
  /\ filter is_create_display (trace_of r)
     = (if HAVE_VAAPI_X11 cfg then [Call_create_display "x11"] else [])
       ++ (if HAVE_VAAPI_WAYLAND cfg
           then match x11 with
                | None => [Call_create_display "wayland"]
                | Some _ => []
                end
           else [])
       ++ (if HAVE_VAAPI_DRM cfg
           then match x11, wayland with
                | None, None => [Call_create_display "drm"]
                | _, _ => []
                end
           else []).
Proof.
  cbv zeta.
  pose proof (create_native_va_display_explicit cfg ra s) as (Hres & Htr).
  cbv zeta in Hres, Htr.
  split; [|split; [|split; [|split; [|split; [exact Hres|split; [|exact Htr]]]]]].
  - unfold create_native_cbs.
    destruct (HAVE_VAAPI_X11 cfg), (HAVE_VAAPI_WAYLAND cfg), (HAVE_VAAPI_DRM cfg);
      reflexivity.
  - apply (create_native_va_display_from_spec (create_native_cbs cfg) ra s).
  - apply (create_native_va_display_from_spec (create_native_cbs cfg) ra s).
  - unfold create_native_va_display.
    induction (create_native_cbs cfg) as [|disp rest IH]; [constructor|].
    cbn [create_native_va_display_from]. rewrite !bind_emit.
    destruct (create disp ra) as [d|].
    + cbn. repeat constructor.
    + unfold trace_of in *.
      destruct (create_native_va_display_from rest ra s) as [[r s'] t].
      cbn [snd] in *. repeat constructor. exact IH.
  - rewrite Hres. clear Hres Htr.
    repeat match goal with
           | |- context [if ?b then _ else _] => destruct b
           | |- context [match ?x with Some _ => _ | None => _ end] => destruct x
           end;
      split; try (intros H; discriminate H);
      try (intros (H1 & H2 & H3); discriminate);
      now repeat split.
Qed.

(** A build with the three providers on a renderer that has only a Wayland
    display: X11 is asked first and yields NULL, Wayland is asked next and
    yields the display, DRM is not asked. *)
Lemma create_native_va_display_first_witness :
  result (create_native_va_display config_all ra_wayland_only tt) = Some 2
  /\ filter is_create_display
       (trace_of (create_native_va_display config_all ra_wayland_only tt))
     = [Call_create_display "x11"; Call_create_display "wayland"].
Proof.
  split.
  - exact (proj1 (proj2 (proj2 (proj2 (proj2
             (create_native_va_display_first config_all ra_wayland_only tt)))))).
  - exact (proj2 (proj2 (proj2 (proj2 (proj2 (proj2
             (create_native_va_display_first config_all ra_wayland_only tt))))))).
Defined.

(** A renderer with only a Wayland display: X11 is tried first and yields
    NULL, Wayland is tried next and succeeds, DRM is not tried. *)
Example wayland_after_x11 :
  result (create_native_va_display config_all ra_wayland_only tt) = Some 2
  /\ filter is_create_display
       (trace_of (create_native_va_display config_all ra_wayland_only tt))
     = [Call_create_display "x11"; Call_create_display "wayland"].
Proof. vm_compute. split; reflexivity. Qed.

(** ** init *)

Lemma init_interop_loop_facts (env : init_env) (inits : list (option interop_backend))
    (hw : ra_hwdec) :
  let r := init_interop_loop env inits hw in
  hw_devs (state_of r) = hw_devs hw
  /\ hw_probing (state_of r) = hw_probing hw
  /\ filter is_devices_add (trace_of r) = [].
Proof.
  cbv zeta. revert hw. induction inits as [|[b|] rest IH]; intros hw;
    try (cbn; repeat split; reflexivity).
  cbn [init_interop_loop].
  cbv beta iota zeta delta [bind get modify emit].
  destruct (fst (i_interop_init env b (hw_priv hw))).
  - cbn. repeat split; reflexivity.
  - match goal with
    | |- context [init_interop_loop env rest ?h] => specialize (IH h)
    end.
    unfold state_of, trace_of in *.
    destruct (init_interop_loop env rest _) as [[u hw1] t1].
    cbn [fst snd app filter is_devices_add] in *. exact IH.
Qed.

(** The tail of [init]: probing, the check of the list, registration. *)
Ltac after_probing :=
  lazymatch goal with
  | Hadd : filter is_devices_add _ = [], Hdadd : filter is_devices_add _ = []
    |- context [determine_working_formats ?pe ?h] =>
      let Hf := fresh "Hf" in
      let Hd := fresh "Hd" in
      let Hdw := fresh "Hdw" in
      let Hz := fresh "Hz" in
      pose proof (determine_working_formats_run pe h) as (Hf & _ & Hd & _ & _ & Hdw);
      unfold state_of, trace_of in *;
      destruct (determine_working_formats pe h) as [[? ?] ?];
      cbn [fst snd] in *; rewrite Hf;
      destruct (fmt_at (candidates_passed pe ++ [0]) 0 =? 0) eqn:Hz;
      [ cbn [fst snd app]; rewrite Hd; cbn [hw_devs with_hw_priv];
        repeat (progress (rewrite ?filter_app, ?app_nil_r;
                          cbn [filter is_devices_add app]));
        rewrite Hadd, Hdadd, Hdw;
        repeat split; auto; discriminate
      | cbn [fst snd hwdec_devices_add hw_devs hw_priv with_hw_priv set_ctx formats];
        rewrite Hd; cbn [hw_devs with_hw_priv];
        repeat split; auto; try discriminate;
        try (cbn [hwctx set_hwctx]; congruence);
        unfold fmt_at in Hz;
        destruct (candidates_passed pe ++ [0]) as [|? ?];
        first [ discriminate
              | cbn [nth] in Hz; cbn [real_entries]; rewrite Hz; discriminate ] ]
  end.

(** [init], once the backend selection has run. *)
Lemma init_run (cfg : build_config) (env : init_env) (hw : ra_hwdec) :
  let sel := init_interop_loop env (interop_inits cfg) hw in
  let r := init cfg env hw in
  (interop_map (hw_priv (state_of sel)) && interop_unmap (hw_priv (state_of sel)) = false ->
   r = (-1, state_of sel,
        trace_of sel
        ++ [Msg MSGL_V "VAAPI hwdec only works with OpenGL or Vulkan backends."]))
  /\ (result r = 0 \/ result r = -1)
  /\ (result r = -1 ->
      hw_devs (state_of r) = hw_devs hw
      /\ filter is_devices_add (trace_of r) = [])
  /\ (result r = 0 ->
      let fs := candidates_passed (i_probe env) ++ [0] in
      real_entries fs <> []
      /\ formats (hw_priv (state_of r)) = Some fs
      /\ hw_devs (state_of r) = hw_devs hw ++ [mk_hwctx (Some fs) (Some driver_name_vaegl)]
      /\ interop_map (hw_priv (state_of sel)) = true
      /\ interop_unmap (hw_priv (state_of sel)) = true).
Proof.
  cbv zeta. unfold init.
  pose proof (init_interop_loop_facts env (interop_inits cfg) hw) as (Hdevs & Hprob & Hadd).
  cbv beta iota zeta delta [bind get].
  unfold result, state_of, trace_of in *.
  destruct (init_interop_loop env (interop_inits cfg) hw) as [[u hw1] t1].
  cbn [fst snd] in *.
  destruct (interop_map (hw_priv hw1)) eqn:Hm; cbn [negb orb andb];
    [destruct (interop_unmap (hw_priv hw1)) eqn:Hu; cbn [negb orb andb]|].
  2,3: cbn; rewrite filter_app, Hadd; repeat split; auto; discriminate.
  split; [discriminate|].
  pose proof (create_native_va_display_from_spec (create_native_cbs cfg)
                (i_display env) hw1) as (Hs & Hdadd & _).
  unfold create_native_va_display, state_of, trace_of in *.
  destruct (create_native_va_display_from (create_native_cbs cfg) (i_display env) hw1)
    as [[d hw2] t2].
  cbn [fst snd] in *. subst hw2.
  destruct d as [d|];
    [|cbn; rewrite !filter_app, Hadd, Hdadd; repeat split; auto; discriminate].
  cbv beta iota zeta delta [modify emit ret].
  destruct (i_va_initialize env) as [c|];
    [|cbn; rewrite !filter_app, Hadd, Hdadd; repeat split; auto; discriminate].
  destruct (av_device_ref c) as [ref|];
    [|cbn; rewrite !filter_app, Hadd, Hdadd; repeat split; auto; discriminate].
  rewrite Hprob.
  destruct (hw_probing hw) eqn:Hp; [destruct (i_va_guess_if_emulated env) eqn:Hg|];
    cbv beta iota zeta.
  1: { cbn. rewrite !filter_app, Hadd, Hdadd. repeat split; auto; discriminate. }
  1: after_probing.
  after_probing.
Qed.



(** With every backend compiled in and an OpenGL initialiser that declines,
    both are tried, in order; the rest of [init] then runs. *)
Example gl_declines_then_vulkan :
  filter (fun e => match e with Call_interop_backend_init _ => true | _ => false end)
         (trace_of (init config_all init_env_one_format blank_hwdec))
  = [Call_interop_backend_init vaapi_gl; Call_interop_backend_init vaapi_vk]
  /\ result (init config_all init_env_one_format blank_hwdec) = 0
  /\ hw_devs (state_of (init config_all init_env_one_format blank_hwdec))
     = [mk_hwctx (Some [1003; 0]) (Some "vaapi-egl")].
Proof. vm_compute. repeat split; reflexivity. Qed.

(** X3. What a successful [init] leaves: a list with at least one real
    entry, registered with the renderer. *)
Lemma init_success_has_formats (cfg : build_config) (env : init_env) (hw : ra_hwdec) :
  result (init cfg env hw) = 0 ->
  supported_list (hw_priv (state_of (init cfg env hw))) <> []
  /\ hw_devs (state_of (init cfg env hw))
     = hw_devs hw
       ++ [mk_hwctx (formats (hw_priv (state_of (init cfg env hw))))
                    (Some driver_name_vaegl)].
Proof.
  intros H0. pose proof (init_run cfg env hw) as (_ & _ & _ & Hok). cbv zeta in Hok.
  destruct (Hok H0) as (Hne & Hf & Hd & _).
  unfold supported_list. rewrite Hf. split; [exact Hne | exact Hd].
Qed.

Lemma init_success_has_formats_witness :
  supported_list (hw_priv (state_of (init config_all init_env_one_format blank_hwdec)))
  <> [].
Proof.
  exact (proj1 (init_success_has_formats config_all init_env_one_format blank_hwdec
                  eq_refl)).
Defined.

(** C2. If probing finds no working format (the list it builds has no
    entry before the terminator), [init] returns -1 and the device is not
    added to the renderer's registry. *)
Theorem init_fails_without_formats (cfg : build_config) (env : init_env) (hw : ra_hwdec) :
  supported_list (hw_priv (state_of (determine_working_formats (i_probe env) hw))) = [] ->
  result (init cfg env hw) = -1
  /\ hw_devs (state_of (init cfg env hw)) = hw_devs hw
  /\ filter is_devices_add (trace_of (init cfg env hw)) = [].
Proof.
  intros Hnone.
  pose proof (determine_working_formats_run (i_probe env) hw) as (Hf & _).
  unfold supported_list in Hnone. rewrite Hf in Hnone.
  pose proof (init_run cfg env hw) as (_ & Hr & Hneg & Hok). cbv zeta in *.
  assert (Hres : result (init cfg env hw) = -1).
  { destruct Hr as [H0|H1]; [|exact H1].
    destruct (Hok H0) as (Hne & _). contradiction. }
  split; [exact Hres | exact (Hneg Hres)].
Qed.

Lemma init_fails_without_formats_witness :
  result (init config_all init_env_no_formats blank_hwdec) = -1
  /\ hw_devs (state_of (init config_all init_env_no_formats blank_hwdec)) = [].
Proof.
  destruct (init_fails_without_formats config_all init_env_no_formats blank_hwdec eq_refl)
    as (Hr & Hd & _).
  split; [exact Hr | exact Hd].
Defined.

(** In that run the device context was initialised and both candidates were
    probed: the failure is the empty list's. *)
Example init_no_formats_reaches_probing :
  In Call_va_initialize (trace_of (init config_all init_env_no_formats blank_hwdec))
  /\ formats (hw_priv (state_of (init config_all init_env_no_formats blank_hwdec)))
     = Some [0].
Proof. vm_compute. split; [right; right; right; right; right; right; now left | reflexivity]. Qed.

(** * Further properties *)

(** ** Releases and fatal messages, call by call *)

Lemma releases_of_closes (fds : list Z) :
  filter is_native_release (map Call_close fds) = map Call_close fds.
Proof. induction fds as [|fd rest IH]; [reflexivity|]. cbn. now rewrite IH. Qed.

Lemma no_fatal_in_closes (fds : list Z) :
  filter is_fatal (map Call_close fds) = [].
Proof. induction fds as [|fd rest IH]; [reflexivity | exact IH]. Qed.

Ltac filter_trace :=
  repeat (progress (cbn [filter is_native_release is_fatal app];
                    rewrite ?filter_app, ?releases_of_closes, ?no_fatal_in_closes,
                            ?app_nil_r)).

(** What [mapper_unmap] gives back, and what it keeps. *)
Lemma mapper_unmap_releases (env : mapper_env) (m : ra_hwdec_mapper) :
  let p := m_priv m in
  let r := mapper_unmap env m in
  filter is_native_release (trace_of r)
  = (if surface_acquired p then map Call_close (exported_fds (desc p)) else [])
    ++ (if buffer_acquired p then [Call_vaReleaseBufferHandle (buf (current_image p))]
        else [])
    ++ (if image_id (current_image p) =? VA_INVALID_ID then []
        else [Call_vaDestroyImage (image_id (current_image p))])
  /\ filter is_fatal (trace_of r) = []
  /\ m_src (state_of r) = m_src m.
Proof.
  destruct m as [o [np ly d sa ci ba esh] t src sp dp].
  cbv zeta. unfold mapper_unmap. run_monad.
  destruct (e_vaReleaseBufferHandle env =? VA_STATUS_SUCCESS) eqn:Hr;
    destruct (e_vaDestroyImage env =? VA_STATUS_SUCCESS) eqn:Hd;
    destruct (image_id ci =? VA_INVALID_ID) eqn:Hid;
    destruct sa, ba;
    repeat (cbn -[close_objects Z.eqb filter];
            rewrite ?close_objects_run, ?Hr, ?Hd, ?Hid);
    filter_trace; repeat split; reflexivity.
Qed.

Ltac unmapped_fields H :=
  unfold unmapped in H; cbn -[Z.eqb] in H;
  let H1 := fresh "Hsa" in
  let H2 := fresh "Hba" in
  let H3 := fresh "Hid" in
  apply andb_prop in H as [H H3]; apply andb_prop in H as [H1 H2];
  apply negb_true_iff in H1, H2.

(** The legacy strategy logs the fatal message exactly when it fails outside
    probing, and keeps the surface it was given. *)
Lemma mapper_map_legacy_fatal (env : mapper_env) (m : ra_hwdec_mapper) :
  let r := mapper_map_legacy env m in
  filter is_fatal (trace_of r)
  = (if (result r =? -1) && negb (probing_formats (m_owner m))
     then [Msg MSGL_FATAL "mapping VAAPI EGL image failed"] else [])
  /\ m_src (state_of r) = m_src m.
Proof.
  cbv zeta. destruct (interop_map_legacy (m_owner m)) eqn:Hleg.
  - unfold mapper_map_legacy.
    destruct m as [o [np ly d sa ci ba esh] t src sp dp].
    destruct env as [gd ii ex sy im [ds di] aq [lr lt] iu rs dsy].
    cbn [m_owner] in Hleg. run_monad. unfold mapper_map_err. run_monad.
    destruct (ds =? VA_STATUS_SUCCESS) eqn:Hds;
      destruct (aq =? VA_STATUS_SUCCESS) eqn:Haq;
      destruct lr;
      destruct (format_fourcc di =? VA_FOURCC_YV12) eqn:Hfc;
      destruct (probing_formats o) eqn:Hp;
      repeat (cbn -[Z.eqb VA_FOURCC_YV12 MPSWAP];
              rewrite ?Hleg, ?Hds, ?Haq, ?Hfc, ?Hp);
      split; reflexivity.
  - rewrite (mapper_map_legacy_absent env m Hleg).
    pose proof (mapper_unmap_releases env m) as (_ & Hf & Hsrc).
    pose proof (mapper_unmap_facts env m) as (_ & _ & Hown & _).
    cbv zeta in *. unfold result, state_of, trace_of in *.
    destruct (mapper_unmap env m) as [[u m2] t2]. cbn [fst snd] in *.
    rewrite filter_app, Hf, Hown.
    split; [|exact Hsrc].
    destruct (probing_formats (m_owner m)); reflexivity.
Qed.

(** The legacy strategy on an unmapped session: it releases nothing, and
    leaves the handle acquired exactly when both driver calls succeeded. *)
Lemma mapper_map_legacy_clean (env : mapper_env) (m : ra_hwdec_mapper) :
  unmapped (m_priv m) = true ->
  let r := mapper_map_legacy env m in
  let p := m_priv m in
  let p' := m_priv (state_of r) in
  filter is_native_release (trace_of r) = []
  /\ surface_acquired p' = false
  /\ desc p' = desc p
  /\ buffer_acquired p'
     = interop_map_legacy (m_owner m)
       && (fst (e_vaDeriveImage env) =? VA_STATUS_SUCCESS)
       && (e_vaAcquireBufferHandle env =? VA_STATUS_SUCCESS)
  /\ current_image p'
     = (if interop_map_legacy (m_owner m) then snd (e_vaDeriveImage env)
        else current_image p)
  /\ (result r = 0 -> buffer_acquired p' = true).
Proof.
  intros Hun. cbv zeta. destruct (interop_map_legacy (m_owner m)) eqn:Hleg.
  - unfold mapper_map_legacy.
    destruct m as [o [np ly d sa ci ba esh] t src sp dp].
    destruct env as [gd ii ex sy im [ds di] aq [lr lt] iu rs dsy].
    unmapped_fields Hun. subst sa ba.
    cbn [m_owner] in Hleg. run_monad. unfold mapper_map_err. run_monad.
    destruct (ds =? VA_STATUS_SUCCESS) eqn:Hds;
      destruct (aq =? VA_STATUS_SUCCESS) eqn:Haq;
      destruct lr;
      destruct (format_fourcc di =? VA_FOURCC_YV12) eqn:Hfc;
      destruct (probing_formats o) eqn:Hp;
      repeat (cbn -[Z.eqb VA_FOURCC_YV12 MPSWAP];
              rewrite ?Hleg, ?Hds, ?Haq, ?Hfc, ?Hp);
      repeat split; try reflexivity; intros; discriminate.
  - rewrite (mapper_map_legacy_absent env m Hleg).
    destruct (mapper_unmap_on_unmapped env m Hun) as [Ht Hs].
    unfold result, state_of, trace_of in *.
    destruct (mapper_unmap env m) as [[u m2] t2]. cbn [fst snd] in *. subst t2 m2.
    unmapped_fields Hun.
    cbn. destruct (probing_formats (m_owner m)); cbn;
      repeat split; try assumption; try reflexivity; intros; discriminate.
Qed.

Lemma mapper_map_esh_failed_fatal (env : mapper_env) (m : ra_hwdec_mapper) :
  let r := mapper_map_esh_failed env m in
  filter is_fatal (trace_of r)
  = (if (result r =? -1) && negb (probing_formats (m_owner m))
     then [Msg MSGL_FATAL "mapping VAAPI EGL image failed"] else [])
  /\ m_src (state_of r) = m_src m.
Proof.
  cbv zeta. rewrite mapper_map_esh_failed_run.
  pose proof (mapper_map_legacy_fatal env (with_priv (set_surface_acquired false) m))
    as (Hf & Hsrc).
  cbv zeta in *. unfold result, state_of, trace_of in *.
  destruct (mapper_map_legacy env _) as [[r m'] t']. cbn [fst snd] in *.
  rewrite filter_app, Hf. split; [|exact Hsrc].
  destruct (surface_acquired (m_priv m)); [rewrite no_fatal_in_closes|]; reflexivity.
Qed.

(** The code at [esh_failed] on a session that holds at most an exported
    surface: it closes that surface's descriptors and goes legacy. *)
Lemma mapper_map_esh_failed_clean (env : mapper_env) (m : ra_hwdec_mapper) :
  buffer_acquired (m_priv m) = false ->
  image_id (current_image (m_priv m)) = VA_INVALID_ID ->
  let r := mapper_map_esh_failed env m in
  let p := m_priv m in
  let p' := m_priv (state_of r) in
  filter is_native_release (trace_of r)
  = (if surface_acquired p then map Call_close (exported_fds (desc p)) else [])
  /\ surface_acquired p' = false
  /\ desc p' = desc p
  /\ buffer_acquired p'
     = interop_map_legacy (m_owner m)
       && (fst (e_vaDeriveImage env) =? VA_STATUS_SUCCESS)
       && (e_vaAcquireBufferHandle env =? VA_STATUS_SUCCESS)
  /\ current_image p'
     = (if interop_map_legacy (m_owner m) then snd (e_vaDeriveImage env)
        else current_image p)
  /\ (result r = 0 -> buffer_acquired p' = true).
Proof.
  intros Hba Hid. cbv zeta. rewrite mapper_map_esh_failed_run.
  assert (Hun : unmapped (m_priv (with_priv (set_surface_acquired false) m)) = true).
  { destruct m as [o [np ly d sa ci ba esh] t src sp dp]. cbn in Hba, Hid.
    unfold unmapped. cbn -[Z.eqb]. rewrite Hba, Hid. reflexivity. }
  pose proof (mapper_map_legacy_clean env _ Hun) as L. cbv zeta in L.
  unfold result, state_of, trace_of in *.
  destruct (mapper_map_legacy env _) as [[r m'] t']. cbn [fst snd] in *.
  destruct L as (Hrel & Hsa & Hd & Hb & Hci & H0).
  rewrite filter_app, Hrel, app_nil_r.
  repeat split; try assumption.
  destruct (surface_acquired (m_priv m)); [apply releases_of_closes | reflexivity].
Qed.

(** [mapper_map] logs the fatal message exactly when it fails outside
    probing; it logs nothing fatal in probing mode or on success. *)
Lemma mapper_map_fatal (env : mapper_env) (m : ra_hwdec_mapper) :
  let r := mapper_map env m in
  filter is_fatal (trace_of r)
  = (if (result r =? -1) && negb (probing_formats (m_owner m))
     then [Msg MSGL_FATAL "mapping VAAPI EGL image failed"] else [])
  /\ m_src (state_of r) = m_src m.
Proof.
  cbv zeta. destruct (esh_not_implemented (m_priv m)) eqn:He.
  - rewrite (mapper_map_skips_export env m He). apply mapper_map_esh_failed_fatal.
  - destruct (fst (e_vaExportSurfaceHandle env) =? VA_STATUS_SUCCESS) eqn:Hs.
    + destruct (fst (e_interop_map env)) eqn:Hi.
      * rewrite (mapper_map_exported env m He Hs Hi). split; reflexivity.
      * rewrite (mapper_map_import_failed env m He Hs Hi). cbv zeta.
        match goal with
        | |- context [mapper_map_esh_failed env ?m3] =>
            pose proof (mapper_map_esh_failed_fatal env m3) as (Hf & Hsrc)
        end.
        cbv zeta in *. unfold result, state_of, trace_of in *.
        destruct (mapper_map_esh_failed env _) as [[r m'] t']. cbn [fst snd] in *.
        cbn [filter is_fatal]. split; [exact Hf | exact Hsrc].
    + rewrite (mapper_map_export_failed env m He Hs). cbv zeta.
      match goal with
      | |- context [mapper_map_esh_failed env ?m3] =>
          pose proof (mapper_map_esh_failed_fatal env m3) as (Hf & Hsrc)
      end.
      cbv zeta in *. unfold result, state_of, trace_of in *.
      destruct (mapper_map_esh_failed env _) as [[r m'] t']. cbn [fst snd] in *.
      split.
      * destruct (probing_formats (m_owner m)) eqn:Hp; cbn [filter is_fatal];
          rewrite Hf;
          destruct (fst (e_vaExportSurfaceHandle env) =? VA_STATUS_ERROR_UNIMPLEMENTED);
          cbn [m_owner with_priv]; rewrite ?Hp; reflexivity.
      * rewrite Hsrc.
        destruct (fst (e_vaExportSurfaceHandle env) =? VA_STATUS_ERROR_UNIMPLEMENTED);
          reflexivity.
Qed.

(** [mapper_map] on an unmapped session: what it closes itself, and what
    the session holds when it returns. *)
Lemma mapper_map_clean (env : mapper_env) (m : ra_hwdec_mapper) :
  unmapped (m_priv m) = true ->
  let r := mapper_map env m in
  let p := m_priv m in
  let p' := m_priv (state_of r) in
  filter is_native_release (trace_of r)
  = (if surface_exported env m && negb (fst (e_interop_map env))
     then map Call_close (exported_fds (snd (e_vaExportSurfaceHandle env))) else [])
  /\ surface_acquired p' = export_path_taken env m
  /\ desc p' = (if esh_not_implemented p then desc p
                else snd (e_vaExportSurfaceHandle env))
  /\ buffer_acquired p' = buffer_handle_acquired env m
  /\ current_image p'
     = (if legacy_attempted env m then snd (e_vaDeriveImage env) else current_image p)
  /\ (result r = 0 -> buffer_acquired p' = negb (export_path_taken env m)).
Proof.
  intros Hun. cbv zeta.
  unfold buffer_handle_acquired, legacy_attempted, surface_exported, export_path_taken.
  assert (Hba : buffer_acquired (m_priv m) = false
                /\ image_id (current_image (m_priv m)) = VA_INVALID_ID).
  { destruct m as [o [np ly d sa ci ba esh] t src sp dp].
    unmapped_fields Hun. apply Z.eqb_eq in Hid. now split. }
  destruct Hba as [Hba Hid].
  destruct (esh_not_implemented (m_priv m)) eqn:He; cbn [negb andb].
  - rewrite (mapper_map_skips_export env m He).
    pose proof (mapper_map_esh_failed_clean env m Hba Hid) as L. cbv zeta in L.
    destruct L as (Hrel & Hsa & Hd & Hb & Hci & H0).
    assert (Hsa0 : surface_acquired (m_priv m) = false).
    { destruct m as [o [np ly d sa ci ba esh] t src sp dp]. unmapped_fields Hun.
      assumption. }
    rewrite Hsa0 in Hrel.
    repeat split; assumption.
  - destruct (fst (e_vaExportSurfaceHandle env) =? VA_STATUS_SUCCESS) eqn:Hs;
      cbn [negb andb].
    + destruct (fst (e_interop_map env)) eqn:Hi; cbn [negb andb].
      * rewrite (mapper_map_exported env m He Hs Hi). cbv zeta.
        unfold result, state_of, trace_of.
        destruct m as [o [np ly d sa ci ba esh] t src sp dp]. cbn in Hba.
        cbn. repeat split; try assumption. intros _. exact Hba.
      * rewrite (mapper_map_import_failed env m He Hs Hi). cbv zeta.
        match goal with
        | |- context [mapper_map_esh_failed env ?m3] =>
            pose proof (mapper_map_esh_failed_clean env m3 Hba Hid) as L
        end.
        cbv zeta in L. unfold result, state_of, trace_of in *.
        destruct (mapper_map_esh_failed env _) as [[r m'] t']. cbn [fst snd] in *.
        destruct L as (Hrel & Hsa & Hd & Hb & Hci & H0).
        cbn [filter is_native_release].
        repeat split; try assumption;
          try (rewrite Hb; destruct (interop_map_legacy (m_owner m)); reflexivity);
          try (intros Hr; now apply H0).
    + rewrite (mapper_map_export_failed env m He Hs). cbv zeta.
      match goal with
      | |- context [mapper_map_esh_failed env ?m3] =>
          assert (Hba3 : buffer_acquired (m_priv m3) = false)
            by (destruct (fst (e_vaExportSurfaceHandle env)
                          =? VA_STATUS_ERROR_UNIMPLEMENTED); exact Hba);
          assert (Hid3 : image_id (current_image (m_priv m3)) = VA_INVALID_ID)
            by (destruct (fst (e_vaExportSurfaceHandle env)
                          =? VA_STATUS_ERROR_UNIMPLEMENTED); exact Hid);
          pose proof (mapper_map_esh_failed_clean env m3 Hba3 Hid3) as L
      end.
      cbv zeta in L. unfold result, state_of, trace_of in *.
      destruct (mapper_map_esh_failed env _) as [[r m'] t']. cbn [fst snd] in *.
      destruct L as (Hrel & Hsa & Hd & Hb & Hci & H0).
      assert (Hsa0 : surface_acquired (m_priv m) = false).
      { destruct m as [o [np ly d sa ci ba esh] t src sp dp]. unmapped_fields Hun.
        assumption. }
      cbn [filter is_native_release].
      destruct (fst (e_vaExportSurfaceHandle env) =? VA_STATUS_ERROR_UNIMPLEMENTED);
        cbn [m_priv m_owner with_priv surface_acquired set_esh_not_implemented set_desc
             desc current_image buffer_acquired] in *;
        rewrite Hsa0 in Hrel;
        repeat split; try assumption;
        try (rewrite Hb; destruct (interop_map_legacy (m_owner m)); reflexivity);
        try (intros Hr; now apply H0).
Qed.

(** ** Frames *)

Lemma run_frame (f : frame) (m : ra_hwdec_mapper) :
  run_calls (frame_calls f) m
  = let '(_, m1, t1) := mapper_map (fr_map f) (with_src (fr_surface f) m) in
    let '(_, m2, t2) := mapper_unmap (fr_unmap f) m1 in
    (tt, m2, t1 ++ t2).
Proof.
  unfold frame_calls. cbn [run_calls run_call].
  cbv beta iota zeta delta [bind modify ret].
  destruct (mapper_map (fr_map f) (with_src (fr_surface f) m)) as [[r m1] t1].
  destruct (mapper_unmap (fr_unmap f) m1) as [[u m2] t2].
  destruct u. cbn [app]. now rewrite !app_nil_r.
Qed.

Lemma run_calls_app (a b : list mapper_call) (m : ra_hwdec_mapper) :
  run_calls (a ++ b) m
  = let '(_, m1, t1) := run_calls a m in
    let '(_, m2, t2) := run_calls b m1 in
    (tt, m2, t1 ++ t2).
Proof.
  revert m. induction a as [|c rest IH]; intros m.
  - cbn. destruct (run_calls b m) as [[[] m2] t2]. reflexivity.
  - cbn [app run_calls]. unfold bind.
    destruct (run_call c m) as [[u m0] t0]. rewrite IH.
    destruct (run_calls rest m0) as [[u1 m1] t1].
    destruct (run_calls b m1) as [[u2 m2] t2].
    now rewrite app_assoc.
Qed.

(** One frame on an unmapped session: everything the map took from the
    driver is given back, once, by the end of the unmap. *)
Lemma frame_balanced (f : frame) (m : ra_hwdec_mapper) :
  unmapped (m_priv m) = true ->
  filter is_native_release (trace_of (run_calls (frame_calls f) m))
  = frame_releases f (with_src (fr_surface f) m)
  /\ unmapped (m_priv (state_of (run_calls (frame_calls f) m))) = true.
Proof.
  intros Hun. rewrite run_frame.
  set (m0 := with_src (fr_surface f) m).
  assert (Hun0 : unmapped (m_priv m0) = true) by exact Hun.
  pose proof (mapper_map_clean (fr_map f) m0 Hun0) as C. cbv zeta in C.
  unfold result, state_of, trace_of in *.
  destruct (mapper_map (fr_map f) m0) as [[r m1] t1]. cbn [fst snd] in C.
  destruct C as (Hrel & Hsa & Hd & Hb & Hci & _).
  pose proof (mapper_unmap_releases (fr_unmap f) m1) as (Hrel2 & _).
  pose proof (mapper_unmap_facts (fr_unmap f) m1) as (Hun2 & _).
  cbv zeta in *. unfold state_of, trace_of in *.
  destruct (mapper_unmap (fr_unmap f) m1) as [[u m2] t2]. cbn [fst snd] in *.
  split; [|exact Hun2].
  rewrite filter_app, Hrel, Hrel2, Hsa, Hd, Hb, Hci.
  unfold frame_releases, buffer_handle_acquired, legacy_attempted, surface_exported,
    export_path_taken.
  assert (Hid : (image_id (current_image (m_priv m0)) =? VA_INVALID_ID) = true).
  { clear -Hun0. destruct m0 as [o [np ly d sa ci ba esh] t src sp dp].
    unmapped_fields Hun0. assumption. }
  cbv zeta.
  destruct (esh_not_implemented (m_priv m0));
    destruct (fst (e_vaExportSurfaceHandle (fr_map f)) =? VA_STATUS_SUCCESS);
    destruct (fst (e_interop_map (fr_map f)));
    destruct (interop_map_legacy (m_owner m0));
    destruct (fst (e_vaDeriveImage (fr_map f)) =? VA_STATUS_SUCCESS);
    destruct (e_vaAcquireBufferHandle (fr_map f) =? VA_STATUS_SUCCESS);
    cbn [negb andb app]; rewrite ?Hid;
    try destruct (image_id (snd (e_vaDeriveImage (fr_map f))) =? VA_INVALID_ID);
    cbn [negb andb app]; rewrite ?app_nil_r; reflexivity.
Qed.

(** X4. Over any number of frames, each a [mapper_map] followed by a
    [mapper_unmap], on a session that starts unmapped: the native releases
    made are, frame by frame, exactly what the frame's map took from the
    driver (each exported descriptor closed once, the buffer handle released
    once if it was acquired, the derived image destroyed once if it is
    valid), whether the map succeeded or failed, and the session ends
    unmapped. *)
Theorem frames_balanced (fs : list frame) (m : ra_hwdec_mapper) :
  unmapped (m_priv m) = true ->
  filter is_native_release (trace_of (run_calls (flat_map frame_calls fs) m))
  = frames_releases fs m
  /\ unmapped (m_priv (state_of (run_calls (flat_map frame_calls fs) m))) = true.
Proof.
  revert m. induction fs as [|f rest IH]; intros m Hun; [now split|].
  cbn [flat_map frames_releases]. rewrite run_calls_app.
  destruct (frame_balanced f m Hun) as [Hrel Hun1].
  unfold state_of, trace_of in *.
  destruct (run_calls (frame_calls f) m) as [[u m1] t1]. cbn [fst snd] in *.
  destruct (IH m1 Hun1) as [Hrel2 Hun2].
  destruct (run_calls (flat_map frame_calls rest) m1) as [[u2 m2] t2].
  cbn [fst snd] in *. rewrite filter_app, Hrel, Hrel2. split; [reflexivity | exact Hun2].
Qed.

Lemma frames_balanced_witness :
  filter is_native_release
    (trace_of (run_calls (flat_map frame_calls sample_frames) (fresh_mapper true)))
  = [Call_close 10; Call_close 11; Call_vaReleaseBufferHandle 6; Call_vaDestroyImage 5]
  /\ unmapped
       (m_priv (state_of (run_calls (flat_map frame_calls sample_frames)
                                    (fresh_mapper true)))) = true.
Proof. exact (frames_balanced sample_frames (fresh_mapper true) eq_refl). Defined.

(** X5. [mapper_map] logs the fatal "mapping VAAPI EGL image failed" once
    when it fails outside probing; in probing mode, and on success, it logs
    nothing at fatal level. *)
Theorem mapper_map_reports_failure (env : mapper_env) (m : ra_hwdec_mapper) :
  filter is_fatal (trace_of (mapper_map env m))
  = (if (result (mapper_map env m) =? -1) && negb (probing_formats (m_owner m))
     then [Msg MSGL_FATAL "mapping VAAPI EGL image failed"] else [])
  /\ (probing_formats (m_owner m) = true ->
      filter is_fatal (trace_of (mapper_map env m)) = [])
  /\ (result (mapper_map env m) = 0 ->
      filter is_fatal (trace_of (mapper_map env m)) = []).
Proof.
  pose proof (mapper_map_fatal env m) as (Hf & _). cbv zeta in Hf.
  split; [exact Hf|]. split.
  - intros Hp. rewrite Hf, Hp. now rewrite andb_false_r.
  - intros H0. rewrite Hf, H0. reflexivity.
Qed.

Lemma mapper_map_reports_failure_witness :
  filter is_fatal (trace_of (mapper_map env_legacy_import_fails probing_mapper)) = [].
Proof.
  exact (proj1 (proj2 (mapper_map_reports_failure env_legacy_import_fails probing_mapper))
               eq_refl).
Defined.

(** X6. After [mapper_map] on an unmapped session the two acquisition flags
    are never both set; on success exactly one is: [surface_acquired] when
    the export strategy delivered, [buffer_acquired] when the legacy one
    did. *)
Theorem mapper_map_acquires_one (env : mapper_env) (m : ra_hwdec_mapper) :
  unmapped (m_priv m) = true ->
  let p' := m_priv (state_of (mapper_map env m)) in
  surface_acquired p' && buffer_acquired p' = false
  /\ (result (mapper_map env m) = 0 ->
      surface_acquired p' = export_path_taken env m
      /\ buffer_acquired p' = negb (export_path_taken env m)).
Proof.
  intros Hun. cbv zeta.
  pose proof (mapper_map_clean env m Hun) as (_ & Hsa & _ & Hb & _ & H0).
  cbv zeta in *. split.
  - rewrite Hsa, Hb. unfold buffer_handle_acquired, legacy_attempted.
    destruct (export_path_taken env m); reflexivity.
  - intros Hr. split; [exact Hsa | exact (H0 Hr)].
Qed.

Lemma mapper_map_acquires_one_witness :
  surface_acquired (m_priv (state_of (mapper_map env_export_unimplemented
                                                  (fresh_mapper true)))) = false
  /\ buffer_acquired (m_priv (state_of (mapper_map env_export_unimplemented
                                                   (fresh_mapper true)))) = true.
Proof.
  exact (proj2 (mapper_map_acquires_one env_export_unimplemented (fresh_mapper true)
                  eq_refl) eq_refl).
Defined.

(** ** check_fmt and mapper_init *)

(** X7. [check_fmt] is true exactly for the formats listed before the first
    zero of [p_owner->formats]: never for 0, never when the array is NULL,
    and whatever follows the first zero is not seen. *)
Theorem check_fmt_membership (m : ra_hwdec_mapper) (fmt : Z) :
  (check_fmt m fmt = true <-> In fmt (supported_list (m_owner m)))
  /\ check_fmt m 0 = false
  /\ (formats (m_owner m) = None -> check_fmt m fmt = false)
  /\ (forall pre post,
        formats (m_owner m) = Some (pre ++ 0 :: post) ->
        Forall (fun f => f <> 0) pre ->
        (check_fmt m fmt = true <-> In fmt pre)).
Proof.
  split; [apply check_fmt_In|]. split; [|split].
  - destruct (check_fmt m 0) eqn:E; [|reflexivity].
    apply check_fmt_In in E. unfold supported_list in E.
    destruct (formats (m_owner m)) as [fs|]; [|contradiction].
    now apply real_entries_nonzero in E.
  - intros H. unfold check_fmt. now rewrite H.
  - intros pre post H Hnz. rewrite check_fmt_In. unfold supported_list.
    rewrite H, (real_entries_prefix pre post Hnz). reflexivity.
Qed.

Lemma check_fmt_membership_witness :
  check_fmt (with_owner (set_formats (Some [1003; 1005; 0; 1007]) (ready_owner true))
                        (fresh_mapper true)) 1007 = true
  <-> In 1007 [1003; 1005].
Proof.
  refine (proj2 (proj2 (proj2 (check_fmt_membership
            (with_owner (set_formats (Some [1003; 1005; 0; 1007]) (ready_owner true))
                        (fresh_mapper true)) 1007))) [1003; 1005] [1007] eq_refl _).
  repeat constructor; discriminate.
Defined.

(** X8. When [mapper_init] succeeds, the destination parameters are the
    source's with the software format as image format and no sub-format;
    the plane count is the renderer's for that format and the layout is the
    destination's; both image handles are invalid; the owner and the
    acquisition flags are as before; and, outside probing, the destination
    format is in the supported-format list. *)
Theorem mapper_init_success (env : mapper_env) (m : ra_hwdec_mapper) :
  result (mapper_init env m) = 0 ->
  let m' := state_of (mapper_init env m) in
  dst_params m'
  = mk_params (hw_subfmt (src_params m)) 0 (w (src_params m)) (h (src_params m))
  /\ (exists d, e_ra_get_imgfmt_desc env (hw_subfmt (src_params m)) = Some d
                /\ num_planes (m_priv m') = desc_num_planes d)
  /\ layout (m_priv m') = dst_params m'
  /\ image_id (current_image (m_priv m')) = VA_INVALID_ID
  /\ buf (current_image (m_priv m')) = VA_INVALID_ID
  /\ m_owner m' = m_owner m
  /\ surface_acquired (m_priv m') = surface_acquired (m_priv m)
  /\ buffer_acquired (m_priv m') = buffer_acquired (m_priv m)
  /\ esh_not_implemented (m_priv m') = esh_not_implemented (m_priv m)
  /\ (interop_init (m_owner m) = true -> fst (e_interop_init env) = true)
  /\ (probing_formats (m_owner m) = false ->
      In (hw_subfmt (src_params m)) (supported_list (m_owner m))).
Proof.
  intros H0. cbv zeta.
  assert (Hin : probing_formats (m_owner m) = false ->
                In (hw_subfmt (src_params m)) (supported_list (m_owner m))).
  { intros Hp. pose proof (mapper_init_run env m) as (Hr & _). cbv zeta in Hr.
    rewrite H0, Hp in Hr. cbn [negb andb] in Hr. apply check_fmt_In.
    destruct (check_fmt m _); [reflexivity|].
    cbn [negb] in Hr. rewrite andb_false_r in Hr. discriminate. }
  revert H0 Hin.
  destruct m as [o [np ly d sa ci ba esh] t src [sf ssub sw sh] dp].
  unfold mapper_init, check_fmt. run_monad. cbn [m_owner src_params hw_subfmt].
  destruct (e_ra_get_imgfmt_desc env ssub) as [dsc|] eqn:Hd;
    destruct (interop_init o) eqn:Hii;
    destruct (fst (e_interop_init env)) eqn:Hok;
    destruct (probing_formats o) eqn:Hp;
    destruct (match formats o with Some fs => check_fmt_loop fs ssub | None => false end)
      eqn:Hc;
    repeat (cbn -[Z.eqb In supported_list]; rewrite ?Hd, ?Hii, ?Hok, ?Hp, ?Hc);
    intros H0 Hin; try discriminate;
    repeat split; try reflexivity; try (intros; discriminate); try exact Hin;
    exists dsc; split; reflexivity.
Qed.

Lemma mapper_init_success_witness :
  dst_params (state_of (mapper_init env_all_ok (fresh_mapper true)))
  = mk_params 1003 0 128 128.
Proof.
  exact (proj1 (mapper_init_success env_all_ok (fresh_mapper true) eq_refl)).
Defined.

(** ** What the probed list contains *)

(** X9. Every format in the list that [determine_working_formats] leaves
    is nonzero and belongs to a candidate the driver listed before
    [AV_PIX_FMT_NONE] (no entry up to and including it is the terminator)
    for which every step of the trial succeeded: the frames context was
    allocated and initialised, a frame was allocated and given a buffer, the
    image was built with valid parameters, the mapper was created (not NULL)
    and its map call returned a non-negative value. *)
Theorem supported_format_was_probed (env : probe_env) (hw : ra_hwdec) (fmt : Z) :
  In fmt (supported_list (hw_priv (state_of (determine_working_formats env hw)))) ->
  fmt <> 0
  /\ exists sw n f params,
       p_constraints env = Some sw
       /\ nth_error sw n = Some f
       /\ Forall (fun g => g <> AV_PIX_FMT_NONE) (firstn (S n) sw)
       /\ o_av_hwframe_ctx_alloc (p_outcome env n f) = true
       /\ 0 <= o_av_hwframe_ctx_init (p_outcome env n f)
       /\ o_av_frame_alloc (p_outcome env n f) = true
       /\ 0 <= o_av_hwframe_get_buffer (p_outcome env n f)
       /\ o_mp_image_from_av_frame (p_outcome env n f) = Some params
       /\ hw_subfmt params = fmt
       /\ o_mp_image_params_valid (p_outcome env n f) = true
       /\ o_ra_hwdec_mapper_create (p_outcome env n f) = true
       /\ 0 <= o_ra_hwdec_mapper_map (p_outcome env n f).
Proof.
  pose proof (determine_working_formats_run env hw) as (Hf & _).
  unfold supported_list. rewrite Hf, real_entries_terminated. intros Hin.
  split; [exact (real_entries_nonzero _ _ Hin)|].
  apply real_entries_incl in Hin. now apply candidates_passed_In.
Qed.

Lemma supported_format_was_probed_witness :
  exists sw n f params,
    p_constraints probe_env_two = Some sw
    /\ nth_error sw n = Some f
    /\ Forall (fun g => g <> AV_PIX_FMT_NONE) (firstn (S n) sw)
    /\ o_av_hwframe_ctx_alloc (p_outcome probe_env_two n f) = true
    /\ 0 <= o_av_hwframe_ctx_init (p_outcome probe_env_two n f)
    /\ o_av_frame_alloc (p_outcome probe_env_two n f) = true
    /\ 0 <= o_av_hwframe_get_buffer (p_outcome probe_env_two n f)
    /\ o_mp_image_from_av_frame (p_outcome probe_env_two n f) = Some params
    /\ hw_subfmt params = 1005
    /\ o_mp_image_params_valid (p_outcome probe_env_two n f) = true
    /\ o_ra_hwdec_mapper_create (p_outcome probe_env_two n f) = true
    /\ 0 <= o_ra_hwdec_mapper_map (p_outcome probe_env_two n f).
Proof.
  exact (proj2 (supported_format_was_probed probe_env_two probing_hwdec 1005
                  (or_intror (or_introl eq_refl)))).
Defined.

(** X10. [determine_working_formats] changes nothing of the device but the
    format array and the probing flag, which it leaves clear whatever it was
    on entry.  When every candidate that passed has a nonzero identifier, the
    list its readers see is exactly those identifiers, in the driver's
    order; a passed candidate with identifier 0 hides itself and every later
    one. *)
Theorem determine_working_formats_result (env : probe_env) (hw : ra_hwdec) :
  let hw' := state_of (determine_working_formats env hw) in
  hw' = with_hw_priv
          (fun p => set_probing_formats false
                      (set_formats (Some (candidates_passed env ++ [0])) p)) hw
  /\ (Forall (fun f => f <> 0) (candidates_passed env) ->
      supported_list (hw_priv hw') = candidates_passed env)
  /\ (forall pre post,
        candidates_passed env = pre ++ 0 :: post ->
        Forall (fun f => f <> 0) pre ->
        supported_list (hw_priv hw') = pre).
Proof.
  cbv zeta.
  pose proof (determine_working_formats_state env hw) as Hs.
  split; [exact Hs|]. rewrite Hs. unfold supported_list. cbn [hw_priv with_hw_priv
    formats set_probing_formats set_formats]. split.
  - intros Hnz. exact (real_entries_prefix _ [] Hnz).
  - intros pre post Hc Hnz. rewrite Hc, <- app_assoc. cbn [app].
    now apply real_entries_prefix.
Qed.

Lemma determine_working_formats_result_witness :
  supported_list
    (hw_priv (state_of (determine_working_formats probe_env_twice blank_hwdec)))
  = [1003; 1003].
Proof.
  refine (proj1 (proj2 (determine_working_formats_result probe_env_twice blank_hwdec)) _).
  repeat constructor; discriminate.
Defined.

(** ** The outcome of init *)

Lemma init_interop_loop_core (env : init_env) (inits : list (option interop_backend))
    (hw : ra_hwdec) :
  filter is_init_core (trace_of (init_interop_loop env inits hw)) = [].
Proof.
  revert hw. induction inits as [|[b|] rest IH]; intros hw; try reflexivity.
  cbn [init_interop_loop].
  cbv beta iota zeta delta [bind get modify emit].
  destruct (fst (i_interop_init env b (hw_priv hw))); [reflexivity|].
  match goal with
  | |- context [init_interop_loop env rest ?h] => specialize (IH h)
  end.
  unfold trace_of in *.
  destruct (init_interop_loop env rest _) as [[u hw1] t1].
  cbn [fst snd app filter is_init_core] in *. exact IH.
Qed.

(** The providers do not look at the state: the display and the calls are
    the same from any state, which is left as it was. *)
Lemma create_native_va_display_from_any {St1 St2} (cbs : list va_create_native)
    (ra : display_env) (s1 : St1) (s2 : St2) :
  result (create_native_va_display_from cbs ra s1)
  = result (create_native_va_display_from cbs ra s2)
  /\ trace_of (create_native_va_display_from cbs ra s1)
     = trace_of (create_native_va_display_from cbs ra s2)
  /\ state_of (create_native_va_display_from cbs ra s1) = s1
  /\ filter is_init_core (trace_of (create_native_va_display_from cbs ra s1)) = [].
Proof.
  induction cbs as [|disp rest IH]; [now repeat split|].
  cbn [create_native_va_display_from]. rewrite !bind_emit.
  destruct (create disp ra) as [d|]; [now repeat split|].
  unfold result, state_of, trace_of in *.
  destruct (create_native_va_display_from rest ra s1) as [[r1 s1'] t1].
  destruct (create_native_va_display_from rest ra s2) as [[r2 s2'] t2].
  cbn [fst snd] in *. destruct IH as (Hr & Ht & Hs & Hc).
  subst. repeat split. cbn [filter is_init_core]. exact Hc.
Qed.

Lemma determine_working_formats_core (env : probe_env) (hw : ra_hwdec) :
  filter is_init_core (trace_of (determine_working_formats env hw)) = [].
Proof. apply determine_working_formats_quiet. Qed.

Ltac init_tail :=
  lazymatch goal with
  | Hcore1 : filter is_init_core ?t1 = [], Hcore2 : filter is_init_core ?t2 = [],
    Hdevs : hw_devs _ = hw_devs _
    |- context [determine_working_formats ?pe ?h] =>
      let Hf := fresh "Hf" in
      let Hd := fresh "Hd" in
      let Hctx := fresh "Hctx" in
      let Hcore3 := fresh "Hcore3" in
      let Hz := fresh "Hz" in
      let Hdisp := fresh "Hdisp" in
      pose proof (determine_working_formats_run pe h) as (Hf & _ & Hd & _ & Hctx & _);
      pose proof (determine_working_formats_core pe h) as Hcore3;
      pose proof (f_equal (fun s => display (hw_priv s))
                          (determine_working_formats_state pe h)) as Hdisp;
      cbn [hw_priv with_hw_priv display set_probing_formats set_formats set_ctx
           set_display] in Hdisp;
      unfold state_of, trace_of in *;
      destruct (determine_working_formats pe h) as [[? ?] ?];
      cbn [fst snd] in *; rewrite Hf;
      destruct (fmt_at (candidates_passed pe ++ [0]) 0 =? 0) eqn:Hz;
      cbn [negb fst snd hwdec_devices_add hw_devs hw_priv with_hw_priv set_ctx ctx
           display set_display formats];
      repeat (progress (rewrite ?filter_app, ?app_nil_r;
                        cbn [filter is_init_core app hwctx set_hwctx]));
      rewrite ?Hcore1, ?Hcore2, ?Hcore3, ?Hd, ?Hctx;
      cbn [app hw_devs hw_priv with_hw_priv set_ctx ctx display set_display];
      rewrite ?app_nil_r, ?Hdevs;
      repeat split; auto
  end.

(** [init], stage by stage: its result, its calls on the device, and the
    context, display and registry it leaves. *)
Lemma init_outcome (cfg : build_config) (env : init_env) (hw : ra_hwdec) :
  let r := init cfg env hw in
  let sel := selected_owner cfg env hw in
  let fs := candidates_passed (i_probe env) ++ [0] in
  let registered := mk_hwctx (Some fs) (Some driver_name_vaegl) in
  result r = (if init_succeeds cfg env hw then 0 else -1)
  /\ filter is_init_core (trace_of r)
     = (if backend_ready sel then
          match selected_display cfg env with
          | None => []
          | Some _ =>
              Call_va_initialize
              :: match i_va_initialize env with
                 | None => [Call_vaTerminate]
                 | Some c =>
                     match av_device_ref c with
                     | None => []
                     | Some _ =>
                         (if hw_probing hw then [Call_va_guess_if_emulated] else [])
                         ++ (if init_succeeds cfg env hw
                             then [Call_hwdec_devices_add registered] else [])
                     end
                 end
          end
        else [])
  /\ ctx (hw_priv (state_of r))
     = (if backend_ready sel then
          match selected_display cfg env with
          | None => ctx sel
          | Some _ =>
              match i_va_initialize env with
              | None => None
              | Some c => if init_succeeds cfg env hw
                          then Some (set_hwctx (Some fs) c) else Some c
              end
          end
        else ctx sel)
  /\ display (hw_priv (state_of r))
     = (if backend_ready sel then selected_display cfg env else display sel)
  /\ hw_devs (state_of r)
     = hw_devs hw ++ (if init_succeeds cfg env hw then [registered] else []).
Proof.
  cbv zeta.
  unfold init, init_succeeds, selected_owner, selected_display, usable_ctx, backend_ready.
  pose proof (init_interop_loop_facts env (interop_inits cfg) hw) as (Hdevs & Hprob & _).
  pose proof (init_interop_loop_core env (interop_inits cfg) hw) as Hcore1.
  cbv beta iota zeta delta [bind get].
  unfold result, state_of, trace_of in *.
  destruct (init_interop_loop env (interop_inits cfg) hw) as [[u hw1] t1].
  cbn [fst snd] in *.
  destruct (interop_map (hw_priv hw1)) eqn:Hm; cbn [negb orb andb];
    [destruct (interop_unmap (hw_priv hw1)) eqn:Hu; cbn [negb orb andb]|].
  2,3: cbn; rewrite filter_app, Hcore1; repeat split; rewrite ?app_nil_r; auto.
  pose proof (create_native_va_display_from_any (create_native_cbs cfg)
                (i_display env) hw1 tt) as (Hres & _ & Hst & Hcore2).
  unfold create_native_va_display, result, state_of, trace_of in *.
  rewrite <- Hres. clear Hres.
  destruct (create_native_va_display_from (create_native_cbs cfg) (i_display env) hw1)
    as [[d hw2] t2].
  cbn [fst snd] in *. subst hw2.
  destruct d as [d|];
    [|cbn; rewrite !filter_app, Hcore1, Hcore2, app_nil_r; repeat split; rewrite ?app_nil_r; auto].
  cbv beta iota zeta delta [modify emit ret].
  destruct (i_va_initialize env) as [c|];
    [|cbn; rewrite !filter_app, Hcore1, Hcore2, app_nil_r; repeat split; rewrite ?app_nil_r; auto].
  destruct (av_device_ref c) as [ref|];
    [|cbn; rewrite !filter_app, Hcore1, Hcore2, app_nil_r; repeat split; rewrite ?app_nil_r; auto].
  rewrite Hprob.
  destruct (hw_probing hw) eqn:Hp; [destruct (i_va_guess_if_emulated env) eqn:Hg|];
    cbv beta iota zeta; cbn [negb andb].
  1: { cbn. rewrite !filter_app, Hcore1, Hcore2, app_nil_r. repeat split; rewrite ?app_nil_r; auto. }
  1: { init_tail. }
  init_tail.
Qed.

Lemma first_format_nonzero (fs : list Z) :
  (fmt_at (fs ++ [0]) 0 =? 0) = false <-> real_entries fs <> [].
Proof.
  destruct fs as [|f rest]; cbn [app fmt_at nth real_entries].
  - split; [discriminate | intros H; now contradiction H].
  - destruct (f =? 0); split; try discriminate; try reflexivity.
    intros H. now contradiction H.
Qed.

(** X11. [init] returns 0 exactly when the backend selection installed both
    [interop_map] and [interop_unmap], some provider yielded a display,
    [va_initialize] gave a context with a device reference, the driver is
    not (in probing mode) guessed to be emulated, and probing left at least
    one format before the terminator; in every other case it returns -1. *)
Theorem init_succeeds_iff (cfg : build_config) (env : init_env) (hw : ra_hwdec) :
  (result (init cfg env hw) = 0
   <-> interop_map (selected_owner cfg env hw) = true
       /\ interop_unmap (selected_owner cfg env hw) = true
       /\ (exists d, selected_display cfg env = Some d)
       /\ (exists c ref, i_va_initialize env = Some c /\ av_device_ref c = Some ref)
       /\ (hw_probing hw = true -> i_va_guess_if_emulated env = false)
       /\ real_entries (candidates_passed (i_probe env)) <> [])
  /\ (result (init cfg env hw) <> 0 -> result (init cfg env hw) = -1).
Proof.
  pose proof (init_outcome cfg env hw) as (Hr & _). cbv zeta in Hr.
  split; [|intros H; rewrite Hr in *; destruct (init_succeeds cfg env hw);
           [now contradiction H | reflexivity]].
  rewrite Hr. unfold init_succeeds, backend_ready, usable_ctx.
  rewrite <- first_format_nonzero.
  destruct (interop_map (selected_owner cfg env hw));
    destruct (interop_unmap (selected_owner cfg env hw));
    destruct (selected_display cfg env) as [d|];
    destruct (i_va_initialize env) as [c|];
    try destruct (av_device_ref c) as [ref|] eqn:Hav;
    destruct (hw_probing hw);
    destruct (i_va_guess_if_emulated env);
    destruct (fmt_at (candidates_passed (i_probe env) ++ [0]) 0 =? 0);
    cbn [andb negb]; split;
    try discriminate; try reflexivity;
    try (intros (H1 & H2 & (d' & H3) & (c' & r' & H4 & H5) & H6 & H7);
         try discriminate; try (specialize (H6 eq_refl)); congruence);
    intros _; repeat split; eauto; try (intros; discriminate).
Qed.

Lemma init_succeeds_iff_witness :
  interop_map (selected_owner config_all init_env_one_format blank_hwdec) = true
  /\ real_entries (candidates_passed (i_probe init_env_one_format)) <> [].
Proof.
  destruct (proj1 (proj1 (init_succeeds_iff config_all init_env_one_format blank_hwdec))
              eq_refl) as (H1 & _ & _ & _ & _ & H6).
  split; [exact H1 | exact H6].
Defined.

Lemma core_call_in (e : event) (t : list event) :
  is_init_core e = true -> (In e t <-> In e (filter is_init_core t)).
Proof. intros H. rewrite filter_In. tauto. Qed.

(** X12. Which calls [init] makes on the device.  [va_initialize] is
    called exactly when a backend is ready and a display was found;
    [vaTerminate] exactly when, besides, [va_initialize] returned NULL;
    [va_guess_if_emulated] exactly when the context is usable and
    [hw->probing] is set; and [hwdec_devices_add] exactly when [init]
    succeeds, with the context carrying the probed list and the driver's
    name. *)
Theorem init_device_calls (cfg : build_config) (env : init_env) (hw : ra_hwdec) :
  let t := trace_of (init cfg env hw) in
  let sel := selected_owner cfg env hw in
  (In Call_va_initialize t
   <-> backend_ready sel = true /\ selected_display cfg env <> None)
  /\ (In Call_vaTerminate t
      <-> backend_ready sel = true /\ selected_display cfg env <> None
          /\ i_va_initialize env = None)
  /\ (In Call_va_guess_if_emulated t
      <-> backend_ready sel = true /\ selected_display cfg env <> None
          /\ usable_ctx env <> None /\ hw_probing hw = true)
  /\ (forall c,
        In (Call_hwdec_devices_add c) t
        <-> result (init cfg env hw) = 0
            /\ c = mk_hwctx (Some (candidates_passed (i_probe env) ++ [0]))
                            (Some driver_name_vaegl)).
Proof.
  cbv zeta. pose proof (init_outcome cfg env hw) as (Hr & Hc & _). cbv zeta in Hr, Hc.
  split; [|split; [|split; [|intros c0]]];
    rewrite core_call_in by reflexivity; rewrite Hc, ?Hr;
    unfold init_succeeds, usable_ctx;
    destruct (backend_ready (selected_owner cfg env hw));
    destruct (selected_display cfg env) as [d|];
    destruct (i_va_initialize env) as [c|];
    try destruct (av_device_ref c) as [ref|];
    destruct (hw_probing hw);
    destruct (i_va_guess_if_emulated env);
    destruct (fmt_at (candidates_passed (i_probe env) ++ [0]) 0 =? 0);
    cbn [andb negb app In];
    intuition (try discriminate; try congruence).
Qed.

Lemma init_interop_loop_ext (env1 env2 : init_env)
    (inits : list (option interop_backend)) (hw : ra_hwdec) :
  i_interop_init env1 = i_interop_init env2 ->
  init_interop_loop env1 inits hw = init_interop_loop env2 inits hw.
Proof.
  intros He. revert hw. induction inits as [|[b|] rest IH]; intros hw; try reflexivity.
  cbn [init_interop_loop]. cbv beta iota zeta delta [bind get modify emit].
  rewrite He. destruct (fst (i_interop_init env2 b (hw_priv hw))); [reflexivity|].
  now rewrite IH.
Qed.

(** X13. Outside probing ([hw->probing] clear) the emulation heuristic is
    not consulted: [init] runs the same, to the same result, state and
    calls, whether or not the driver would be guessed to be emulated. *)
Theorem init_ignores_emulation_outside_probing (cfg : build_config) (env : init_env)
    (guess : bool) (hw : ra_hwdec) :
  hw_probing hw = false ->
  init cfg (mk_init_env (i_interop_init env) (i_display env) (i_va_initialize env)
                        guess (i_probe env)) hw
  = init cfg env hw
  /\ ~ In Call_va_guess_if_emulated (trace_of (init cfg env hw)).
Proof.
  intros Hp. split.
  - destruct env as [ii dsp vi g pr]. cbn [i_interop_init i_display i_va_initialize i_probe].
    unfold init. cbv beta iota zeta delta [bind get].
    pose proof (init_interop_loop_facts (mk_init_env ii dsp vi g pr) (interop_inits cfg) hw)
      as (_ & Hprob & _).
    rewrite (init_interop_loop_ext (mk_init_env ii dsp vi guess pr)
               (mk_init_env ii dsp vi g pr) (interop_inits cfg) hw eq_refl).
    unfold state_of in Hprob.
    destruct (init_interop_loop (mk_init_env ii dsp vi g pr) (interop_inits cfg) hw)
      as [[u hw1] t1].
    cbn [fst snd i_display i_va_initialize i_va_guess_if_emulated i_probe] in *.
    rewrite Hprob, Hp. reflexivity.
  - rewrite core_call_in by reflexivity.
    pose proof (init_outcome cfg env hw) as (_ & Hc & _). cbv zeta in Hc.
    rewrite Hc, Hp.
    destruct (backend_ready (selected_owner cfg env hw));
      destruct (selected_display cfg env) as [d|];
      destruct (i_va_initialize env) as [c|];
      try destruct (av_device_ref c) as [ref|];
      destruct (init_succeeds cfg env hw);
      cbn [app In]; intuition discriminate.
Qed.

Lemma init_ignores_emulation_outside_probing_witness :
  result (init config_all
            (mk_init_env backend_vk_only ra_wayland_only (Some sample_ctx) true
                         probe_env_one) blank_hwdec) = 0.
Proof.
  exact (eq_trans
           (f_equal result
              (proj1 (init_ignores_emulation_outside_probing config_all
                        init_env_one_format true blank_hwdec eq_refl)))
           eq_refl).
Defined.

(** X14. Teardown after [init], on an owner that had no context when the
    backend selection finished.  After a successful [init], the context is
    the one [va_initialize] yielded, carrying the probed list and the driver
    name; [uninit] removes from the registry that very context, which [init]
    registered last, then destroys it.  After a failed [init] the registry
    is as it was; if [init] got as far as [va_initialize] and that yielded a
    context, the owner holds it and [uninit] asks for the removal of that
    context, which was never registered, and destroys it; in every other
    case the owner holds no context and [uninit] only calls
    [va_destroy(NULL)]. *)
Theorem uninit_after_init (cfg : build_config) (env : init_env) (hw : ra_hwdec) :
  ctx (selected_owner cfg env hw) = None ->
  let s := state_of (init cfg env hw) in
  let sel := selected_owner cfg env hw in
  (result (init cfg env hw) = 0 ->
   exists c0 c,
     i_va_initialize env = Some c0
     /\ c = set_hwctx (Some (candidates_passed (i_probe env) ++ [0])) c0
     /\ ctx (hw_priv s) = Some c
     /\ hw_devs s = hw_devs hw ++ [hwctx c]
     /\ uninit s = [Call_hwdec_devices_remove (hwctx c); Call_va_destroy (Some c)])
  /\ (result (init cfg env hw) = -1 ->
      hw_devs s = hw_devs hw
      /\ (forall c,
            backend_ready sel = true ->
            selected_display cfg env <> None ->
            i_va_initialize env = Some c ->
            ctx (hw_priv s) = Some c
            /\ uninit s = [Call_hwdec_devices_remove (hwctx c);
                           Call_va_destroy (Some c)])
      /\ (backend_ready sel = false
          \/ selected_display cfg env = None
          \/ i_va_initialize env = None ->
          ctx (hw_priv s) = None
          /\ uninit s = [Call_va_destroy None])).
Proof.
  intros Hnone. cbv zeta.
  pose proof (init_outcome cfg env hw) as (Hr & _ & Hctx & _ & Hdevs). cbv zeta in *.
  unfold uninit. rewrite Hr, Hctx, Hdevs, Hnone. cbv zeta.
  destruct (init_succeeds cfg env hw) eqn:Hok.
  - split; [intros _|intros H; discriminate].
    unfold init_succeeds, usable_ctx in Hok.
    destruct (backend_ready (selected_owner cfg env hw)); [|discriminate].
    destruct (selected_display cfg env); [|discriminate].
    destruct (i_va_initialize env) as [c|]; [|discriminate].
    exists c. eexists. repeat split.
  - split; [intros H; discriminate|intros _].
    rewrite app_nil_r. split; [reflexivity|]. split.
    + intros c Hb Hd Hc. rewrite Hb, Hc.
      destruct (selected_display cfg env) as [d|]; [|contradiction].
      cbn [app]. split; reflexivity.
    + intros [Hb|[Hd|Hc]].
      * rewrite Hb. cbn [app]. split; reflexivity.
      * rewrite Hd. destruct (backend_ready _); cbn [app]; split; reflexivity.
      * rewrite Hc. destruct (backend_ready _); [|cbn [app]; split; reflexivity].
        destruct (selected_display cfg env); cbn [app]; split; reflexivity.
Qed.

(** A successful run; a run that fails after [va_initialize] yielded a
    context without device reference; a run that fails before any context
    exists, the backend leaving [interop_unmap] unset. *)
Lemma uninit_after_init_witness :
  uninit (state_of (init config_all init_env_one_format blank_hwdec))
  = [Call_hwdec_devices_remove (mk_hwctx (Some [1003; 0]) (Some "vaapi-egl"));
     Call_va_destroy
       (Some (mk_vaapi_ctx (Some 1) (mk_hwctx (Some [1003; 0]) (Some "vaapi-egl"))))]
  /\ uninit (state_of (init config_all init_env_rejected blank_hwdec))
     = [Call_hwdec_devices_remove (mk_hwctx None None);
        Call_va_destroy (Some (mk_vaapi_ctx None (mk_hwctx None None)))]
  /\ hw_devs (state_of (init config_all init_env_rejected blank_hwdec)) = []
  /\ uninit (state_of (init config_all init_env_without_unmap blank_hwdec))
     = [Call_va_destroy None].
Proof.
  pose proof (uninit_after_init config_all init_env_one_format blank_hwdec eq_refl) as H1.
  pose proof (uninit_after_init config_all init_env_rejected blank_hwdec eq_refl) as H2.
  pose proof (uninit_after_init config_all init_env_without_unmap blank_hwdec eq_refl)
    as H3.
  cbv zeta in H1, H2, H3.
  split; [|split; [|split]].
  - destruct (proj1 H1 eq_refl) as (c0 & c & Hc0 & Hc & _ & _ & Hu).
    injection Hc0 as <-. rewrite Hu, Hc. reflexivity.
  - refine (proj2 (proj1 (proj2 (proj2 H2 eq_refl)) _ eq_refl _ eq_refl)).
    discriminate.
  - exact (proj1 (proj2 H2 eq_refl)).
  - exact (proj2 (proj2 (proj2 (proj2 H3 eq_refl)) (or_introl eq_refl))).
Defined.

Lemma providers_all_null (cfg : build_config) (ra : display_env) :
  ra_get_native_resource ra "x11" = None ->
  ra_get_native_resource ra "wl" = None ->
  (forall params, ra_get_native_resource ra "drm_params" = Some params ->
                  render_fd params < 0) ->
  Forall (fun c => create c ra = None) (create_native_cbs cfg).
Proof.
  intros Hx Hw Hd.
  assert (H1 : create_x11_va_display ra = None)
    by (unfold create_x11_va_display; now rewrite Hx).
  assert (H2 : create_wayland_va_display ra = None)
    by (unfold create_wayland_va_display; now rewrite Hw).
  assert (H3 : create_drm_va_display ra = None).
  { unfold create_drm_va_display.
    destruct (ra_get_native_resource ra "drm_params") as [params|]; [|reflexivity].
    specialize (Hd params eq_refl). apply Z.ltb_lt in Hd. now rewrite Hd. }
  unfold create_native_cbs.
  destruct (HAVE_VAAPI_X11 cfg), (HAVE_VAAPI_WAYLAND cfg), (HAVE_VAAPI_DRM cfg);
    repeat constructor; assumption.
Qed.

(** X15. When the renderer has no X11 and no Wayland display and its DRM
    parameters are missing or carry a negative render descriptor, every
    provider yields NULL, whatever libva would answer (the DRM provider does
    not call [vaGetDisplayDRM] on a negative descriptor); then [init]
    returns -1 without calling [va_initialize] and registers nothing. *)
Theorem init_fails_without_display (cfg : build_config) (env : init_env) (hw : ra_hwdec) :
  ra_get_native_resource (i_display env) "x11" = None ->
  ra_get_native_resource (i_display env) "wl" = None ->
  (forall params, ra_get_native_resource (i_display env) "drm_params" = Some params ->
                  render_fd params < 0) ->
  selected_display cfg env = None
  /\ result (init cfg env hw) = -1
  /\ ~ In Call_va_initialize (trace_of (init cfg env hw))
  /\ hw_devs (state_of (init cfg env hw)) = hw_devs hw.
Proof.
  intros Hx Hw Hd.
  pose proof (providers_all_null cfg (i_display env) Hx Hw Hd) as Hall.
  assert (Hnone : selected_display cfg env = None).
  { unfold selected_display, create_native_va_display.
    pose proof (create_native_va_display_from_spec (create_native_cbs cfg)
                  (i_display env) tt) as (_ & _ & Hm).
    cbv zeta in Hm.
    destruct (result (create_native_va_display_from (create_native_cbs cfg)
                        (i_display env) tt)) as [d|]; [|reflexivity].
    destruct Hm as (pre & cb & post & Hcbs & _ & Hcb & _).
    rewrite Hcbs in Hall. apply Forall_app in Hall as [_ Hall].
    apply Forall_inv in Hall. congruence. }
  pose proof (init_outcome cfg env hw) as (Hr & Hc & _ & _ & Hdevs). cbv zeta in *.
  assert (Hok : init_succeeds cfg env hw = false).
  { unfold init_succeeds. rewrite Hnone. now rewrite andb_false_r. }
  rewrite Hok in *. rewrite Hnone in Hc. rewrite app_nil_r in Hdevs.
  repeat split; try assumption.
  rewrite core_call_in by reflexivity. rewrite Hc.
  destruct (backend_ready (selected_owner cfg env hw)); intros H; exact H.
Qed.

Lemma init_fails_without_display_witness :
  selected_display config_all init_env_no_display = None
  /\ result (init config_all init_env_no_display blank_hwdec) = -1.
Proof.
  assert (Hd : forall params,
             ra_get_native_resource (i_display init_env_no_display) "drm_params"
             = Some params -> render_fd params < 0).
  { intros params H. vm_compute in H. injection H as <-. reflexivity. }
  destruct (init_fails_without_display config_all init_env_no_display blank_hwdec
              eq_refl eq_refl Hd) as (H1 & H2 & _).
  split; [exact H1 | exact H2].
Defined.

(** X16. In a build with neither the OpenGL nor the Vulkan interop, no
    initialiser is called: unless the owner already has both [interop_map]
    and [interop_unmap], [init] returns -1 at once, with the state as it was
    and the explanatory message as its only output. *)
Theorem init_fails_without_backend (cfg : build_config) (env : init_env) (hw : ra_hwdec) :
  HAVE_GL cfg = false ->
  HAVE_VULKAN cfg = false ->
  backend_ready (hw_priv hw) = false ->
  init cfg env hw
  = (-1, hw, [Msg MSGL_V "VAAPI hwdec only works with OpenGL or Vulkan backends."]).
Proof.
  intros Hgl Hvk Hready. unfold init, interop_inits. rewrite Hgl, Hvk.
  cbn [app init_interop_loop]. cbv beta iota zeta delta [bind get ret emit].
  unfold backend_ready in Hready.
  destruct (interop_map (hw_priv hw)); [|reflexivity].
  cbn [andb] in Hready. rewrite Hready. reflexivity.
Qed.

Lemma init_fails_without_backend_witness :
  result (init config_no_backend init_env_one_format blank_hwdec) = -1.
Proof.
  exact (f_equal result
           (init_fails_without_backend config_no_backend init_env_one_format blank_hwdec
              eq_refl eq_refl eq_refl)).
Defined.

(** X17. When libavutil gives no frame constraints, [determine_working_formats]
    warns, tries no candidate and leaves the list empty (the terminator
    alone), with the probing flag clear; [init] then returns -1 and registers
    nothing. *)
Theorem no_constraints_no_formats (cfg : build_config) (env : init_env) (hw : ra_hwdec) :
  p_constraints (i_probe env) = None ->
  (forall hw0,
     determine_working_formats (i_probe env) hw0
     = (tt,
        with_hw_priv (fun p => set_probing_formats false (set_formats (Some [0]) p)) hw0,
        [Msg MSGL_WARN "failed to retrieve libavutil frame constraints";
         Msg MSGL_V "Supported formats:"]))
  /\ result (init cfg env hw) = -1
  /\ hw_devs (state_of (init cfg env hw)) = hw_devs hw.
Proof.
  intros Hc. split.
  - intros hw0. unfold determine_working_formats. rewrite Hc. reflexivity.
  - pose proof (init_outcome cfg env hw) as (Hr & _ & _ & _ & Hdevs). cbv zeta in *.
    assert (Hok : init_succeeds cfg env hw = false).
    { unfold init_succeeds, candidates_passed. rewrite Hc. cbn. apply andb_false_r. }
    rewrite Hok in *. rewrite app_nil_r in Hdevs. now split.
Qed.

Lemma no_constraints_no_formats_witness :
  result (init config_all init_env_no_constraints blank_hwdec) = -1.
Proof.
  exact (proj1 (proj2 (no_constraints_no_formats config_all init_env_no_constraints
                         blank_hwdec eq_refl))).
Defined.

(** ** The calls of mapper_map, in order *)

Lemma mapper_map_legacy_trace (env : mapper_env) (m : ra_hwdec_mapper) :
  unmapped (m_priv m) = true ->
  trace_of (mapper_map_legacy env m) = legacy_trace env (m_owner m) (m_src m)
  /\ result (mapper_map_legacy env m)
     = (if legacy_succeeds env (m_owner m) then 0 else -1).
Proof.
  intros Hun. unfold legacy_trace, legacy_succeeds, err_log, status_log.
  destruct (interop_map_legacy (m_owner m)) eqn:Hleg.
  - unfold mapper_map_legacy.
    destruct m as [o [np ly d sa ci ba esh] t src sp dp].
    destruct env as [gd ii ex sy im [ds di] aq [lr lt] iu rs dsy].
    cbn [m_owner] in Hleg. run_monad. unfold mapper_map_err. run_monad.
    destruct (ds =? VA_STATUS_SUCCESS) eqn:Hds;
      destruct (aq =? VA_STATUS_SUCCESS) eqn:Haq;
      destruct lr;
      destruct (format_fourcc di =? VA_FOURCC_YV12) eqn:Hfc;
      destruct (probing_formats o) eqn:Hp;
      repeat (cbn -[Z.eqb VA_FOURCC_YV12 MPSWAP drm_fmts];
              rewrite ?Hleg, ?Hds, ?Haq, ?Hfc, ?Hp);
      split; reflexivity.
  - rewrite (mapper_map_legacy_absent env m Hleg).
    destruct (mapper_unmap_on_unmapped env m Hun) as [Ht Hs].
    unfold result, state_of, trace_of in *.
    destruct (mapper_unmap env m) as [[u m2] t2]. cbn [fst snd] in *. subst t2 m2.
    split; reflexivity.
Qed.

Lemma mapper_map_esh_failed_trace (env : mapper_env) (m : ra_hwdec_mapper) :
  buffer_acquired (m_priv m) = false ->
  image_id (current_image (m_priv m)) = VA_INVALID_ID ->
  trace_of (mapper_map_esh_failed env m)
  = (if surface_acquired (m_priv m)
     then map Call_close (exported_fds (desc (m_priv m))) else [])
    ++ legacy_trace env (m_owner m) (m_src m)
  /\ result (mapper_map_esh_failed env m)
     = (if legacy_succeeds env (m_owner m) then 0 else -1).
Proof.
  intros Hba Hid. rewrite mapper_map_esh_failed_run.
  assert (Hun : unmapped (m_priv (with_priv (set_surface_acquired false) m)) = true).
  { destruct m as [o [np ly d sa ci ba esh] t src sp dp]. cbn in Hba, Hid.
    unfold unmapped. cbn -[Z.eqb]. rewrite Hba, Hid. reflexivity. }
  destruct (mapper_map_legacy_trace env _ Hun) as [Ht Hr].
  unfold result, state_of, trace_of in *.
  destruct (mapper_map_legacy env _) as [[r m'] t']. cbn [fst snd] in *.
  subst. split; reflexivity.
Qed.

(** X18. The calls of [mapper_map] on an unmapped session, in order.
    Unless the export is known to be unimplemented it starts with
    [vaExportSurfaceHandle]; [vaSyncSurface] and then the backend's import
    follow only a successful export; if the import fails the exported
    descriptors are closed before anything else.  The legacy strategy, which
    runs whenever the export strategy did not deliver, calls
    [vaDeriveImage], then [vaAcquireBufferHandle] on the derived image's
    buffer, then the backend's legacy import with the fixed format table,
    each only if the one before succeeded; without a legacy mapper it calls
    the backend's unmap instead.  A failed driver call is logged before the
    next step, and the fatal message comes last. *)
Theorem mapper_map_call_order (env : mapper_env) (m : ra_hwdec_mapper) :
  unmapped (m_priv m) = true ->
  trace_of (mapper_map env m) = map_trace env m.
Proof.
  intros Hun. unfold map_trace.
  assert (Hf : buffer_acquired (m_priv m) = false
               /\ image_id (current_image (m_priv m)) = VA_INVALID_ID
               /\ surface_acquired (m_priv m) = false).
  { destruct m as [o [np ly d sa ci ba esh] t src sp dp].
    unmapped_fields Hun. apply Z.eqb_eq in Hid. now repeat split. }
  destruct Hf as (Hba & Hid & Hsa).
  destruct (esh_not_implemented (m_priv m)) eqn:He.
  - rewrite (mapper_map_skips_export env m He).
    destruct (mapper_map_esh_failed_trace env m Hba Hid) as [Ht _].
    now rewrite Ht, Hsa.
  - destruct (fst (e_vaExportSurfaceHandle env) =? VA_STATUS_SUCCESS) eqn:Hs.
    + destruct (fst (e_interop_map env)) eqn:Hi.
      * now rewrite (mapper_map_exported env m He Hs Hi).
      * rewrite (mapper_map_import_failed env m He Hs Hi). cbv zeta.
        match goal with
        | |- context [mapper_map_esh_failed env ?m3] =>
            destruct (mapper_map_esh_failed_trace env m3 Hba Hid) as [Ht _]
        end.
        unfold trace_of in *.
        destruct (mapper_map_esh_failed env _) as [[r m'] t']. cbn [fst snd] in *.
        subst t'. reflexivity.
    + rewrite (mapper_map_export_failed env m He Hs). cbv zeta.
      match goal with
      | |- context [mapper_map_esh_failed env ?m3] =>
          assert (Hba3 : buffer_acquired (m_priv m3) = false)
            by (destruct (fst (e_vaExportSurfaceHandle env)
                          =? VA_STATUS_ERROR_UNIMPLEMENTED); exact Hba);
          assert (Hid3 : image_id (current_image (m_priv m3)) = VA_INVALID_ID)
            by (destruct (fst (e_vaExportSurfaceHandle env)
                          =? VA_STATUS_ERROR_UNIMPLEMENTED); exact Hid);
          destruct (mapper_map_esh_failed_trace env m3 Hba3 Hid3) as [Ht _]
      end.
      unfold trace_of in *.
      destruct (mapper_map_esh_failed env _) as [[r m'] t']. cbn [fst snd] in *.
      subst t'.
      destruct (fst (e_vaExportSurfaceHandle env) =? VA_STATUS_ERROR_UNIMPLEMENTED);
        cbn [m_priv m_owner m_src with_priv surface_acquired set_esh_not_implemented
             set_desc]; rewrite Hsa; reflexivity.
Qed.

Lemma mapper_map_call_order_witness :
  trace_of (mapper_map env_legacy_import_fails (fresh_mapper true))
  = [Call_vaExportSurfaceHandle 7; Msg MSGL_ERR "vaExportSurfaceHandle()";
     Call_vaDeriveImage 7; Call_vaAcquireBufferHandle 6;
     Call_interop_map_legacy drm_fmts;
     Msg MSGL_FATAL "mapping VAAPI EGL image failed"].
Proof.
  exact (mapper_map_call_order env_legacy_import_fails (fresh_mapper true) eq_refl).
Defined.

(** X19. [mapper_map] returns 0 exactly when the export strategy delivers
    (export attempted and successful, import successful) or the legacy
    strategy does (legacy mapper installed, image derived, buffer handle
    acquired, legacy import successful); otherwise it returns -1.  This
    holds from any session state. *)
Theorem mapper_map_succeeds_iff (env : mapper_env) (m : ra_hwdec_mapper) :
  result (mapper_map env m)
  = (if export_path_taken env m || legacy_succeeds env (m_owner m) then 0 else -1).
Proof.
  pose proof (mapper_map_facts env m) as (_ & _ & _ & _ & Hexp & _). cbv zeta in Hexp.
  destruct (export_path_taken env m) eqn:Hx; [now rewrite (Hexp eq_refl)|].
  cbn [orb].
  assert (Hleg : forall m0, m_owner m0 = m_owner m ->
            result (mapper_map_esh_failed env m0)
            = (if legacy_succeeds env (m_owner m) then 0 else -1)).
  { intros m0 Ho. rewrite mapper_map_esh_failed_run.
    assert (Hres : forall m1, m_owner m1 = m_owner m ->
              result (mapper_map_legacy env m1)
              = (if legacy_succeeds env (m_owner m) then 0 else -1)).
    { intros m1 Ho1. unfold legacy_succeeds. rewrite <- Ho1.
      destruct (interop_map_legacy (m_owner m1)) eqn:Hl.
      - unfold mapper_map_legacy.
        destruct m1 as [o [np ly d sa ci ba esh] t src sp dp].
        destruct env as [gd ii ex sy im [ds di] aq [lr lt] iu rs dsy].
        cbn [m_owner] in Hl. run_monad. unfold mapper_map_err. run_monad.
        destruct (ds =? VA_STATUS_SUCCESS) eqn:Hds;
          destruct (aq =? VA_STATUS_SUCCESS) eqn:Haq;
          destruct lr;
          destruct (format_fourcc di =? VA_FOURCC_YV12) eqn:Hfc;
          destruct (probing_formats o) eqn:Hp;
          repeat (cbn -[Z.eqb VA_FOURCC_YV12 MPSWAP drm_fmts];
                  rewrite ?Hl, ?Hds, ?Haq, ?Hfc, ?Hp);
          reflexivity.
      - rewrite (mapper_map_legacy_absent env m1 Hl). unfold result.
        destruct (mapper_unmap env m1) as [[u m2] t2]. reflexivity. }
    specialize (Hres (with_priv (set_surface_acquired false) m0) Ho).
    unfold result in *.
    destruct (mapper_map_legacy env _) as [[r m'] t']. exact Hres. }
  unfold export_path_taken in Hx.
  destruct (esh_not_implemented (m_priv m)) eqn:He.
  - rewrite (mapper_map_skips_export env m He). now apply Hleg.
  - cbn [negb andb] in Hx.
    destruct (fst (e_vaExportSurfaceHandle env) =? VA_STATUS_SUCCESS) eqn:Hs.
    + cbn [andb] in Hx.
      rewrite (mapper_map_import_failed env m He Hs Hx). cbv zeta.
      match goal with
      | |- context [mapper_map_esh_failed env ?m3] =>
          specialize (Hleg m3 eq_refl)
      end.
      unfold result in *.
      destruct (mapper_map_esh_failed env _) as [[r m'] t']. exact Hleg.
    + rewrite (mapper_map_export_failed env m He Hs). cbv zeta.
      match goal with
      | |- context [mapper_map_esh_failed env ?m3] =>
          assert (Ho : m_owner m3 = m_owner m)
            by (destruct (fst (e_vaExportSurfaceHandle env)
                          =? VA_STATUS_ERROR_UNIMPLEMENTED); reflexivity);
          specialize (Hleg m3 Ho)
      end.
      unfold result in *.
      destruct (mapper_map_esh_failed env _) as [[r m'] t']. exact Hleg.
Qed.
